(** * The TeamCity provider: build-configuration and project reconciler

    A shallow embedding of [resource_build_configuration.go] and
    [resource_project.go]: the parameter codec, the build-step codec, the
    two fingerprint functions handed to the schema as set hashes, and the
    create / read / update / delete operations, which thread the
    declarative state ([schema.ResourceData]) and the state of the remote
    client through every call.

    Conventions.
    - A Go [string] is a [string] (a sequence of bytes).  Rocq strings have
      no escapes, so the Go literal ["\\n"] (backslash, then n) is written
      ["\n"] here: two characters.
    - A Go [(T, error)] is a [result T]; a failed type assertion or a nil
      dereference is the separate outcome [Panic].
    - A [map[string]interface{}] whose values the schema types as strings is
      a [gmap string string]; key presence is lookup being [Some].
    - The fields [vcs_root] and [step] are sets ([schema.TypeSet]) keyed by
      [vcsRootHash] and [stepSetHash]: what a reader of such a field gets
      is the set, enumerated by key, never the list as it was declared. *)

From Stdlib Require Import ZArith Ascii String List DecimalString.
From Stdlib Require OrderedTypeEx.
From stdpp Require Import gmap strings list fin_maps sorting.

Local Open Scope string_scope.

(* ------------------------------------------------------------------ *)
(** ** Outcomes of fallible Go code *)

Inductive result (A : Type) : Type :=
  | Ok (a : A)
  | Err (e : string)
  | Panic.
Arguments Ok {A} a.
Arguments Err {A} e.
Arguments Panic {A}.

(** [fmt.Errorf] / [fmt.Sprintf] with a single [%s] verb. *)
Definition Sprintf_s (before arg after : string) : string :=
  before +:+ arg +:+ after.

(* ------------------------------------------------------------------ *)
(** ** The fingerprint hash (helper/hashcode over hash/crc32) *)

Module hashcode.

Definition IEEE : Z := 0xEDB88320%Z.

Definition bytes (s : string) : list Z :=
  map (fun c => Z.of_N (N_of_ascii c)) (list_ascii_of_string s).

Definition step_bit (crc : Z) : Z :=
  if Z.testbit crc 0 then Z.lxor (Z.shiftr crc 1) IEEE else Z.shiftr crc 1.

Definition step_byte (crc b : Z) : Z :=
  Nat.iter 8 step_bit (Z.lxor crc b).

(** Modelled from the spec: the deterministic non-cryptographic
    fingerprint is the client platform's [crc32.ChecksumIEEE], which is
    not part of this repository; it is written here bit by bit (reflected
    polynomial, initial value and final complement 0xFFFFFFFF). *)
Definition ChecksumIEEE (s : string) : Z :=
  Z.lxor (fold_left step_byte (bytes s) 0xFFFFFFFF%Z) 0xFFFFFFFF%Z.

(** Modelled from the spec: [hashcode.String], the non-negative [int]
    made of the checksum ([int] is 64 bits wide, so the first branch is
    the one taken). *)
Definition String (s : string) : Z :=
  let v := ChecksumIEEE s in
  if (0 <=? v)%Z then v
  else if (0 <=? - v)%Z then (- v)%Z
  else 0%Z.

End hashcode.

Module strconv.

(** [strconv.Itoa]: the decimal text of an [int]. *)
Definition Itoa (n : Z) : string := NilZero.string_of_int (Z.to_int n).

End strconv.

Module sort.

(** The order of Go strings: byte by byte, a proper prefix first. *)
Definition le (a b : string) : Prop := String.leb a b = true.

Definition lt (a b : string) : Prop := le a b ∧ a ≠ b.

#[global] Instance le_dec (a b : string) : Decision (le a b).
Proof. unfold le. apply _. Defined.

(** [sort.Strings]: the strings in increasing order. *)
Definition Strings (l : list string) : list string := merge_sort le l.

End sort.

Module schema.
(** [schema.HashString] is [hashcode.String]. *)
Definition HashString (s : string) : Z := hashcode.String s.

Section SetOf.

Context {A : Type}.
Variable F : A → Z.

(** Modelled from the spec: the set-valued fields are unordered
    collections keyed by the identity fingerprint; [*schema.Set] itself
    belongs to the platform's helper library, not to this repository.
    As that library has it: the key of a member is the decimal text of
    its fingerprint [F] (made non-negative), the members are kept in a
    map under their keys, [add] leaves the set as it is when the key is
    taken, and [List] enumerates the members by increasing key, the
    keys compared as strings. *)
Definition hash (item : A) : string :=
  let code := F item in
  let code := if (code <? 0)%Z then (- code)%Z else code in
  strconv.Itoa code.

Definition add (m : gmap string A) (item : A) : gmap string A :=
  let code := hash item in
  match m !! code with
  | Some _ => m
  | None => <[code := item]> m
  end.

Definition NewSet (items : list A) : gmap string A :=
  fold_left add items ∅.

Definition listCode (m : gmap string A) : list string :=
  sort.Strings (map_to_list m).*1.

Definition List (m : gmap string A) : list A :=
  omap (fun k => m !! k) (listCode m).

End SetOf.

End schema.

(* ------------------------------------------------------------------ *)
(** ** Remote step variants (package api) *)

Module api.

Record StepPowershell : Type := mkStepPowershell {
  ps_Name : string;
  ScriptFile : string;
  ScriptArgs : string;
  Code : string
}.

Record StepCommandLine : Type := mkStepCommandLine {
  cl_Name : string;
  CommandExecutable : string;
  CommandParameters : string;
  CustomScript : string
}.

(** The [api.Step] interface: the two variants this provider knows, and
    any other runner the server may report, of which only the kind
    identifier and the name are visible through the interface. *)
Inductive Step : Type :=
  | PowershellStep (s : StepPowershell)
  | CommandLineStep (s : StepCommandLine)
  | OtherStep (kind name : string).

(** Modelled from the spec: the internal kind identifiers
    [api.StepTypePowershell] and [api.StepTypeCommandLine] are constants
    of the client library (not in this repository); they are the two keys
    of [stepTypeMap] and differ from each other. *)
Definition StepTypePowershell : string := "jetbrains_powershell".
Definition StepTypeCommandLine : string := "simpleRunner".

Definition Type_ (s : Step) : string :=
  match s with
  | PowershellStep _ => StepTypePowershell
  | CommandLineStep _ => StepTypeCommandLine
  | OtherStep kind _ => kind
  end.

(** Modelled from the spec: the four step constructors of the client
    library (not in this repository).  A file-mode variant carries the
    file path and the arguments, an inline-mode variant the code, which
    may be empty; neither is refused. *)
Definition NewStepPowershellScriptFile (name file args : string)
  : result StepPowershell :=
  Ok (mkStepPowershell name file args "").

Definition NewStepPowershellCode (name code : string)
  : result StepPowershell :=
  Ok (mkStepPowershell name "" "" code).

Definition NewStepCommandLineExecutable (name file args : string)
  : result StepCommandLine :=
  Ok (mkStepCommandLine name file args "").

Definition NewStepCommandLineScript (name code : string)
  : result StepCommandLine :=
  Ok (mkStepCommandLine name "" "" code).

End api.

(* ------------------------------------------------------------------ *)
(** ** Step variant codec *)

(** [var stepTypeMap]: internal kind identifier to declarative tag. *)
Definition stepTypeMap : gmap string string :=
  <[api.StepTypePowershell := "powershell"]>
    (<[api.StepTypeCommandLine := "cmd_line"]> ∅).

Definition flattenBuildStepPowershell (s : api.StepPowershell)
  : gmap string string :=
  let m : gmap string string := ∅ in
  let m :=
    if decide (api.ScriptFile s ≠ "") then
      let m := <["file" := api.ScriptFile s]> m in
      if decide (api.ScriptArgs s ≠ "")
      then <["args" := api.ScriptArgs s]> m else m
    else m in
  let m := if decide (api.Code s ≠ "")
           then <["code" := api.Code s]> m else m in
  let m := if decide (api.ps_Name s ≠ "")
           then <["name" := api.ps_Name s]> m else m in
  <["type" := "powershell"]> m.

Definition flattenBuildStepCmdLine (s : api.StepCommandLine)
  : gmap string string :=
  let m : gmap string string := ∅ in
  let m :=
    if decide (api.CommandExecutable s ≠ "") then
      let m := <["file" := api.CommandExecutable s]> m in
      if decide (api.CommandParameters s ≠ "")
      then <["args" := api.CommandParameters s]> m else m
    else m in
  let m := if decide (api.CustomScript s ≠ "")
           then <["code" := api.CustomScript s]> m else m in
  let m := if decide (api.cl_Name s ≠ "")
           then <["name" := api.cl_Name s]> m else m in
  <["type" := "cmd_line"]> m.

(** A missing key of a Go map reads as the zero value, here [""]. *)
Definition flattenBuildStep (s : api.Step) : result (gmap string string) :=
  let mapType := default "" (stepTypeMap !! api.Type_ s) in
  if decide (mapType = "powershell") then
    match s with
    | api.PowershellStep p => Ok (flattenBuildStepPowershell p)
    | _ => Panic
    end
  else if decide (mapType = "cmd_line") then
    match s with
    | api.CommandLineStep c => Ok (flattenBuildStepCmdLine c)
    | _ => Panic
    end
  else Err (Sprintf_s "Build step type '" (api.Type_ s) "' not supported").

Definition expandStepCmdLine (dt : gmap string string)
  : result api.StepCommandLine :=
  let file := default "" (dt !! "file") in
  let args := default "" (dt !! "args") in
  let name := default "" (dt !! "name") in
  let code := default "" (dt !! "code") in
  if decide (file ≠ "")
  then api.NewStepCommandLineExecutable name file args
  else api.NewStepCommandLineScript name code.

Definition expandStepPowershell (dt : gmap string string)
  : result api.StepPowershell :=
  let file := default "" (dt !! "file") in
  let args := default "" (dt !! "args") in
  let name := default "" (dt !! "name") in
  let code := default "" (dt !! "code") in
  if decide (file ≠ "")
  then api.NewStepPowershellScriptFile name file args
  else api.NewStepPowershellCode name code.

Definition result_map {A B : Type} (f : A → B) (r : result A) : result B :=
  match r with
  | Ok a => Ok (f a)
  | Err e => Err e
  | Panic => Panic
  end.

(** [localStep["type"].(string)] panics when the key is missing. *)
Definition expandBuildStep (localStep : gmap string string)
  : result api.Step :=
  match localStep !! "type" with
  | None => Panic
  | Some t =>
      if decide (t = "powershell") then
        result_map api.PowershellStep (expandStepPowershell localStep)
      else if decide (t = "cmd_line") then
        result_map api.CommandLineStep (expandStepCmdLine localStep)
      else Err (Sprintf_s "Unsupported step type '" t "'")
  end.

(* ------------------------------------------------------------------ *)
(** ** Collection identity hasher *)

(** An element of the [vcs_root] set as the schema types it. *)
Record VcsRootDecl : Type := mkVcsRootDecl {
  root_id : string;
  checkout_rules : list string
}.

Definition vcsRootHash (raw : VcsRootDecl) : Z :=
  schema.HashString (root_id raw).

(** [bytes.Buffer.WriteString]. *)
Definition WriteString (buf s : string) : string := buf +:+ s.

(** The text [stepSetHash] accumulates in its buffer. *)
Definition stepSetText (type_ : string) (m : gmap string string) : string :=
  let buf := "" in
  let buf := WriteString buf (Sprintf_s "" type_ "-") in
  let buf := match m !! "name" with
             | Some v => WriteString buf (Sprintf_s "" v "-")
             | None => buf
             end in
  let buf := match m !! "file" with
             | Some v => WriteString buf (Sprintf_s "" v "-")
             | None => buf
             end in
  let buf := match m !! "args" with
             | Some v => WriteString buf (Sprintf_s "" v "-")
             | None => buf
             end in
  buf.

Definition stepSetHash (m : gmap string string) : result Z :=
  match m !! "type" with
  | None => Panic
  | Some t => Ok (hashcode.String (stepSetText t m))
  end.

(** The keys of a step in the schema. *)
Definition step_keys : list string :=
  ["type"; "name"; "file"; "args"; "code"].

(** Modelled from the spec: a member of the [step] set as the schema
    hands it out, to [stepSetHash] as to the reader of the field: a map
    with every key of the element schema, a key that was not given
    holding the zero value [""] ("absence of a field is treated as an
    empty string"). *)
Definition step_record (m : gmap string string) : gmap string string :=
  list_to_map ((fun k => (k, default "" (m !! k))) <$> step_keys).

(** [Set: stepSetHash] as the set calls it: on a member that holds the
    key [type], where the type assertion of [stepSetHash] cannot fail. *)
Definition step_code (m : gmap string string) : Z :=
  match stepSetHash m with
  | Ok code => code
  | _ => 0%Z
  end.

(** The two sets of the schema, built from a list of members and
    enumerated: [Set: stepSetHash] over the step records, and
    [Set: vcsRootHash]. *)
Definition step_set (l : list (gmap string string))
  : list (gmap string string) :=
  schema.List (schema.NewSet step_code (step_record <$> l)).

Definition vcs_root_set (l : list VcsRootDecl) : list VcsRootDecl :=
  schema.List (schema.NewSet vcsRootHash l).


(* ------------------------------------------------------------------ *)
(** ** Parameters (package api) *)

Module params.

Record Parameter_ : Type := mkParameter {
  Type_ : string;
  Name : string;
  Value : string
}.

Record Parameters_ : Type := mkParameters {
  Items : list Parameter_
}.

(** Modelled from the spec: the three kind constants
    [api.ParameterTypes.*] of the client library (not in this
    repository), a closed partition of the parameter name space. *)
Definition Configuration : string := "configuration".
Definition System : string := "system".
Definition EnvironmentVariable : string := "env".

Definition NewParametersEmpty : Parameters_ := mkParameters [].

(** Modelled from the spec: [api.NewParameter]; a parameter is the triple
    (kind, name, value), and a string value is never refused. *)
Definition NewParameter (t name value : string) : result Parameter_ :=
  Ok (mkParameter t name value).

(** Modelled from the spec: [AddOrReplaceParameter], add-or-replace by
    (kind, name): the first member with that kind and name takes the new
    value in place, otherwise the parameter is appended. *)
Fixpoint AddOrReplaceValue (items : list Parameter_) (t n v : string)
  : list Parameter_ :=
  match items with
  | [] => [mkParameter t n v]
  | elem :: rest =>
      if decide (Name elem = n ∧ Type_ elem = t)
      then mkParameter t n v :: rest
      else elem :: AddOrReplaceValue rest t n v
  end.

Definition AddOrReplaceParameter (p : Parameters_) (param : Parameter_)
  : Parameters_ :=
  mkParameters
    (AddOrReplaceValue (Items p) (Type_ param) (Name param) (Value param)).

(** Modelled from the spec: [Concat], the merge with last-write-wins on
    (kind, name): every member of [source] is added or replaced in turn. *)
Definition Concat (p source : Parameters_) : Parameters_ :=
  fold_left AddOrReplaceParameter (Items source) p.

End params.

(* ------------------------------------------------------------------ *)
(** ** strings.Join and strings.Split *)

Module strings.

Fixpoint Join (elems : list string) (sep : string) : string :=
  match elems with
  | [] => ""
  | [a] => a
  | a :: rest => a +:+ sep +:+ Join rest sep
  end.

(** One pass over [s]: [skip] counts the bytes of a separator that was
    just matched and are still to be passed over, [cur] is the piece
    being collected.  The cut is made at the leftmost occurrence and the
    scan resumes behind it, so occurrences do not overlap. *)
Fixpoint split_from (sep : string) (skip : nat) (cur s : string)
  : list string :=
  match s with
  | EmptyString => [cur]
  | String c s' =>
      match skip with
      | S k => split_from sep k cur s'
      | O =>
          if String.prefix sep s
          then cur :: split_from sep (String.length sep - 1) "" s'
          else split_from sep 0 (cur +:+ String c "") s'
      end
  end.

(** Modelled from the spec: Go's [strings.Split] for a separator that is
    not empty (the only use here): the pieces between the occurrences
    of [sep], one more than there are occurrences. *)
Definition Split (s sep : string) : list string :=
  split_from sep 0 "" s.

(** [strings.Contains]. *)
Fixpoint Contains (s substr : string) : bool :=
  String.prefix substr s ||
  match s with
  | EmptyString => false
  | String _ s' => Contains s' substr
  end.

End strings.

(* ------------------------------------------------------------------ *)
(** ** Remote entities (package api) *)

Module entity.

Record VcsRootReference : Type := mkVcsRootReference {
  ref_ID : string
}.

Record VcsRootEntry : Type := mkVcsRootEntry {
  ID : string;
  VcsRoot : VcsRootReference;
  CheckoutRules : string
}.

(** Modelled from the spec: [api.NewVcsRootEntryWithRules]; the
    attachment is the reference to the root and the rules as one string.
    It has no ID of its own before the server has filed it. *)
Definition NewVcsRootEntryWithRules (vcsRef : VcsRootReference)
  (rules : string) : VcsRootEntry :=
  mkVcsRootEntry "" vcsRef rules.

Record BuildType : Type := mkBuildType {
  bt_ID : string;
  bt_ProjectID : string;
  bt_Name : string;
  bt_Description : string;
  bt_Parameters : params.Parameters_;
  bt_VcsRootEntries : list VcsRootEntry
}.

Definition bt_set_Description (v : string) (bt : BuildType) : BuildType :=
  mkBuildType (bt_ID bt) (bt_ProjectID bt) (bt_Name bt) v
    (bt_Parameters bt) (bt_VcsRootEntries bt).

Definition bt_set_Parameters (ps : params.Parameters_) (bt : BuildType)
  : BuildType :=
  mkBuildType (bt_ID bt) (bt_ProjectID bt) (bt_Name bt)
    (bt_Description bt) ps (bt_VcsRootEntries bt).

(** Modelled from the spec: [api.NewBuildType], the entity allocated
    from its mandatory identity fields only. *)
Definition NewBuildType (projectID name : string) : result BuildType :=
  Ok (mkBuildType "" projectID name "" params.NewParametersEmpty []).

Record Project : Type := mkProject {
  p_ID : string;
  p_Name : string;
  p_Description : string;
  p_ParentProjectID : string;
  p_Parameters : params.Parameters_
}.

Definition p_set_Description (v : string) (p : Project) : Project :=
  mkProject (p_ID p) (p_Name p) v (p_ParentProjectID p) (p_Parameters p).

Definition p_set_Parameters (ps : params.Parameters_) (p : Project)
  : Project :=
  mkProject (p_ID p) (p_Name p) (p_Description p) (p_ParentProjectID p) ps.

(** Modelled from the spec: [api.NewProject]. *)
Definition NewProject (name description parentProjectId : string)
  : result Project :=
  Ok (mkProject "" name description parentProjectId
        params.NewParametersEmpty).

(** What a create call answers with: the ID the server assigned. *)
Record Reference : Type := mkReference {
  created_ID : string
}.

End entity.

(* ------------------------------------------------------------------ *)
(** ** The declarative state (schema.ResourceData) *)

(** What a key of the resource holds.  A [TypeSet] field holds the list
    of members it was given: the declared ones in the order of the
    configuration, or the enumeration of the set that [Set] made of the
    slice it was handed.  No reader sees that list: [GetOk] hands out
    the set built from it. *)
Inductive value : Type :=
  | VString (s : string)
  | VMap (m : gmap string string)
  | VVcsRoots (l : list VcsRootDecl)
  | VSteps (l : list (gmap string string)).

Record ResourceData : Type := mkResourceData {
  rd_Id : string;
  rd_isNew : bool;
  rd_partial : bool;
  rd_partialKeys : list string;
  rd_fields : gmap string value
}.

Definition SetId (v : string) (d : ResourceData) : ResourceData :=
  mkResourceData v (rd_isNew d) (rd_partial d) (rd_partialKeys d)
    (rd_fields d).

Definition MarkNewResource (d : ResourceData) : ResourceData :=
  mkResourceData (rd_Id d) true (rd_partial d) (rd_partialKeys d)
    (rd_fields d).

Definition Partial (on : bool) (d : ResourceData) : ResourceData :=
  mkResourceData (rd_Id d) (rd_isNew d) on
    (if on then rd_partialKeys d else []) (rd_fields d).

Definition SetPartial (k : string) (d : ResourceData) : ResourceData :=
  mkResourceData (rd_Id d) (rd_isNew d) (rd_partial d)
    (if rd_partial d then k :: rd_partialKeys d else rd_partialKeys d)
    (rd_fields d).

(** [d.Set(key, v)].  The schema fixes the type under each key and every
    call below passes a value of that type, so the error result of [Set]
    is always nil and is not threaded.  For a [TypeSet] key the slice
    handed to [Set] is turned into the set first: the value stored is
    [VSteps (step_set l)] or [VVcsRoots (vcs_root_set l)]. *)
Definition Set_ (key : string) (v : value) (d : ResourceData)
  : ResourceData :=
  mkResourceData (rd_Id d) (rd_isNew d) (rd_partial d) (rd_partialKeys d)
    (<[key := v]> (rd_fields d)).

(** [d.GetOk(key)] followed by the type assertion of the call site: [ok]
    is false when the key is not set or holds the zero value of its type
    (the empty string, a map or a set without members).  For the two
    set fields the result is the [List()] of the set. *)
Definition GetOk_string (d : ResourceData) (key : string) : option string :=
  match rd_fields d !! key with
  | Some (VString s) => if decide (s = "") then None else Some s
  | _ => None
  end.

Definition GetOk_map (d : ResourceData) (key : string)
  : option (gmap string string) :=
  match rd_fields d !! key with
  | Some (VMap m) => if decide (size m = 0) then None else Some m
  | _ => None
  end.

Definition GetOk_vcs_root (d : ResourceData) (key : string)
  : option (list VcsRootDecl) :=
  match rd_fields d !! key with
  | Some (VVcsRoots l) =>
      let vcs := vcs_root_set l in
      if decide (length vcs = 0) then None else Some vcs
  | _ => None
  end.

Definition GetOk_step (d : ResourceData) (key : string)
  : option (list (gmap string string)) :=
  match rd_fields d !! key with
  | Some (VSteps l) =>
      let steps := step_set l in
      if decide (length steps = 0) then None else Some steps
  | _ => None
  end.

(* ------------------------------------------------------------------ *)
(** ** Parameter codec *)

Definition result_bind {A B : Type} (r : result A) (f : A → result B)
  : result B :=
  match r with
  | Ok a => f a
  | Err e => Err e
  | Panic => Panic
  end.

Fixpoint expandParameters_loop (raw : list (string * string))
  (paramType : string) (out : params.Parameters_)
  : result params.Parameters_ :=
  match raw with
  | [] => Ok out
  | (k, v) :: rest =>
      result_bind (params.NewParameter paramType k v) (fun p =>
      expandParameters_loop rest paramType
        (params.AddOrReplaceParameter out p))
  end.

(** [raw] is the map in the order the [range] over it yields its
    entries. *)
Definition expandParameters (raw : list (string * string))
  (paramType : string) : result params.Parameters_ :=
  expandParameters_loop raw paramType params.NewParametersEmpty.

Definition flattenParameters_step
  (acc : gmap string string * gmap string string * gmap string string)
  (p : params.Parameter_)
  : gmap string string * gmap string string * gmap string string :=
  let '(config, sys, env) := acc in
  if decide (params.Type_ p = params.Configuration) then
    (<[params.Name p := params.Value p]> config, sys, env)
  else if decide (params.Type_ p = params.EnvironmentVariable) then
    (config, sys, <[params.Name p := params.Value p]> env)
  else if decide (params.Type_ p = params.System) then
    (config, <[params.Name p := params.Value p]> sys, env)
  else (config, sys, env).

(** Returns [(config, sys, env)]; the three maps are made, never nil. *)
Definition flattenParameters (dt : params.Parameters_)
  : gmap string string * gmap string string * gmap string string :=
  fold_left flattenParameters_step (params.Items dt) (∅, ∅, ∅).

Definition flattenParameterCollection (d : ResourceData)
  (ps : params.Parameters_) : ResourceData :=
  let '(configParams, sysParams, envParams) := flattenParameters ps in
  let d := if decide (0 < size envParams)
           then Set_ "env_params" (VMap envParams) d else d in
  let d := if decide (0 < size sysParams)
           then Set_ "sys_params" (VMap sysParams) d else d in
  let d := if decide (0 < size configParams)
           then Set_ "config_params" (VMap configParams) d else d in
  d.

Section Codec.

(** The order in which a Go [range] visits a map is unspecified; [range]
    is the enumeration the runtime happens to pick. *)
Variable range : gmap string string → list (string * string).

Definition expandParameterCollection (d : ResourceData)
  : result params.Parameters_ :=
  result_bind
    (match GetOk_map d "env_params" with
     | Some v =>
         result_bind
           (expandParameters (range v) params.EnvironmentVariable)
           (fun p => Ok (Some p))
     | None => Ok None
     end) (fun env =>
  result_bind
    (match GetOk_map d "sys_params" with
     | Some v =>
         result_bind (expandParameters (range v) params.System)
           (fun p => Ok (Some p))
     | None => Ok None
     end) (fun system =>
  result_bind
    (match GetOk_map d "config_params" with
     | Some v =>
         result_bind (expandParameters (range v) params.Configuration)
           (fun p => Ok (Some p))
     | None => Ok None
     end) (fun config =>
  let out := params.NewParametersEmpty in
  let out := match config with
             | Some c => params.Concat out c | None => out end in
  let out := match system with
             | Some s => params.Concat out s | None => out end in
  let out := match env with
             | Some e => params.Concat out e | None => out end in
  Ok out))).

End Codec.

(* ------------------------------------------------------------------ *)
(** ** The external collaborator (api.Client) *)

(** The calls this provider makes, as they appear on the wire. *)
Inductive Call : Type :=
  | CallBuildTypesCreate (projectID : string) (bt : entity.BuildType)
  | CallAttachVcsRootEntry (buildTypeID : string) (e : entity.VcsRootEntry)
  | CallAddStep (buildTypeID : string) (s : api.Step)
  | CallBuildTypesGetByID (buildTypeID : string)
  | CallGetSteps (buildTypeID : string)
  | CallBuildTypesDelete (buildTypeID : string)
  | CallProjectsCreate (p : entity.Project)
  | CallProjectsGetByID (projectID : string)
  | CallProjectsUpdate (p : entity.Project)
  | CallProjectsDelete (projectID : string).

(** The capability surface consumed from the client, over the state [R]
    of the remote system.  Nothing is assumed of an implementation. *)
Record Client (R : Type) : Type := mkClient {
  BuildTypes_Create :
    string → entity.BuildType → R → result entity.Reference * R;
  BuildTypes_AttachVcsRootEntry :
    string → entity.VcsRootEntry → R → result unit * R;
  BuildTypes_AddStep : string → api.Step → R → result api.Step * R;
  BuildTypes_GetByID : string → R → result entity.BuildType * R;
  BuildTypes_GetSteps : string → R → result (list api.Step) * R;
  BuildTypes_Delete : string → R → result unit * R;
  Projects_Create : entity.Project → R → result entity.Reference * R;
  Projects_GetByID : string → R → result entity.Project * R;
  Projects_Update : entity.Project → R → result entity.Project * R;
  Projects_Delete : string → R → result unit * R
}.
Arguments BuildTypes_Create {R} _.
Arguments BuildTypes_AttachVcsRootEntry {R} _.
Arguments BuildTypes_AddStep {R} _.
Arguments BuildTypes_GetByID {R} _.
Arguments BuildTypes_GetSteps {R} _.
Arguments BuildTypes_Delete {R} _.
Arguments Projects_Create {R} _.
Arguments Projects_GetByID {R} _.
Arguments Projects_Update {R} _.
Arguments Projects_Delete {R} _.

(** What an operation of the reconciler runs in: the resource data [d] it
    was handed, the remote system behind [meta], and the calls made so
    far, oldest first. *)
Record World (R : Type) : Type := mkWorld {
  w_d : ResourceData;
  w_remote : R;
  w_calls : list Call
}.
Arguments mkWorld {R} _ _ _.
Arguments w_d {R} _.
Arguments w_remote {R} _.
Arguments w_calls {R} _.

(** State and error: the state survives an error, as in Go, where [d] and
    the server keep what was done to them before the [return err]. *)
Definition M (R A : Type) : Type := World R → result A * World R.

Definition ret {R A : Type} (a : A) : M R A := fun w => (Ok a, w).

Definition bind {R A B : Type} (m : M R A) (f : A → M R B) : M R B :=
  fun w =>
    match m w with
    | (Ok a, w') => f a w'
    | (Err e, w') => (Err e, w')
    | (Panic, w') => (Panic, w')
    end.

Declare Scope go_scope.
Delimit Scope go_scope with go.
Notation "x <- m ;; k" := (bind m (fun x => k))
  (at level 100, m at next level, right associativity) : go_scope.
Notation "m ;;; k" := (bind m (fun _ => k))
  (at level 100, right associativity) : go_scope.

Definition lift {R A : Type} (r : result A) : M R A := fun w => (r, w).

Definition get_d {R : Type} : M R ResourceData := fun w => (Ok (w_d w), w).

Definition modify_d {R : Type} (f : ResourceData → ResourceData)
  : M R unit :=
  fun w => (Ok tt, mkWorld (f (w_d w)) (w_remote w) (w_calls w)).

(** A call: the request is logged, then the client answers and the remote
    state moves on, whether the answer is an error or not. *)
Definition call {R A : Type} (c : Call) (op : R → result A * R) : M R A :=
  fun w =>
    let '(r, remote') := op (w_remote w) in
    (r, mkWorld (w_d w) remote' (w_calls w ++ [c])).

(** [for _, x := range l { ... }] with [return err] in the body. *)
Fixpoint for_each {R A : Type} (l : list A) (body : A → M R unit)
  : M R unit :=
  match l with
  | [] => ret tt
  | x :: rest => bind (body x) (fun _ => for_each rest body)
  end.

(** A loop that appends one mapped element per round. *)
Fixpoint map_each {A B : Type} (f : A → result B) (l : list A)
  : result (list B) :=
  match l with
  | [] => Ok []
  | x :: rest =>
      result_bind (f x) (fun y =>
      result_bind (map_each f rest) (fun ys => Ok (y :: ys)))
  end.

(* ------------------------------------------------------------------ *)
(** ** Entity reconciler *)

Definition buildVcsRootEntry (raw : VcsRootDecl) : entity.VcsRootEntry :=
  let rawRules := checkout_rules raw in
  let toAttachRules :=
    if decide (0 < length rawRules) then strings.Join rawRules "\n"
    else "" in
  entity.NewVcsRootEntryWithRules
    (entity.mkVcsRootReference (root_id raw)) toAttachRules.

(** The element [resourceBuildConfigurationRead] saves for one remote
    VCS-root entry. *)
Definition flattenVcsRootEntry (el : entity.VcsRootEntry) : VcsRootDecl :=
  mkVcsRootDecl (entity.ID el)
    (strings.Split (entity.CheckoutRules el) "\n").

Section Reconciler.

Variable range : gmap string string → list (string * string).
Variable R : Type.
Variable client : Client R.

Local Open Scope go_scope.

Definition getBuildConfiguration (id_ : string) : M R entity.BuildType :=
  call (CallBuildTypesGetByID id_) (BuildTypes_GetByID client id_).

Definition resourceBuildConfigurationRead : M R unit :=
  d <- get_d ;;
  dt <- getBuildConfiguration (rd_Id d) ;;
  modify_d (Set_ "name" (VString (entity.bt_Name dt))) ;;;
  modify_d (Set_ "description" (VString (entity.bt_Description dt))) ;;;
  modify_d (Set_ "project_id" (VString (entity.bt_ProjectID dt))) ;;;
  modify_d (fun d => flattenParameterCollection d
                       (entity.bt_Parameters dt)) ;;;
  let vcsRoots := entity.bt_VcsRootEntries dt in
  (if decide (0 < length vcsRoots) then
     let vcsToSave := map flattenVcsRootEntry vcsRoots in
     modify_d (Set_ "vcs_root" (VVcsRoots (vcs_root_set vcsToSave)))
   else ret tt) ;;;
  steps <- call (CallGetSteps (rd_Id d))
             (BuildTypes_GetSteps client (rd_Id d)) ;;
  if decide (0 < length steps) then
    stepsToSave <- lift (map_each flattenBuildStep steps) ;;
    modify_d (Set_ "step" (VSteps (step_set stepsToSave)))
  else ret tt.

(** The body of the loop over the VCS roots: one attach call. *)
Definition attach_body (buildTypeID : string) (raw : VcsRootDecl)
  : M R unit :=
  let toAttach := buildVcsRootEntry raw in
  call (CallAttachVcsRootEntry buildTypeID toAttach)
    (BuildTypes_AttachVcsRootEntry client buildTypeID toAttach).

(** The body of the loop over the steps: expand, then one add call. *)
Definition step_body (buildTypeID : string) (raw : gmap string string)
  : M R unit :=
  newStep <- lift (expandBuildStep raw) ;;
  call (CallAddStep buildTypeID newStep)
    (BuildTypes_AddStep client buildTypeID newStep) ;;;
  ret tt.

(** The entity sent with the create call. *)
Definition buildTypeToCreate (d : ResourceData)
  : M R (string * entity.BuildType) :=
  let projectID := default "" (GetOk_string d "project_id") in
  let name := default "" (GetOk_string d "name") in
  bt <- lift (entity.NewBuildType projectID name) ;;
  let bt := match GetOk_string d "description" with
            | Some v => entity.bt_set_Description v bt
            | None => bt
            end in
  ps <- lift (expandParameterCollection range d) ;;
  ret (projectID, entity.bt_set_Parameters ps bt).

(** The two loops of Create, each followed by its [SetPartial].  [d] is
    the resource data the [GetOk] reads; [MarkNewResource], [SetId] and
    [Partial] leave its fields as they were on entry. *)
Definition attachVcsRoots (d : ResourceData) (buildTypeID : string)
  : M R unit :=
  match GetOk_vcs_root d "vcs_root" with
  | Some vcs =>
      for_each vcs (attach_body buildTypeID) ;;;
      modify_d (SetPartial "vcs_root")
  | None => ret tt
  end.

Definition addSteps (d : ResourceData) (buildTypeID : string)
  : M R unit :=
  match GetOk_step d "step" with
  | Some steps =>
      for_each steps (step_body buildTypeID) ;;;
      modify_d (SetPartial "step")
  | None => ret tt
  end.

Definition resourceBuildConfigurationCreate : M R unit :=
  d <- get_d ;;
  req <- buildTypeToCreate d ;;
  let projectID := fst req in
  let bt := snd req in
  created <- call (CallBuildTypesCreate projectID bt)
               (BuildTypes_Create client projectID bt) ;;
  modify_d MarkNewResource ;;;
  modify_d (SetId (entity.created_ID created)) ;;;
  modify_d (Partial true) ;;;
  attachVcsRoots d (entity.created_ID created) ;;;
  addSteps d (entity.created_ID created) ;;;
  modify_d (Partial false) ;;;
  resourceBuildConfigurationRead.

Definition resourceBuildConfigurationUpdate : M R unit :=
  ret tt.

Definition resourceBuildConfigurationDelete : M R unit :=
  d <- get_d ;;
  call (CallBuildTypesDelete (rd_Id d))
    (BuildTypes_Delete client (rd_Id d)).

Definition getProject (id_ : string) : M R entity.Project :=
  call (CallProjectsGetByID id_) (Projects_GetByID client id_).

Definition resourceProjectRead : M R unit :=
  d <- get_d ;;
  dt <- getProject (rd_Id d) ;;
  modify_d (Set_ "name" (VString (entity.p_Name dt))) ;;;
  modify_d (Set_ "description" (VString (entity.p_Description dt))) ;;;
  modify_d (fun d => flattenParameterCollection d
                       (entity.p_Parameters dt)).

Definition resourceProjectUpdate : M R unit :=
  d <- get_d ;;
  dt <- call (CallProjectsGetByID (rd_Id d))
          (Projects_GetByID client (rd_Id d)) ;;
  let dt := match GetOk_string d "description" with
            | Some v => entity.p_set_Description v dt
            | None => dt
            end in
  ps <- lift (expandParameterCollection range d) ;;
  let dt := entity.p_set_Parameters ps dt in
  call (CallProjectsUpdate dt) (Projects_Update client dt) ;;;
  ret tt.

Definition resourceProjectCreate : M R unit :=
  d <- get_d ;;
  let name := default "" (GetOk_string d "name") in
  newProj <- lift (entity.NewProject name "" "") ;;
  created <- call (CallProjectsCreate newProj)
               (Projects_Create client newProj) ;;
  modify_d (SetId (entity.created_ID created)) ;;;
  modify_d MarkNewResource ;;;
  resourceProjectUpdate.

Definition resourceProjectDelete : M R unit :=
  d <- get_d ;;
  call (CallProjectsDelete (rd_Id d)) (Projects_Delete client (rd_Id d)).

End Reconciler.

(* ------------------------------------------------------------------ *)
(** ** An in-memory collaborator *)

Module memory.

(** Modelled from the spec: the remote build server is outside this
    repository; this stand-in keeps the entities in maps, answers the
    calls of [Client], and fails on schedule.  An attachment is filed
    under the ID of the root it refers to.  [srv_faults] lists the
    outcome of the calls to come, oldest first: [Some msg] makes the
    call fail with [msg] and change nothing.  [srv_inherited] are the
    parameters of the parent project, which the server reports with
    every project it returns. *)
Record Server : Type := mkServer {
  srv_buildTypes : gmap string entity.BuildType;
  srv_steps : gmap string (list api.Step);
  srv_projects : gmap string entity.Project;
  srv_inherited : list params.Parameter_;
  srv_faults : list (option string)
}.

Definition with_faults (f : list (option string)) (s : Server) : Server :=
  mkServer (srv_buildTypes s) (srv_steps s) (srv_projects s)
    (srv_inherited s) f.

Definition with_buildTypes (b : gmap string entity.BuildType)
  (s : Server) : Server :=
  mkServer b (srv_steps s) (srv_projects s) (srv_inherited s)
    (srv_faults s).

Definition with_steps (st : gmap string (list api.Step)) (s : Server)
  : Server :=
  mkServer (srv_buildTypes s) st (srv_projects s) (srv_inherited s)
    (srv_faults s).

Definition with_projects (p : gmap string entity.Project) (s : Server)
  : Server :=
  mkServer (srv_buildTypes s) (srv_steps s) p (srv_inherited s)
    (srv_faults s).

Definition answering {A : Type} (k : Server → result A * Server)
  (s : Server) : result A * Server :=
  match srv_faults s with
  | Some msg :: rest => (Err msg, with_faults rest s)
  | None :: rest => k (with_faults rest s)
  | [] => k s
  end.

Definition not_found {A : Type} (s : Server) : result A * Server :=
  (Err "404 Not Found", s).

Definition create_buildType (projectID : string) (bt : entity.BuildType)
  : Server → result entity.Reference * Server :=
  answering (fun s =>
    let id_ := projectID +:+ "_" +:+ entity.bt_Name bt in
    let stored :=
      entity.mkBuildType id_ (entity.bt_ProjectID bt) (entity.bt_Name bt)
        (entity.bt_Description bt) (entity.bt_Parameters bt)
        (entity.bt_VcsRootEntries bt) in
    (Ok (entity.mkReference id_),
     with_buildTypes (<[id_ := stored]> (srv_buildTypes s)) s)).

Definition attach (id_ : string) (e : entity.VcsRootEntry)
  : Server → result unit * Server :=
  answering (fun s =>
    match srv_buildTypes s !! id_ with
    | None => not_found s
    | Some bt =>
        let filed :=
          entity.mkVcsRootEntry (entity.ref_ID (entity.VcsRoot e))
            (entity.VcsRoot e) (entity.CheckoutRules e) in
        let bt' :=
          entity.mkBuildType (entity.bt_ID bt) (entity.bt_ProjectID bt)
            (entity.bt_Name bt) (entity.bt_Description bt)
            (entity.bt_Parameters bt)
            (entity.bt_VcsRootEntries bt ++ [filed]) in
        (Ok tt, with_buildTypes (<[id_ := bt']> (srv_buildTypes s)) s)
    end).

Definition add_step (id_ : string) (st : api.Step)
  : Server → result api.Step * Server :=
  answering (fun s =>
    match srv_buildTypes s !! id_ with
    | None => not_found s
    | Some _ =>
        let old : list api.Step := default [] (srv_steps s !! id_) in
        (Ok st, with_steps (<[id_ := (old ++ [st])%list]> (srv_steps s)) s)
    end).

Definition get_buildType (id_ : string)
  : Server → result entity.BuildType * Server :=
  answering (fun s =>
    match srv_buildTypes s !! id_ with
    | None => not_found s
    | Some bt => (Ok bt, s)
    end).

Definition get_steps (id_ : string)
  : Server → result (list api.Step) * Server :=
  answering (fun s =>
    match srv_buildTypes s !! id_ with
    | None => not_found s
    | Some _ => (Ok (default [] (srv_steps s !! id_)), s)
    end).

Definition delete_buildType (id_ : string)
  : Server → result unit * Server :=
  answering (fun s =>
    match srv_buildTypes s !! id_ with
    | None => not_found s
    | Some _ =>
        (Ok tt,
         with_steps (delete id_ (srv_steps s))
           (with_buildTypes (delete id_ (srv_buildTypes s)) s))
    end).

Definition create_project (p : entity.Project)
  : Server → result entity.Reference * Server :=
  answering (fun s =>
    let id_ := entity.p_Name p in
    let stored :=
      entity.mkProject id_ (entity.p_Name p) (entity.p_Description p)
        (entity.p_ParentProjectID p) (entity.p_Parameters p) in
    (Ok (entity.mkReference id_),
     with_projects (<[id_ := stored]> (srv_projects s)) s)).

Definition get_project (id_ : string)
  : Server → result entity.Project * Server :=
  answering (fun s =>
    match srv_projects s !! id_ with
    | None => not_found s
    | Some p =>
        (Ok (entity.p_set_Parameters
               (params.Concat (params.mkParameters (srv_inherited s))
                  (entity.p_Parameters p)) p), s)
    end).

Definition update_project (p : entity.Project)
  : Server → result entity.Project * Server :=
  answering (fun s =>
    match srv_projects s !! entity.p_ID p with
    | None => not_found s
    | Some _ =>
        (Ok p, with_projects (<[entity.p_ID p := p]> (srv_projects s)) s)
    end).

Definition delete_project (id_ : string)
  : Server → result unit * Server :=
  answering (fun s =>
    match srv_projects s !! id_ with
    | None => not_found s
    | Some _ =>
        (Ok tt, with_projects (delete id_ (srv_projects s)) s)
    end).

Definition client : Client Server :=
  mkClient Server create_buildType attach add_step get_buildType
    get_steps delete_buildType create_project get_project update_project
    delete_project.

Definition empty_server (faults : list (option string)) : Server :=
  mkServer ∅ ∅ ∅ [] faults.

End memory.

(* ------------------------------------------------------------------ *)
(** ** Vocabulary of the statements and concrete inputs *)

(** A resource data as the front door hands it to Create: no ID yet, the
    configured fields only. *)
Definition fresh (fields : gmap string value) : ResourceData :=
  mkResourceData "" false false [] fields.

Definition start {R : Type} (d : ResourceData) (remote : R) : World R :=
  mkWorld d remote [].

Definition scenario_d : ResourceData :=
  fresh (<["name" := VString "Build"]>
        (<["project_id" := VString "Proj"]>
        (<["vcs_root" := VVcsRoots [mkVcsRootDecl "vcs1" ["+:src"; "-:doc"]]]>
        (<["step" := VSteps
             [<["type" := "cmd_line"]> (<["file" := "build.sh"]> ∅);
              <["type" := "powershell"]> (<["code" := "Write-Host hi"]> ∅)]]>
         ∅)))).

(** [l] enumerates the set that the fingerprint [F] makes of the
    members [declared]: its keys increase strictly, and it holds, for
    each key, the first declared member with that key and no other. *)
Definition enumerates {A : Type} (F : A → Z) (declared l : list A) : Prop :=
  StronglySorted sort.lt (schema.hash F <$> l) ∧
  ∀ x, x ∈ l ↔
       head (filter (fun y => schema.hash F y = schema.hash F x) declared)
       = Some x.




(** The part of [flattenParameters] that concerns one kind [t]: the map
    of that kind after one more member. *)
Definition kind_step (t : string) (acc : gmap string string)
  (p : params.Parameter_) : gmap string string :=
  if decide (params.Type_ p = t)
  then <[params.Name p := params.Value p]> acc else acc.

(** The (kind, name) pairs of a collection, in order. *)
Definition keys_of (items : list params.Parameter_)
  : list (string * string) :=
  map (fun p => (params.Type_ p, params.Name p)) items.

(** [m[k] = v] for each entry in turn. *)
Definition assign (m : gmap string string) (kv : string * string)
  : gmap string string :=
  <[kv.1 := kv.2]> m.

(** The declarative field after a flatten: written with the map when
    there is one to write, left as it was otherwise. *)
Definition written (o : option (gmap string string)) (old : option value)
  : option value :=
  match o with
  | Some m => Some (VMap m)
  | None => old
  end.

(** The calls the loops of Create make for one element. *)
Definition attach_call (buildTypeID : string) (raw : VcsRootDecl) : Call :=
  CallAttachVcsRootEntry buildTypeID (buildVcsRootEntry raw).

(** The resource data once the entity is created and before the first
    sub-resource call. *)
Definition created_d (buildTypeID : string) (d : ResourceData)
  : ResourceData :=
  Partial true (SetId buildTypeID (MarkNewResource d)).

(** A server on which the fourth call fails: for [scenario_d] that is
    the second of the two step additions. *)
Definition scenario_server : memory.Server :=
  memory.empty_server [None; None; None; Some "500 Internal Server Error"].

Definition scenario_step1 : api.Step :=
  api.CommandLineStep (api.mkStepCommandLine "" "build.sh" "" "").

Definition scenario_step2 : api.Step :=
  api.PowershellStep (api.mkStepPowershell "" "" "" "Write-Host hi").

(** A project to create, and a server whose parent project defines one
    environment parameter. *)
Definition project_d : ResourceData :=
  fresh (<["name" := VString "P"]> ∅).

Definition project_server : memory.Server :=
  memory.mkServer ∅ ∅ ∅
    [params.mkParameter params.EnvironmentVariable "PATH" "/bin"] [].

(** A build configuration that has lost its VCS roots, steps and
    environment parameters on the server, and the state that still
    records them. *)
Definition bare_buildType : entity.BuildType :=
  entity.mkBuildType "Proj_Build" "Proj" "Build" ""
    (params.mkParameters [params.mkParameter params.Configuration "a" "1"])
    [].

Definition bare_server : memory.Server :=
  memory.mkServer (<["Proj_Build" := bare_buildType]> ∅) ∅ ∅ [] [].

Definition recorded_d : ResourceData :=
  mkResourceData "Proj_Build" false false []
    (<["vcs_root" := VVcsRoots [mkVcsRootDecl "vcs1" ["+:src"]]]>
    (<["step" := VSteps [<["type" := "cmd_line"]> (<["file" := "build.sh"]> ∅)]]>
    (<["env_params" := VMap (<["PATH" := "/bin"]> ∅)]> ∅))).

(** ** The schema of a step, and more vocabulary *)

Module validation.

(** Modelled from the spec: [validation.StringInSlice(valid, false)] of the
    SDK (not in this repository): a value passes when it is one of
    [valid], compared exactly. *)
Definition StringInSlice (valid : list string) (v : string) : bool :=
  bool_decide (v ∈ valid).

End validation.

(** The [ValidateFunc] of the [type] key of a step. *)
Definition step_type_ValidateFunc (v : string) : bool :=
  validation.StringInSlice ["powershell"; "cmd_line"] v.

(** A step record in the shape the flatten writes: a supported type, no
    key outside the schema, no key with an empty value, [code] only
    without [file], [args] only with [file]. *)
Definition canonical_step (m : gmap string string) : Prop :=
  (m !! "type" = Some "powershell" ∨ m !! "type" = Some "cmd_line") ∧
  (∀ k, k ∉ step_keys → m !! k = None) ∧
  m !! "name" ≠ Some "" ∧ m !! "file" ≠ Some "" ∧
  m !! "args" ≠ Some "" ∧ m !! "code" ≠ Some "" ∧
  (is_Some (m !! "file") → m !! "code" = None) ∧
  (is_Some (m !! "args") → is_Some (m !! "file")).

(** Expand a declarative step, then flatten what was built. *)
Definition expand_then_flatten (m : gmap string string)
  : result (gmap string string) :=
  result_bind (expandBuildStep m) flattenBuildStep.

(** A remote step that is in one content mode at most: not both a file
    path and inline content. *)
Definition single_mode (s : api.Step) : Prop :=
  match s with
  | api.PowershellStep p => ¬ (api.ScriptFile p ≠ "" ∧ api.Code p ≠ "")
  | api.CommandLineStep c =>
      ¬ (api.CommandExecutable c ≠ "" ∧ api.CustomScript c ≠ "")
  | api.OtherStep _ _ => True
  end.

(** The map of one kind among the three [flattenParameters] returns; a
    kind that is none of the three has no map. *)
Definition map_of_kind (t : string)
  (r : gmap string string * gmap string string * gmap string string)
  : gmap string string :=
  let '(config, sys, env) := r in
  if decide (t = params.Configuration) then config
  else if decide (t = params.System) then sys
  else if decide (t = params.EnvironmentVariable) then env
  else ∅.

(** The three kinds a parameter can have for this provider. *)
Definition known_kind (t : string) : Prop :=
  t = params.Configuration ∨ t = params.System ∨
  t = params.EnvironmentVariable.

(** The declarative map of one kind: what [GetOk] yields under the key
    of that kind, nothing for another kind. *)
Definition declared_map (d : ResourceData) (t : string)
  : gmap string string :=
  if decide (t = params.EnvironmentVariable)
  then default ∅ (GetOk_map d "env_params")
  else if decide (t = params.System)
  then default ∅ (GetOk_map d "sys_params")
  else if decide (t = params.Configuration)
  then default ∅ (GetOk_map d "config_params")
  else ∅.

(** The resource data after the part of Read that uses the entity
    alone, and after the part that uses the steps. *)
Definition refreshed_entity (dt : entity.BuildType) (d : ResourceData)
  : ResourceData :=
  let d := Set_ "name" (VString (entity.bt_Name dt)) d in
  let d := Set_ "description" (VString (entity.bt_Description dt)) d in
  let d := Set_ "project_id" (VString (entity.bt_ProjectID dt)) d in
  let d := flattenParameterCollection d (entity.bt_Parameters dt) in
  if decide (0 < length (entity.bt_VcsRootEntries dt))
  then Set_ "vcs_root"
         (VVcsRoots
            (vcs_root_set
               (map flattenVcsRootEntry (entity.bt_VcsRootEntries dt))))
         d
  else d.

Definition refreshed_steps (steps : list api.Step)
  (recs : list (gmap string string)) (d : ResourceData) : ResourceData :=
  if decide (0 < length steps)
  then Set_ "step" (VSteps (step_set recs)) d else d.

(** The keys Read may write. *)
Definition read_keys : list string :=
  ["name"; "description"; "project_id"; "env_params"; "sys_params";
   "config_params"; "vcs_root"; "step"].

(** The value Read leaves under key [k], from the entity, the steps and
    the value [old] that was there before. *)
Definition read_value (dt : entity.BuildType) (steps : list api.Step)
  (recs : list (gmap string string)) (k : string) (old : option value)
  : option value :=
  let maps := flattenParameters (entity.bt_Parameters dt) in
  let kept (t : string) :=
    if decide (0 < size (map_of_kind t maps))
    then Some (VMap (map_of_kind t maps)) else old in
  if decide (k = "name") then Some (VString (entity.bt_Name dt))
  else if decide (k = "description")
  then Some (VString (entity.bt_Description dt))
  else if decide (k = "project_id")
  then Some (VString (entity.bt_ProjectID dt))
  else if decide (k = "env_params") then kept params.EnvironmentVariable
  else if decide (k = "sys_params") then kept params.System
  else if decide (k = "config_params") then kept params.Configuration
  else if decide (k = "vcs_root") then
    (if decide (0 < length (entity.bt_VcsRootEntries dt))
     then Some (VVcsRoots
                  (vcs_root_set
                     (map flattenVcsRootEntry
                        (entity.bt_VcsRootEntries dt))))
     else old)
  else if decide (k = "step") then
    (if decide (0 < length steps) then Some (VSteps (step_set recs))
     else old)
  else old.

(** The world after a Create of [scenario_d] on which every call
    succeeded, and the same with a runner on the server that this
    provider does not know. *)
Definition built_world : World memory.Server :=
  (resourceBuildConfigurationCreate map_to_list memory.Server memory.client
     (start scenario_d (memory.empty_server []))).2.

Definition foreign_step : api.Step := api.OtherStep "gradle-runner" "compile".

Definition foreign_world : World memory.Server :=
  mkWorld (w_d built_world)
    (memory.with_steps
       (<["Proj_Build" := [scenario_step1; foreign_step; scenario_step2]]>
          (memory.srv_steps (w_remote built_world)))
       (w_remote built_world))
    [].

(** A configuration whose second step has a type outside the schema. *)
Definition unsupported_d : ResourceData :=
  fresh (<["name" := VString "Build"]>
        (<["project_id" := VString "Proj"]>
        (<["step" := VSteps
             [<["type" := "cmd_line"]> (<["file" := "build.sh"]> ∅);
              <["type" := "gradle"]> (<["file" := "build.gradle"]> ∅);
              <["type" := "powershell"]> (<["code" := "Write-Host hi"]> ∅)]]>
         ∅))).

Section ProjectImport.

Variable R : Type.
Variable client : Client R.

(** [resourceProjectImport]: Read, then the resource data as the only
    element of the result; the error of Read otherwise. *)
Definition resourceProjectImport : M R (list ResourceData) :=
  bind (resourceProjectRead R client) (fun _ =>
  bind get_d (fun d => ret [d])).

End ProjectImport.

(** The project Update sends: the fetched one with the description of the
    resource data when it has one, and the parameters replaced. *)
Definition projectToUpdate (d : ResourceData) (dt : entity.Project)
  (ps : params.Parameters_) : entity.Project :=
  entity.p_set_Parameters ps
    (match GetOk_string d "description" with
     | Some v => entity.p_set_Description v dt
     | None => dt
     end).

(** A server that holds the project "P" with a description and one
    parameter, and the resource data of that project without either. *)
Definition described_project : entity.Project :=
  entity.mkProject "P" "P" "about P" ""
    (params.mkParameters
       [params.mkParameter params.Configuration "branch" "main"]).

Definition described_server : memory.Server :=
  memory.mkServer ∅ ∅ (<["P" := described_project]> ∅) [] [].

Definition undescribed_d : ResourceData :=
  mkResourceData "P" false false [] (<["name" := VString "P"]> ∅).

(** The keys Read of a project may write. *)
Definition project_read_keys : list string :=
  ["name"; "description"; "env_params"; "sys_params"; "config_params"].

(** The project the create call of a project sends: the name alone. *)
Definition projectToCreate (d : ResourceData) : entity.Project :=
  entity.mkProject "" (default "" (GetOk_string d "name")) "" ""
    params.NewParametersEmpty.

(** ** Proof automation *)

Ltac step_lookup :=
  repeat case_decide; simplify_map_eq; try done; try tauto.

Ltac run_read :=
  unfold resourceBuildConfigurationRead, getBuildConfiguration, bind,
    get_d, call, modify_d, ret, lift;
  cbn [w_d w_remote w_calls fst snd].

(** Case analysis on the first [decide] of the goal. *)
Ltac goal_decide H :=
  match goal with
  | |- context [decide ?P] => destruct (decide P) as [H|H]
  end.

(** Decide the comparisons of keys in the goal: the branch that
    contradicts what is known is closed. *)
Ltac key_decide :=
  repeat match goal with
         | |- context [decide (?a = ?b)] =>
             destruct (decide (a = b));
             [try discriminate; try congruence
             |try discriminate; try congruence]
         end.

(** Case analysis on the branches of an operation that has been unfolded:
    the answers of the client, the guards, the mapped loop. *)
Ltac branch :=
  repeat (cbn [w_d w_remote w_calls fst snd Set_ rd_fields];
          match goal with
          | H : ?x = _ |- context [?x] => rewrite H
          | |- context [decide ?P] => destruct (decide P)
          | |- context [BuildTypes_GetSteps ?c ?i ?r] =>
              destruct (BuildTypes_GetSteps c i r) as [[?|?|] ?]
          | |- context [map_each ?f ?l] => destruct (map_each f l)
          end);
  cbn [w_d w_remote w_calls fst snd Set_ rd_fields].

(* ================================================================== *)
(** * Properties *)

(** ** Step variant codec *)

Lemma flattenBuildStepPowershell_lookup (s : api.StepPowershell) :
  let m := flattenBuildStepPowershell s in
  m !! "type" = Some "powershell" ∧
  m !! "file" =
    (if decide (api.ScriptFile s ≠ "") then Some (api.ScriptFile s)
     else None) ∧
  m !! "args" =
    (if decide (api.ScriptFile s ≠ "" ∧ api.ScriptArgs s ≠ "")
     then Some (api.ScriptArgs s) else None) ∧
  m !! "code" =
    (if decide (api.Code s ≠ "") then Some (api.Code s) else None) ∧
  m !! "name" =
    (if decide (api.ps_Name s ≠ "") then Some (api.ps_Name s) else None).
Proof.
  unfold flattenBuildStepPowershell; cbv zeta.
  repeat split; step_lookup.
Qed.

Lemma flattenBuildStepCmdLine_lookup (s : api.StepCommandLine) :
  let m := flattenBuildStepCmdLine s in
  m !! "type" = Some "cmd_line" ∧
  m !! "file" =
    (if decide (api.CommandExecutable s ≠ "")
     then Some (api.CommandExecutable s) else None) ∧
  m !! "args" =
    (if decide (api.CommandExecutable s ≠ "" ∧ api.CommandParameters s ≠ "")
     then Some (api.CommandParameters s) else None) ∧
  m !! "code" =
    (if decide (api.CustomScript s ≠ "")
     then Some (api.CustomScript s) else None) ∧
  m !! "name" =
    (if decide (api.cl_Name s ≠ "") then Some (api.cl_Name s) else None).
Proof.
  unfold flattenBuildStepCmdLine; cbv zeta.
  repeat split; step_lookup.
Qed.

(** C1, as stated, fails: a remote step whose file path and inline content
    are both non-empty flattens to a record that has [file] and [code]
    alike, for the powershell variant as for the cmd_line variant. *)
Lemma flatten_file_and_code_counterexample :
  let ps := api.mkStepPowershell "" "run.ps1" "" "Write-Host hi" in
  let cl := api.mkStepCommandLine "" "run.sh" "" "echo hi" in
  (flattenBuildStepPowershell ps !! "file" = Some "run.ps1" ∧
   flattenBuildStepPowershell ps !! "code" = Some "Write-Host hi") ∧
  (flattenBuildStepCmdLine cl !! "file" = Some "run.sh" ∧
   flattenBuildStepCmdLine cl !! "code" = Some "echo hi").
Proof. vm_compute. auto. Qed.

(** C1, amended: flatten sets [file] exactly when the file path is
    non-empty ([args] exactly when file path and arguments both are), and
    sets [code] exactly when the inline content is non-empty, whatever the
    file path; so the record has both [file] and [code] exactly when both
    remote fields are non-empty, and never when at most one of them is.
    Both variants behave the same. *)
Theorem flatten_file_code_independent :
  (∀ s : api.StepPowershell,
     let m := flattenBuildStepPowershell s in
     (is_Some (m !! "file") ↔ api.ScriptFile s ≠ "") ∧
     (is_Some (m !! "args") ↔
        api.ScriptFile s ≠ "" ∧ api.ScriptArgs s ≠ "") ∧
     (is_Some (m !! "code") ↔ api.Code s ≠ "") ∧
     (is_Some (m !! "file") ∧ is_Some (m !! "code") ↔
        api.ScriptFile s ≠ "" ∧ api.Code s ≠ "")) ∧
  (∀ s : api.StepCommandLine,
     let m := flattenBuildStepCmdLine s in
     (is_Some (m !! "file") ↔ api.CommandExecutable s ≠ "") ∧
     (is_Some (m !! "args") ↔
        api.CommandExecutable s ≠ "" ∧ api.CommandParameters s ≠ "") ∧
     (is_Some (m !! "code") ↔ api.CustomScript s ≠ "") ∧
     (is_Some (m !! "file") ∧ is_Some (m !! "code") ↔
        api.CommandExecutable s ≠ "" ∧ api.CustomScript s ≠ "")).
Proof.
  split; intros s m.
  - destruct (flattenBuildStepPowershell_lookup s)
      as (_ & Hf & Ha & Hc & _).
    fold m in Hf, Ha, Hc. rewrite Hf, Ha, Hc.
    repeat case_decide; rewrite <- ?not_eq_None_Some; intuition congruence.
  - destruct (flattenBuildStepCmdLine_lookup s)
      as (_ & Hf & Ha & Hc & _).
    fold m in Hf, Ha, Hc. rewrite Hf, Ha, Hc.
    repeat case_decide; rewrite <- ?not_eq_None_Some; intuition congruence.
Qed.

(** C6: an engine tag other than powershell and cmd_line makes the expand
    fail with an error that quotes the tag, and no step is built; a remote
    step whose kind identifier is not a key of [stepTypeMap] makes the
    flatten fail with an error that quotes the kind, and no record is
    built. *)
Theorem unsupported_step_type_is_an_error :
  (∀ (localStep : gmap string string) (t : string),
     localStep !! "type" = Some t →
     t ≠ "powershell" → t ≠ "cmd_line" →
     expandBuildStep localStep
       = Err ("Unsupported step type '" +:+ t +:+ "'")) ∧
  (∀ s : api.Step,
     stepTypeMap !! api.Type_ s = None →
     flattenBuildStep s
       = Err ("Build step type '" +:+ api.Type_ s +:+ "' not supported")).
Proof.
  split.
  - intros localStep t Ht Hp Hc. unfold expandBuildStep. rewrite Ht.
    repeat case_decide; try contradiction. reflexivity.
  - intros s Hs. unfold flattenBuildStep. rewrite Hs. simpl.
    repeat case_decide; try discriminate. reflexivity.
Qed.

Lemma unsupported_step_type_witness :
  expandBuildStep (<["type" := "unsupported_engine"]> ∅)
    = Err "Unsupported step type 'unsupported_engine'" ∧
  flattenBuildStep (api.OtherStep "gradle-runner" "compile")
    = Err "Build step type 'gradle-runner' not supported".
Proof.
  split.
  - apply (proj1 unsupported_step_type_is_an_error
             (<["type" := "unsupported_engine"]> ∅) "unsupported_engine");
      [reflexivity | discriminate | discriminate].
  - apply (proj2 unsupported_step_type_is_an_error
             (api.OtherStep "gradle-runner" "compile")).
    vm_compute. reflexivity.
Defined.

(** ** The sets of the schema *)

Lemma le_total : Total sort.le.
Proof. intros a b. apply String.leb_total. Qed.

Lemma le_antisym (a b : string) : sort.le a b → sort.le b a → a = b.
Proof. apply String.leb_antisym. Qed.

Lemma compare_refl (a : string) : (a ?= a)%string = Eq.
Proof. now apply OrderedTypeEx.String_as_OT.cmp_eq. Qed.

Lemma le_trans : Transitive sort.le.
Proof.
  intros a b c. unfold sort.le, String.leb.
  destruct (a ?= b)%string eqn:Hab; try discriminate;
  destruct (b ?= c)%string eqn:Hbc; try discriminate; intros _ _.
  - apply OrderedTypeEx.String_as_OT.cmp_eq in Hab, Hbc. subst.
    now rewrite compare_refl.
  - apply OrderedTypeEx.String_as_OT.cmp_eq in Hab. subst. now rewrite Hbc.
  - apply OrderedTypeEx.String_as_OT.cmp_eq in Hbc. subst. now rewrite Hab.
  - apply OrderedTypeEx.String_as_OT.cmp_lt in Hab, Hbc.
    pose proof (OrderedTypeEx.String_as_OT.lt_trans _ _ _ Hab Hbc) as H.
    apply OrderedTypeEx.String_as_OT.cmp_lt in H.
    unfold OrderedTypeEx.String_as_OT.cmp in H. now rewrite H.
Qed.

Section SetFacts.
Context {A : Type} (F : A → Z).

Lemma fold_add_lookup (items : list A) (m : gmap string A) (k : string) :
  fold_left (schema.add F) items m !! k
  = match m !! k with
    | Some y => Some y
    | None => head (filter (fun x => schema.hash F x = k) items)
    end.
Proof.
  revert m. induction items as [|x items IH]; intros m.
  - simpl. now destruct (m !! k).
  - cbn [fold_left]. rewrite IH. unfold schema.add at 1.
    rewrite filter_cons.
    destruct (m !! schema.hash F x) as [y|] eqn:Hx.
    + destruct (m !! k) as [z|] eqn:Hk; [reflexivity|].
      case_decide as Hd; [congruence | reflexivity].
    + destruct (decide (schema.hash F x = k)) as [<- | Hne].
      * rewrite lookup_insert_eq, Hx. reflexivity.
      * rewrite lookup_insert_ne by assumption. reflexivity.
Qed.

Lemma NewSet_lookup (items : list A) (k : string) :
  schema.NewSet F items !! k
  = head (filter (fun x => schema.hash F x = k) items).
Proof. unfold schema.NewSet. now rewrite fold_add_lookup, lookup_empty. Qed.

Lemma NewSet_keyed (items : list A) (k : string) (x : A) :
  schema.NewSet F items !! k = Some x → schema.hash F x = k.
Proof.
  rewrite NewSet_lookup. intros H.
  apply head_Some_elem_of in H.
  apply list_elem_of_filter in H. tauto.
Qed.

Lemma listCode_elem (m : gmap string A) (k : string) :
  k ∈ schema.listCode m ↔ is_Some (m !! k).
Proof.
  unfold schema.listCode, sort.Strings.
  rewrite merge_sort_Permutation.
  rewrite list_elem_of_fmap. split.
  - intros ([k' x] & -> & H). apply elem_of_map_to_list in H. eauto.
  - intros [x H]. exists (k, x). split; [reflexivity|].
    now apply elem_of_map_to_list.
Qed.

Lemma listCode_sorted (m : gmap string A) :
  StronglySorted sort.lt (schema.listCode m).
Proof.
  unfold schema.listCode, sort.Strings.
  assert (Hnd : NoDup (merge_sort sort.le (map_to_list m).*1)).
  { rewrite merge_sort_Permutation. apply NoDup_fst_map_to_list. }
  pose proof (StronglySorted_merge_sort sort.le (Transitive0 := le_trans)
                (Total0 := le_total) (map_to_list m).*1) as Hs.
  revert Hnd Hs. generalize (merge_sort sort.le (map_to_list m).*1).
  induction l as [|a l IH]; intros Hnd Hs; [constructor|].
  inversion Hnd; subst. inversion Hs; subst.
  constructor; [now apply IH|].
  rewrite Forall_forall in *. intros b Hb. split; [now auto|].
  intros ->. contradiction.
Qed.

Lemma List_keys (m : gmap string A) :
  (∀ k x, m !! k = Some x → schema.hash F x = k) →
  schema.hash F <$> schema.List m = schema.listCode m.
Proof.
  intros Hkey. unfold schema.List.
  assert (Hall : ∀ k, k ∈ schema.listCode m → is_Some (m !! k))
    by (intros k; apply listCode_elem).
  revert Hall. generalize (schema.listCode m).
  induction l as [|k l IH]; intros Hall; [reflexivity|].
  destruct (Hall k) as [x Hx]; [left|].
  cbn [omap list_omap]. rewrite Hx. cbn [fmap list_fmap].
  rewrite (Hkey _ _ Hx). f_equal. apply IH.
  intros k' Hk'. apply Hall. now right.
Qed.

Lemma List_elem (m : gmap string A) (x : A) :
  x ∈ schema.List m ↔ ∃ k, m !! k = Some x.
Proof.
  unfold schema.List. rewrite list_elem_of_omap. split.
  - intros (k & _ & H). eauto.
  - intros (k & H). exists k. split; [|exact H].
    apply listCode_elem. eauto.
Qed.

Lemma NewSet_enumerates (declared : list A) :
  enumerates F declared (schema.List (schema.NewSet F declared)).
Proof.
  split.
  - rewrite List_keys by apply NewSet_keyed. apply listCode_sorted.
  - intros x. rewrite List_elem. split.
    + intros (k & H). pose proof (NewSet_keyed _ _ _ H) as <-.
      now rewrite <- NewSet_lookup.
    + intros H. exists (schema.hash F x). now rewrite NewSet_lookup.
Qed.

Lemma NewSet_nonempty (declared : list A) :
  declared ≠ [] → schema.List (schema.NewSet F declared) ≠ [].
Proof.
  destruct declared as [|x l]; [contradiction|]. intros _ Hnil.
  destruct (NewSet_enumerates (x :: l)) as [_ Hmem].
  assert (Hx : x ∈ schema.List (schema.NewSet F (x :: l))).
  { apply Hmem. rewrite filter_cons, decide_True by reflexivity.
    reflexivity. }
  rewrite Hnil in Hx. now apply elem_of_nil in Hx.
Qed.

Lemma head_filter_omap (m : gmap string A) (k : string) (ks : list string) :
  (∀ k' x, m !! k' = Some x → schema.hash F x = k') →
  NoDup ks →
  head (filter (fun x => schema.hash F x = k) (omap (fun k' => m !! k') ks))
  = if decide (k ∈ ks) then m !! k else None.
Proof.
  intros Hkey. induction ks as [|k0 ks IH]; intros Hnd.
  - reflexivity.
  - inversion Hnd as [|? ? Hnot Hnd']; subst.
    cbn [omap list_omap]. destruct (m !! k0) as [x|] eqn:Hk0.
    + rewrite filter_cons. rewrite (Hkey _ _ Hk0).
      destruct (decide (k0 = k)) as [-> | Hne].
      * rewrite decide_True by left. now rewrite Hk0.
      * rewrite (IH Hnd'). destruct (decide (k ∈ ks)) as [Hin|Hin].
        -- now rewrite decide_True by now right.
        -- rewrite decide_False; [reflexivity|].
           intros [-> | ?]%elem_of_cons; contradiction.
    + rewrite (IH Hnd'). destruct (decide (k ∈ ks)) as [Hin|Hin].
      * now rewrite decide_True by now right.
      * destruct (decide (k ∈ k0 :: ks)) as [[-> | ?]%elem_of_cons|];
          [now rewrite Hk0 | contradiction | reflexivity].
Qed.

Lemma listCode_NoDup (m : gmap string A) : NoDup (schema.listCode m).
Proof.
  unfold schema.listCode, sort.Strings. rewrite merge_sort_Permutation.
  apply NoDup_fst_map_to_list.
Qed.

Lemma NewSet_List (m : gmap string A) :
  (∀ k x, m !! k = Some x → schema.hash F x = k) →
  schema.NewSet F (schema.List m) = m.
Proof.
  intros Hkey. apply map_eq. intros k. rewrite NewSet_lookup.
  unfold schema.List.
  rewrite (head_filter_omap m k _ Hkey (listCode_NoDup m)).
  case_decide as Hin; [reflexivity|].
  destruct (m !! k) as [x|] eqn:Hk; [|reflexivity].
  exfalso. apply Hin. apply listCode_elem. eauto.
Qed.

(** Building the set of an enumeration gives that enumeration back. *)
Lemma List_NewSet_idempotent (declared : list A) :
  schema.List (schema.NewSet F (schema.List (schema.NewSet F declared)))
  = schema.List (schema.NewSet F declared).
Proof. now rewrite NewSet_List by apply NewSet_keyed. Qed.

End SetFacts.

Lemma step_record_lookup (m : gmap string string) (k : string) :
  step_record m !! k
  = if decide (k ∈ step_keys) then Some (default "" (m !! k)) else None.
Proof.
  unfold step_record, step_keys.
  cbn [fmap list_fmap list_to_map foldr fst snd].
  case_decide as Hk.
  - repeat (apply elem_of_cons in Hk as [-> | Hk];
            [now simplify_map_eq|]).
    now apply elem_of_nil in Hk.
  - rewrite !lookup_insert_ne, lookup_empty; [reflexivity|..];
      intros <-; apply Hk; repeat constructor.
Qed.

Lemma step_record_idempotent (m : gmap string string) :
  step_record (step_record m) = step_record m.
Proof.
  apply map_eq. intros k. rewrite !step_record_lookup.
  destruct (decide (k ∈ step_keys)); reflexivity.
Qed.

Lemma step_set_records (l : list (gmap string string))
  (x : gmap string string) :
  x ∈ step_set l → step_record x = x.
Proof.
  intros Hx. apply NewSet_enumerates in Hx.
  apply head_Some_elem_of, list_elem_of_filter in Hx as [_ Hx].
  apply list_elem_of_fmap in Hx as (y & -> & _).
  apply step_record_idempotent.
Qed.

(** What [Set] stores for a set field is what a reader gets back. *)
Lemma step_set_idempotent (l : list (gmap string string)) :
  step_set (step_set l) = step_set l.
Proof.
  unfold step_set at 1.
  assert (Hrec : step_record <$> step_set l = step_set l).
  { pose proof (step_set_records l) as H.
    induction (step_set l) as [|x xs IH]; [reflexivity|].
    cbn [fmap list_fmap]. rewrite (H x) by left.
    f_equal. apply IH. intros y Hy. apply H. now right. }
  rewrite Hrec. apply List_NewSet_idempotent.
Qed.

Lemma vcs_root_set_idempotent (l : list VcsRootDecl) :
  vcs_root_set (vcs_root_set l) = vcs_root_set l.
Proof. apply List_NewSet_idempotent. Qed.

Lemma step_set_nonempty (l : list (gmap string string)) :
  l ≠ [] → step_set l ≠ [].
Proof.
  intros Hl. apply NewSet_nonempty. now destruct l.
Qed.

Lemma GetOk_step_set (d : ResourceData) (l : list (gmap string string)) :
  rd_fields d !! "step" = Some (VSteps l) →
  default [] (GetOk_step d "step") = step_set l.
Proof.
  intros H. unfold GetOk_step. rewrite H. cbv zeta.
  case_decide as Hl; [|reflexivity].
  now destruct (step_set l).
Qed.

Lemma GetOk_vcs_root_set (d : ResourceData) (l : list VcsRootDecl) :
  rd_fields d !! "vcs_root" = Some (VVcsRoots l) →
  default [] (GetOk_vcs_root d "vcs_root") = vcs_root_set l.
Proof.
  intros H. unfold GetOk_vcs_root. rewrite H. cbv zeta.
  case_decide as Hl; [|reflexivity].
  now destruct (vcs_root_set l).
Qed.

(** ** Collection identity hasher *)

(** C5: the fingerprint of a VCS-root attachment is a function of the root
    ID alone: two attachments with the same root ID have the same
    fingerprint whatever their checkout rules. *)
Theorem vcsRootHash_ignores_checkout_rules (a b : VcsRootDecl) :
  root_id a = root_id b →
  vcsRootHash a = vcsRootHash b ∧
  vcsRootHash a = schema.HashString (root_id a).
Proof.
  intros Hid. unfold vcsRootHash. rewrite Hid. split; reflexivity.
Qed.

(** The instance of the claim: {id:"vcs1", rules:["a"]} and
    {id:"vcs1", rules:["b"]}. *)
Lemma vcsRootHash_witness :
  vcsRootHash (mkVcsRootDecl "vcs1" ["a"])
    = vcsRootHash (mkVcsRootDecl "vcs1" ["b"]) ∧
  vcsRootHash (mkVcsRootDecl "vcs1" ["a"]) = schema.HashString "vcs1".
Proof.
  apply (vcsRootHash_ignores_checkout_rules
           (mkVcsRootDecl "vcs1" ["a"]) (mkVcsRootDecl "vcs1" ["b"])).
  reflexivity.
Defined.

Lemma append_cons (x : ascii) (a b : string) :
  String x a +:+ b = String x (a +:+ b).
Proof. reflexivity. Qed.

Lemma append_nil_l (b : string) : "" +:+ b = b.
Proof. reflexivity. Qed.

Lemma append_assoc (a b c : string) : (a +:+ b) +:+ c = a +:+ (b +:+ c).
Proof.
  induction a as [|x a IH]; [reflexivity|].
  rewrite !append_cons. f_equal. exact IH.
Qed.

Lemma append_empty_r (a : string) : a +:+ "" = a.
Proof.
  induction a as [|x a IH]; [reflexivity|].
  rewrite append_cons. f_equal. exact IH.
Qed.












(** ** Update of a build configuration *)

(** C7: Update of a Build Configuration does nothing: from every state it
    returns success, makes no call to the client, and leaves the resource
    data and the remote system as they were. *)
Theorem resourceBuildConfigurationUpdate_noop :
  ∀ (R : Type) (w : World R),
    resourceBuildConfigurationUpdate R w = (Ok tt, w) ∧
    w_calls (snd (resourceBuildConfigurationUpdate R w)) = w_calls w ∧
    w_d (snd (resourceBuildConfigurationUpdate R w)) = w_d w ∧
    w_remote (snd (resourceBuildConfigurationUpdate R w)) = w_remote w.
Proof. intros R w. repeat split. Qed.

(** ** Checkout rules: join on attach, split on read *)

Lemma prefix_nil (s : string) : String.prefix "" s = true.
Proof. destruct s; reflexivity. Qed.

Lemma Contains_cons (c : ascii) (a sub : string) :
  strings.Contains (String c a) sub = false →
  String.prefix sub (String c a) = false ∧ strings.Contains a sub = false.
Proof.
  simpl. intros H. apply orb_false_elim in H. exact H.
Qed.

(** No occurrence of the separator starts inside a piece that is free of
    it, even when the separator itself follows the piece. *)
Lemma prefix_sep_piece (c : ascii) (a rest : string) :
  String.prefix "\n" (String c a) = false →
  String.prefix "\n" (String c (a +:+ "\n" +:+ rest)) = false.
Proof.
  intros H. cbn [String.prefix] in *.
  destruct (ascii_dec "\" c) as [_|]; [|reflexivity].
  destruct a as [|c2 a].
  - reflexivity.
  - rewrite append_cons. cbn [String.prefix] in *.
    destruct (ascii_dec "n" c2) as [_|]; [|reflexivity].
    rewrite prefix_nil in H. discriminate.
Qed.

Lemma prefix_sep_here (rest : string) :
  String.prefix "\n" (String "\" (String "n" rest)) = true.
Proof.
  cbn [String.prefix].
  destruct (ascii_dec "\" "\"); [|congruence].
  destruct (ascii_dec "n" "n"); [|congruence].
  apply prefix_nil.
Qed.

Lemma split_from_last (a cur : string) :
  strings.Contains a "\n" = false →
  strings.split_from "\n" 0 cur a = [cur +:+ a].
Proof.
  revert cur. induction a as [|c a IH]; intros cur H.
  - simpl. now rewrite append_empty_r.
  - apply Contains_cons in H as [Hp Hc].
    cbn [strings.split_from]. rewrite Hp, (IH _ Hc), append_assoc.
    reflexivity.
Qed.

Lemma split_from_piece (a cur rest : string) :
  strings.Contains a "\n" = false →
  strings.split_from "\n" 0 cur (a +:+ "\n" +:+ rest)
    = (cur +:+ a) :: strings.split_from "\n" 0 "" rest.
Proof.
  revert cur. induction a as [|c a IH]; intros cur H.
  - rewrite append_nil_l, append_empty_r, !append_cons, append_nil_l.
    cbn [strings.split_from]. rewrite prefix_sep_here. reflexivity.
  - apply Contains_cons in H as [Hp Hc].
    rewrite append_cons. cbn [strings.split_from].
    rewrite (prefix_sep_piece _ _ _ Hp), (IH _ Hc), append_assoc.
    reflexivity.
Qed.

Lemma Split_Join (a : string) (l : list string) :
  Forall (fun r => strings.Contains r "\n" = false) (a :: l) →
  strings.Split (strings.Join (a :: l) "\n") "\n" = a :: l.
Proof.
  unfold strings.Split. revert a.
  induction l as [|b l IH]; intros a H.
  - inversion H; subst. simpl. now rewrite split_from_last.
  - inversion H; subst.
    change (strings.Join (a :: b :: l) "\n")
      with (a +:+ "\n" +:+ strings.Join (b :: l) "\n").
    rewrite split_from_piece by assumption.
    rewrite IH by assumption. reflexivity.
Qed.

(** C8, as stated, fails.  For the empty list the attached string is empty
    and the split on Read gives the one-element list [[""]]; and a rule
    that contains the separator comes back as two rules.  The separator is
    the two characters backslash and n, not a line feed. *)
Lemma checkout_rules_roundtrip_counterexample :
  checkout_rules
    (flattenVcsRootEntry (buildVcsRootEntry (mkVcsRootDecl "vcs1" [])))
    = [""] ∧
  checkout_rules
    (flattenVcsRootEntry
       (buildVcsRootEntry (mkVcsRootDecl "vcs1" ["+:a\n+:b"])))
    = ["+:a"; "+:b"] ∧
  String.length "\n" = 2.
Proof. vm_compute. auto. Qed.

(** C8, amended: for every list of checkout rules that is not empty and
    none of whose rules contains the separator (backslash followed by n),
    attaching serializes the list as a single string, the rules joined by
    that separator, and the split performed on Read gives back the
    original list: every entry that carries the attached string is read
    with the original rules, and, when the server has filed it under the
    ID of the root, as the original element. *)
Theorem checkout_rules_roundtrip (raw : VcsRootDecl) :
  checkout_rules raw ≠ [] →
  Forall (fun r => strings.Contains r "\n" = false) (checkout_rules raw) →
  entity.CheckoutRules (buildVcsRootEntry raw)
    = strings.Join (checkout_rules raw) "\n" ∧
  strings.Split (entity.CheckoutRules (buildVcsRootEntry raw)) "\n"
    = checkout_rules raw ∧
  (∀ el : entity.VcsRootEntry,
     entity.CheckoutRules el = entity.CheckoutRules (buildVcsRootEntry raw) →
     checkout_rules (flattenVcsRootEntry el) = checkout_rules raw ∧
     (entity.ID el = root_id raw → flattenVcsRootEntry el = raw)).
Proof.
  destruct raw as [i rules]. simpl. intros Hne Hfree.
  destruct rules as [|a l]; [contradiction|].
  unfold buildVcsRootEntry, flattenVcsRootEntry.
  cbn [checkout_rules root_id]. case_decide; [|simpl in *; lia].
  cbn [entity.NewVcsRootEntryWithRules entity.CheckoutRules entity.ID
       entity.ref_ID].
  rewrite Split_Join by assumption.
  split; [reflexivity|]. split; [reflexivity|].
  intros el ->. rewrite Split_Join by assumption.
  split; [reflexivity|]. now intros ->.
Qed.

Lemma checkout_rules_roundtrip_witness :
  strings.Split
    (entity.CheckoutRules
       (buildVcsRootEntry (mkVcsRootDecl "vcs1" ["+:src => ."; "-:doc"])))
    "\n"
  = ["+:src => ."; "-:doc"].
Proof.
  refine (proj1 (proj2 (checkout_rules_roundtrip
           (mkVcsRootDecl "vcs1" ["+:src => ."; "-:doc"]) _ _))).
  - discriminate.
  - repeat constructor.
Defined.

(** ** Parameter codec *)

Lemma flattenParameters_fold (items : list params.Parameter_)
  (c s e : gmap string string) :
  fold_left flattenParameters_step items (c, s, e)
    = (fold_left (kind_step params.Configuration) items c,
       fold_left (kind_step params.System) items s,
       fold_left (kind_step params.EnvironmentVariable) items e).
Proof.
  revert c s e. induction items as [|p items IH]; intros c s e.
  - reflexivity.
  - cbn [fold_left]. unfold flattenParameters_step at 2, kind_step at 2 4 6.
    repeat case_decide; try rewrite IH; try reflexivity;
      match goal with
      | H1 : params.Type_ p = _, H2 : params.Type_ p = _ |- _ =>
          rewrite H1 in H2; discriminate
      end.
Qed.

Lemma flattenParameters_kinds (ps : params.Parameters_) :
  flattenParameters ps
    = (fold_left (kind_step params.Configuration) (params.Items ps) ∅,
       fold_left (kind_step params.System) (params.Items ps) ∅,
       fold_left (kind_step params.EnvironmentVariable)
         (params.Items ps) ∅).
Proof. apply flattenParameters_fold. Qed.

Lemma kind_step_absent (t : string) (items : list params.Parameter_)
  (acc : gmap string string) :
  Forall (fun p => params.Type_ p ≠ t) items →
  fold_left (kind_step t) items acc = acc.
Proof.
  revert acc. induction items as [|p items IH]; intros acc H.
  - reflexivity.
  - inversion H; subst. cbn [fold_left]. unfold kind_step at 2.
    case_decide; [contradiction|]. now apply IH.
Qed.

Lemma kind_step_insert (t n v : string) (items : list params.Parameter_)
  (acc : gmap string string) :
  (t, n) ∉ keys_of items →
  fold_left (kind_step t) items (<[n := v]> acc)
    = <[n := v]> (fold_left (kind_step t) items acc).
Proof.
  revert acc. induction items as [|p items IH]; intros acc H.
  - reflexivity.
  - cbn [fold_left]. cbn [keys_of map] in H.
    apply not_elem_of_cons in H as [Hp Hrest].
    unfold kind_step at 2 4. case_decide as Ht.
    + rewrite insert_insert_ne by congruence.
      now apply IH.
    + now apply IH.
Qed.

Lemma AddOrReplaceValue_keys (items : list params.Parameter_)
  (t n v : string) (k : string * string) :
  k ∈ keys_of (params.AddOrReplaceValue items t n v) →
  k ∈ keys_of items ∨ k = (t, n).
Proof.
  induction items as [|p items IH]; cbn [params.AddOrReplaceValue].
  - cbn. intros H. apply list_elem_of_singleton in H. now right.
  - case_decide as Hk.
    + cbn [keys_of map params.Type_ params.Name].
      intros H. apply elem_of_cons in H as [-> | H].
      * now right.
      * left. now apply elem_of_cons; right.
    + cbn [keys_of map]. intros H. apply elem_of_cons in H as [-> | H].
      * left. now apply elem_of_cons; left.
      * destruct (IH H) as [Hin | ->]; [left|now right].
        now apply elem_of_cons; right.
Qed.

Lemma AddOrReplaceValue_NoDup (items : list params.Parameter_)
  (t n v : string) :
  NoDup (keys_of items) →
  NoDup (keys_of (params.AddOrReplaceValue items t n v)).
Proof.
  induction items as [|p items IH]; cbn [params.AddOrReplaceValue].
  - intros _. cbn. apply NoDup_singleton.
  - intros H. cbn [keys_of map] in H. apply NoDup_cons in H as [Hp Hrest].
    case_decide as Hk.
    + cbn [keys_of map params.Type_ params.Name].
      destruct Hk as [<- <-]. now apply NoDup_cons.
    + cbn [keys_of map]. apply NoDup_cons. split; [|now apply IH].
      intros Hin. apply AddOrReplaceValue_keys in Hin as [Hin|Heq].
      * now apply Hp.
      * apply Hk. now inversion Heq.
Qed.

(** On a collection without duplicate (kind, name) pairs, add-or-replace
    is, kind by kind, one more assignment. *)
Lemma kind_step_AddOrReplaceValue (t t' n v : string)
  (items : list params.Parameter_) (acc : gmap string string) :
  NoDup (keys_of items) →
  fold_left (kind_step t) (params.AddOrReplaceValue items t' n v) acc
    = kind_step t (fold_left (kind_step t) items acc)
        (params.mkParameter t' n v).
Proof.
  revert acc. induction items as [|p items IH]; intros acc H.
  - reflexivity.
  - cbn [keys_of map] in H. apply NoDup_cons in H as [Hp Hrest].
    cbn [params.AddOrReplaceValue]. case_decide as Hk.
    + destruct Hk as [Hn Ht]. cbn [fold_left].
      assert (Hfree : (t', n) ∉ keys_of items)
        by (rewrite <- Ht, <- Hn; exact Hp).
      unfold kind_step at 2 3 5.
      cbn [params.Type_ params.Name params.Value]. rewrite Ht, Hn.
      case_decide as Htt; [subst t'|reflexivity].
      rewrite !kind_step_insert by (rewrite <- Htt; exact Hfree).
      now rewrite insert_insert_eq.
    + cbn [fold_left]. now apply IH.
Qed.

Lemma fold_assign_permutation (l : list (string * string))
  (m : gmap string string) :
  l ≡ₚ map_to_list m → fold_left assign l ∅ = m.
Proof.
  intros Hperm.
  assert (Hrev : rev l ≡ₚ map_to_list m)
    by (now rewrite <- Permutation_rev).
  transitivity (list_to_map (rev l) : gmap string string).
  { symmetry. apply (fold_left_rev_right (fun kv m => assign m kv)). }
  rewrite <- (list_to_map_to_list m).
  apply list_to_map_proper; [|exact Hrev].
  rewrite Hrev. apply NoDup_fst_map_to_list.
Qed.

(** What [expandParameters] builds, seen kind by kind. *)
Lemma expandParameters_loop_kinds (t : string)
  (raw : list (string * string)) (out : params.Parameters_) :
  NoDup (keys_of (params.Items out)) →
  ∃ ps, expandParameters_loop raw t out = Ok ps ∧
        NoDup (keys_of (params.Items ps)) ∧
        ∀ t' acc,
          fold_left (kind_step t') (params.Items ps) acc
          = if decide (t = t')
            then fold_left assign raw
                   (fold_left (kind_step t') (params.Items out) acc)
            else fold_left (kind_step t') (params.Items out) acc.
Proof.
  revert out. induction raw as [|[k v] raw IH]; intros out Hnd.
  - exists out. repeat split; [assumption|].
    intros t' acc. now case_decide.
  - cbn [expandParameters_loop params.NewParameter result_bind].
    destruct (IH (params.AddOrReplaceParameter out
                    (params.mkParameter t k v))) as (ps & Hps & Hnd' & Hk).
    { now apply AddOrReplaceValue_NoDup. }
    exists ps. repeat split; [assumption..|].
    intros t' acc. rewrite Hk.
    unfold params.AddOrReplaceParameter.
    cbn [params.Items params.Type_ params.Name params.Value].
    rewrite kind_step_AddOrReplaceValue by assumption.
    unfold kind_step at 1 3. cbn [params.Type_ params.Name params.Value].
    repeat case_decide; try contradiction; reflexivity.
Qed.

Lemma Concat_kinds (source : list params.Parameter_)
  (p : params.Parameters_) :
  NoDup (keys_of (params.Items p)) →
  NoDup (keys_of (params.Items (params.Concat p (params.mkParameters source))))
  ∧ ∀ t acc,
      fold_left (kind_step t)
        (params.Items (params.Concat p (params.mkParameters source))) acc
      = fold_left (kind_step t) source
          (fold_left (kind_step t) (params.Items p) acc).
Proof.
  unfold params.Concat. cbn [params.Items].
  revert p. induction source as [|x source IH]; intros p Hnd.
  - split; [assumption | reflexivity].
  - cbn [fold_left].
    destruct (IH (params.AddOrReplaceParameter p x)) as [Hnd' Hk].
    { now apply AddOrReplaceValue_NoDup. }
    split; [assumption|].
    intros t acc. rewrite Hk. f_equal.
    unfold params.AddOrReplaceParameter. cbn [params.Items].
    now rewrite kind_step_AddOrReplaceValue by assumption.
Qed.

Lemma GetOk_map_Some (d : ResourceData) (key : string)
  (m : gmap string string) :
  GetOk_map d key = Some m → 0 < size m.
Proof.
  unfold GetOk_map. destruct (rd_fields d !! key) as [[| m' | |]|];
    try discriminate.
  case_decide; [discriminate|]. intros [= ->]. lia.
Qed.

Lemma flattenParameterCollection_fields (d0 : ResourceData)
  (ps : params.Parameters_) (c s e : gmap string string) :
  flattenParameters ps = (c, s, e) →
  rd_fields (flattenParameterCollection d0 ps) !! "env_params"
    = (if decide (0 < size e) then Some (VMap e)
       else rd_fields d0 !! "env_params") ∧
  rd_fields (flattenParameterCollection d0 ps) !! "sys_params"
    = (if decide (0 < size s) then Some (VMap s)
       else rd_fields d0 !! "sys_params") ∧
  rd_fields (flattenParameterCollection d0 ps) !! "config_params"
    = (if decide (0 < size c) then Some (VMap c)
       else rd_fields d0 !! "config_params") ∧
  ∀ key, key ≠ "env_params" → key ≠ "sys_params" →
         key ≠ "config_params" →
         rd_fields (flattenParameterCollection d0 ps) !! key
           = rd_fields d0 !! key.
Proof.
  intros Hflat. unfold flattenParameterCollection. rewrite Hflat.
  repeat split; [..|intros key ? ? ?];
    repeat case_decide; cbn [Set_ rd_fields]; simplify_map_eq; done.
Qed.

Section ExpandOne.

Variable range : gmap string string → list (string * string).

(** One of the three blocks of [expandParameterCollection], and what
    the matching [Concat] then does, kind by kind. *)
Lemma expand_one (o : option (gmap string string)) (t : string) :
  ∃ r,
    match o with
    | Some v =>
        result_bind (expandParameters (range v) t) (fun p => Ok (Some p))
    | None => Ok None
    end = Ok r ∧
    ∀ out,
      NoDup (keys_of (params.Items out)) →
      let out' := match r with
                  | Some c => params.Concat out c
                  | None => out
                  end in
      NoDup (keys_of (params.Items out')) ∧
      ∀ t' acc,
        fold_left (kind_step t') (params.Items out') acc
        = if decide (t = t')
          then fold_left assign
                 (match o with Some v => range v | None => [] end)
                 (fold_left (kind_step t') (params.Items out) acc)
          else fold_left (kind_step t') (params.Items out) acc.
Proof.
  destruct o as [v|].
  - destruct (expandParameters_loop_kinds t (range v)
                params.NewParametersEmpty) as (ps & Hps & Hnd & Hk).
    { apply NoDup_nil_2. }
    exists (Some ps). unfold expandParameters. rewrite Hps.
    split; [reflexivity|].
    intros out Hout. cbv zeta. destruct ps as [items].
    destruct (Concat_kinds items out Hout) as [Hnd' Hc].
    split; [assumption|].
    intros t' acc. rewrite Hc.
    cbn [params.Items] in Hk. rewrite Hk. reflexivity.
  - exists None. split; [reflexivity|].
    intros out Hout. cbv zeta. split; [assumption|].
    intros t' acc. now case_decide.
Qed.

End ExpandOne.

Lemma fold_assign_range
  (range : gmap string string → list (string * string))
  (o : option (gmap string string)) :
  (∀ m, range m ≡ₚ map_to_list m) →
  fold_left assign (match o with Some v => range v | None => [] end) ∅
    = default ∅ o.
Proof.
  intros Hrange. destruct o as [v|]; [|reflexivity].
  apply fold_assign_permutation, Hrange.
Qed.

Lemma written_GetOk_map (d : ResourceData) (key : string)
  (old : option value) :
  (if decide (0 < size (default ∅ (GetOk_map d key)))
   then Some (VMap (default ∅ (GetOk_map d key))) else old)
  = written (GetOk_map d key) old.
Proof.
  destruct (GetOk_map d key) as [m|] eqn:E; simpl.
  - apply GetOk_map_Some in E. case_decide; [reflexivity | lia].
  - rewrite map_size_empty. case_decide; [lia | reflexivity].
Qed.

(** C2, as stated, fails for a map that is present but empty: expanding it
    emits no parameter, and the flatten then leaves the field unwritten,
    so the explicitly empty map comes back absent, not as the same map.
    [flattenParameters] itself never answers with an absent map: for three
    absent kinds it returns the three empty maps it has made. *)
Lemma parameters_roundtrip_counterexample :
  let d := fresh (<["env_params" := VMap ∅]> ∅) in
  rd_fields d !! "env_params" = Some (VMap ∅) ∧
  expandParameterCollection map_to_list d = Ok (params.mkParameters []) ∧
  rd_fields (flattenParameterCollection (fresh ∅) (params.mkParameters []))
    !! "env_params" = None ∧
  expandParameterCollection map_to_list (fresh ∅)
    = Ok (params.mkParameters []) ∧
  flattenParameters (params.mkParameters []) = (∅, ∅, ∅).
Proof. vm_compute. auto. Qed.

(** C2, amended: whatever the order in which the entries of the three
    maps are visited, the expand succeeds and [flattenParameters] of its
    result returns, kind by kind, a map with exactly the entries of the
    map that was expanded, a kind whose map is absent or empty giving an
    empty map; [flattenParameterCollection] then writes the field of a
    kind with exactly that map when the map is not empty, and does not
    write the field of a kind whose map was absent or empty, which so
    stays absent in a state where it was absent. *)
Theorem parameters_roundtrip
  (range : gmap string string → list (string * string))
  (d : ResourceData) :
  (∀ m, range m ≡ₚ map_to_list m) →
  ∃ ps,
    expandParameterCollection range d = Ok ps ∧
    flattenParameters ps
      = (default ∅ (GetOk_map d "config_params"),
         default ∅ (GetOk_map d "sys_params"),
         default ∅ (GetOk_map d "env_params")) ∧
    ∀ d0,
      rd_fields (flattenParameterCollection d0 ps) !! "env_params"
        = written (GetOk_map d "env_params")
            (rd_fields d0 !! "env_params") ∧
      rd_fields (flattenParameterCollection d0 ps) !! "sys_params"
        = written (GetOk_map d "sys_params")
            (rd_fields d0 !! "sys_params") ∧
      rd_fields (flattenParameterCollection d0 ps) !! "config_params"
        = written (GetOk_map d "config_params")
            (rd_fields d0 !! "config_params").
Proof.
  intros Hrange. unfold expandParameterCollection.
  destruct (expand_one range (GetOk_map d "env_params")
              params.EnvironmentVariable) as (env & Henv & Kenv).
  destruct (expand_one range (GetOk_map d "sys_params")
              params.System) as (sys & Hsys & Ksys).
  destruct (expand_one range (GetOk_map d "config_params")
              params.Configuration) as (cfg & Hcfg & Kcfg).
  rewrite Henv. cbn [result_bind]. rewrite Hsys. cbn [result_bind].
  rewrite Hcfg. cbn [result_bind]. cbv zeta.
  eexists. split; [reflexivity|].
  destruct (Kcfg params.NewParametersEmpty (NoDup_nil_2 (A:=_))) as [N1 F1].
  destruct (Ksys _ N1) as [N2 F2].
  destruct (Kenv _ N2) as [N3 F3].
  cbv zeta in F1, F2, F3, N1, N2, N3.
  match goal with
  | |- flattenParameters ?out = ?triple ∧ _ =>
      assert (Hflat : flattenParameters out = triple)
  end.
  { rewrite flattenParameters_kinds, !F3, !F2, !F1.
    cbn [params.NewParametersEmpty params.Items fold_left].
    repeat case_decide; try discriminate; try congruence.
    now rewrite !fold_assign_range by assumption. }
  split; [exact Hflat|].
  intros d0.
  destruct (flattenParameterCollection_fields d0 _ _ _ _ Hflat)
    as (He & Hs & Hc & _).
  rewrite He, Hs, Hc, !written_GetOk_map. repeat split.
Qed.

Lemma parameters_roundtrip_witness :
  let d := fresh (<["env_params" := VMap (<["PATH" := "/bin"]> ∅)]>
                 (<["config_params" :=
                      VMap (<["a" := "1"]> (<["b" := "2"]> ∅))]> ∅)) in
  ∃ ps,
    expandParameterCollection map_to_list d = Ok ps ∧
    flattenParameters ps
      = (default ∅ (GetOk_map d "config_params"),
         default ∅ (GetOk_map d "sys_params"),
         default ∅ (GetOk_map d "env_params")) ∧
    ∀ d0,
      rd_fields (flattenParameterCollection d0 ps) !! "env_params"
        = written (GetOk_map d "env_params")
            (rd_fields d0 !! "env_params") ∧
      rd_fields (flattenParameterCollection d0 ps) !! "sys_params"
        = written (GetOk_map d "sys_params")
            (rd_fields d0 !! "sys_params") ∧
      rd_fields (flattenParameterCollection d0 ps) !! "config_params"
        = written (GetOk_map d "config_params")
            (rd_fields d0 !! "config_params").
Proof.
  intros d. apply (parameters_roundtrip map_to_list d).
  intros m. reflexivity.
Defined.

Example parameters_roundtrip_run :
  let d := fresh (<["env_params" := VMap (<["PATH" := "/bin"]> ∅)]>
                 (<["config_params" :=
                      VMap (<["a" := "1"]> (<["b" := "2"]> ∅))]> ∅)) in
  result_map flattenParameters
    (expandParameterCollection (fun m => reverse (map_to_list m)) d)
    = Ok (<["a" := "1"]> (<["b" := "2"]> ∅), ∅, <["PATH" := "/bin"]> ∅).
Proof. vm_compute. reflexivity. Qed.

(** ** Read of a build configuration *)

Lemma flattenParameterCollection_absent_kind (d0 : ResourceData)
  (ps : params.Parameters_) :
  (Forall (fun p => params.Type_ p ≠ params.EnvironmentVariable)
     (params.Items ps) →
   rd_fields (flattenParameterCollection d0 ps) !! "env_params"
     = rd_fields d0 !! "env_params") ∧
  (Forall (fun p => params.Type_ p ≠ params.System) (params.Items ps) →
   rd_fields (flattenParameterCollection d0 ps) !! "sys_params"
     = rd_fields d0 !! "sys_params") ∧
  (Forall (fun p => params.Type_ p ≠ params.Configuration)
     (params.Items ps) →
   rd_fields (flattenParameterCollection d0 ps) !! "config_params"
     = rd_fields d0 !! "config_params").
Proof.
  destruct (flattenParameterCollection_fields d0 ps _ _ _
              (flattenParameters_kinds ps)) as (He & Hs & Hc & _).
  rewrite He, Hs, Hc.
  repeat split; intros H; rewrite (kind_step_absent _ _ _ H),
    map_size_empty; case_decide; (lia || reflexivity).
Qed.

Lemma flattenParameterCollection_frame (d0 : ResourceData)
  (ps : params.Parameters_) (key : string) :
  key ≠ "env_params" → key ≠ "sys_params" → key ≠ "config_params" →
  rd_fields (flattenParameterCollection d0 ps) !! key
    = rd_fields d0 !! key.
Proof.
  destruct (flattenParameterCollection_fields d0 ps _ _ _
              (flattenParameters_kinds ps)) as (_ & _ & _ & H).
  apply H.
Qed.

(** C10: on a Read of a Build Configuration, a field whose remote
    collection has no member is not written and keeps the value it had:
    [vcs_root] when the entity has no VCS-root entry, [step] when the
    server returns no step, and the parameter map of a kind when the
    entity has no parameter of that kind. *)
Theorem read_keeps_fields_without_members
  (R : Type) (client : Client R) (w : World R)
  (dt : entity.BuildType) (r1 : R) :
  BuildTypes_GetByID client (rd_Id (w_d w)) (w_remote w) = (Ok dt, r1) →
  let w' := snd (resourceBuildConfigurationRead R client w) in
  (entity.bt_VcsRootEntries dt = [] →
   rd_fields (w_d w') !! "vcs_root" = rd_fields (w_d w) !! "vcs_root") ∧
  (∀ r2,
     BuildTypes_GetSteps client (rd_Id (w_d w)) r1 = (Ok [], r2) →
     rd_fields (w_d w') !! "step" = rd_fields (w_d w) !! "step") ∧
  (Forall (fun p => params.Type_ p ≠ params.EnvironmentVariable)
     (params.Items (entity.bt_Parameters dt)) →
   rd_fields (w_d w') !! "env_params"
     = rd_fields (w_d w) !! "env_params") ∧
  (Forall (fun p => params.Type_ p ≠ params.System)
     (params.Items (entity.bt_Parameters dt)) →
   rd_fields (w_d w') !! "sys_params"
     = rd_fields (w_d w) !! "sys_params") ∧
  (Forall (fun p => params.Type_ p ≠ params.Configuration)
     (params.Items (entity.bt_Parameters dt)) →
   rd_fields (w_d w') !! "config_params"
     = rd_fields (w_d w) !! "config_params").
Proof.
  intros Hget w'. subst w'. run_read. rewrite Hget.
  repeat split; [intros Hv | intros r2 Hs | intros Hp ..]; branch;
    try (cbn [length] in *; lia);
    rewrite ?lookup_insert_ne by done;
    try (rewrite flattenParameterCollection_frame by done;
         cbn [Set_ rd_fields]; now rewrite ?lookup_insert_ne by done).
  all: first
    [ rewrite (proj1 (flattenParameterCollection_absent_kind _ _) Hp)
    | rewrite (proj1 (proj2 (flattenParameterCollection_absent_kind _ _)) Hp)
    | rewrite (proj2 (proj2 (flattenParameterCollection_absent_kind _ _)) Hp)
    ];
    cbn [Set_ rd_fields]; now rewrite ?lookup_insert_ne by done.
Qed.

Lemma read_keeps_fields_witness :
  let w := start recorded_d bare_server in
  let w' := (resourceBuildConfigurationRead memory.Server memory.client w).2 in
  rd_fields (w_d w') !! "vcs_root" = rd_fields recorded_d !! "vcs_root" ∧
  rd_fields (w_d w') !! "step" = rd_fields recorded_d !! "step" ∧
  rd_fields (w_d w') !! "env_params"
    = rd_fields recorded_d !! "env_params" ∧
  rd_fields (w_d w') !! "sys_params" = None.
Proof.
  intros w w'.
  destruct (read_keeps_fields_without_members memory.Server memory.client
              w bare_buildType bare_server eq_refl)
    as (Hv & Hs & He & Hy & _).
  split; [apply Hv; reflexivity|].
  split; [apply (Hs bare_server); reflexivity|].
  split; [apply He; repeat constructor; discriminate|].
  etransitivity; [apply Hy; repeat constructor; discriminate|].
  reflexivity.
Defined.

(** ** Create of a build configuration *)

Section Loops.

Context {R : Type}.

Lemma bind_Ok {A B : Type} (m : M R A) (f : A → M R B)
  (w w1 : World R) (a : A) :
  m w = (Ok a, w1) → bind m f w = f a w1.
Proof. intros H. unfold bind. now rewrite H. Qed.

Lemma bind_Err {A B : Type} (m : M R A) (f : A → M R B)
  (w w1 : World R) (e : string) :
  m w = (Err e, w1) → bind m f w = (Err e, w1).
Proof. intros H. unfold bind. now rewrite H. Qed.

Lemma for_each_app_Ok {A : Type} (body : A → M R unit)
  (l1 l2 : list A) (w w1 : World R) :
  for_each l1 body w = (Ok tt, w1) →
  for_each (l1 ++ l2) body w = for_each l2 body w1.
Proof.
  revert w. induction l1 as [|x l1 IH]; intros w H.
  - cbn in H. now inversion H.
  - cbn [for_each app] in *. unfold bind in *.
    destruct (body x w) as [[[]|e|] w']; try discriminate.
    now apply IH.
Qed.

(** The loop returns at the first element whose body fails, in the
    state that body left; the elements behind it are not visited. *)
Lemma for_each_first_failure {A : Type} (body : A → M R unit)
  (l1 l2 : list A) (x : A) (w w1 w2 : World R) (e : string) :
  for_each l1 body w = (Ok tt, w1) →
  body x w1 = (Err e, w2) →
  for_each (l1 ++ x :: l2) body w = (Err e, w2).
Proof.
  intros H1 Hx. rewrite (for_each_app_Ok _ _ _ _ _ H1).
  cbn [for_each]. now apply bind_Err.
Qed.

Variable client : Client R.

Lemma attach_loop_Ok (buildTypeID : string) (vcs : list VcsRootDecl)
  (w w' : World R) :
  for_each vcs (attach_body R client buildTypeID) w = (Ok tt, w') →
  w_d w' = w_d w ∧
  w_calls w' = (w_calls w ++ map (attach_call buildTypeID) vcs)%list.
Proof.
  revert w. induction vcs as [|raw vcs IH]; intros w H.
  - cbn in H. inversion H; subst. now rewrite app_nil_r.
  - cbn [for_each] in H. unfold bind, attach_body at 1, call in H.
    destruct (BuildTypes_AttachVcsRootEntry client buildTypeID
                (buildVcsRootEntry raw) (w_remote w)) as [[[]|e|] r'];
      try discriminate.
    apply IH in H as [Hd Hc]. cbn [w_d w_calls] in *.
    split; [assumption|].
    rewrite Hc. cbn [map]. now rewrite <- app_assoc.
Qed.

Lemma step_loop_Ok (buildTypeID : string)
  (steps : list (gmap string string)) (w w' : World R) :
  for_each steps (step_body R client buildTypeID) w = (Ok tt, w') →
  w_d w' = w_d w ∧
  ∃ sts, map_each expandBuildStep steps = Ok sts ∧
         w_calls w'
           = (w_calls w ++ map (CallAddStep buildTypeID) sts)%list.
Proof.
  revert w. induction steps as [|raw steps IH]; intros w H.
  - cbn in H. inversion H; subst. split; [reflexivity|].
    exists []. now rewrite app_nil_r.
  - cbn [for_each] in H.
    unfold bind at 1, step_body at 1, bind, lift, call, ret in H.
    cbn [map_each].
    destruct (expandBuildStep raw) as [st|e|]; try discriminate.
    destruct (BuildTypes_AddStep client buildTypeID st (w_remote w))
      as [[st'|e|] r']; try discriminate.
    apply IH in H as (Hd & sts & Hsts & Hc). cbn [w_d w_calls] in *.
    split; [assumption|].
    exists (st :: sts). rewrite Hsts. cbn [result_bind map].
    split; [reflexivity|]. rewrite Hc. now rewrite <- app_assoc.
Qed.

End Loops.

Lemma call_run {R A : Type} (c : Call) (op : R → result A * R)
  (w : World R) (r : result A) (remote' : R) :
  op (w_remote w) = (r, remote') →
  call c op w = (r, mkWorld (w_d w) remote' (w_calls w ++ [c])).
Proof. intros H. unfold call. now rewrite H. Qed.

Lemma attachVcsRoots_Ok {R : Type} (client : Client R) (d : ResourceData)
  (buildTypeID : string) (w wv : World R) :
  attachVcsRoots R client d buildTypeID w = (Ok tt, wv) →
  rd_Id (w_d wv) = rd_Id (w_d w) ∧
  rd_fields (w_d wv) = rd_fields (w_d w) ∧
  w_calls wv
    = (w_calls w
       ++ map (attach_call buildTypeID)
            (default [] (GetOk_vcs_root d "vcs_root")))%list.
Proof.
  unfold attachVcsRoots.
  destruct (GetOk_vcs_root d "vcs_root") as [vcs|]; simpl.
  - unfold bind, modify_d.
    destruct (for_each vcs (attach_body R client buildTypeID) w)
      as [[[]|e|] w'] eqn:E; try discriminate.
    intros [= <-]. apply attach_loop_Ok in E as [Hd Hc].
    cbn [w_d w_calls]. rewrite Hd. auto.
  - intros [= <-]. now rewrite app_nil_r.
Qed.

Lemma created_d_fields (buildTypeID : string) (d : ResourceData) :
  rd_Id (created_d buildTypeID d) = buildTypeID ∧
  rd_fields (created_d buildTypeID d) = rd_fields d.
Proof. split; reflexivity. Qed.

(** What Create does once the create call has been answered: up to the
    two loops. *)
Lemma create_after_created {R : Type}
  (range : gmap string string → list (string * string))
  (client : Client R) (d : ResourceData) (r0 r1 : R) (cs : list Call)
  (req : string * entity.BuildType) (created : entity.Reference) :
  buildTypeToCreate range R d (mkWorld d r0 cs) = (Ok req, mkWorld d r0 cs) →
  BuildTypes_Create client req.1 req.2 r0 = (Ok created, r1) →
  resourceBuildConfigurationCreate range R client (mkWorld d r0 cs)
  = bind (attachVcsRoots R client d (entity.created_ID created))
      (fun _ =>
       bind (addSteps R client d (entity.created_ID created))
         (fun _ =>
          bind (modify_d (Partial false))
            (fun _ => resourceBuildConfigurationRead R client)))
      (mkWorld (created_d (entity.created_ID created) d) r1
         (cs ++ [CallBuildTypesCreate req.1 req.2])).
Proof.
  intros Hreq Hcreate. unfold resourceBuildConfigurationCreate.
  unfold bind at 1, get_d. cbn [w_d].
  rewrite (bind_Ok _ _ _ _ _ Hreq). cbv beta zeta.
  assert (Hcall := call_run (CallBuildTypesCreate req.1 req.2)
                     (BuildTypes_Create client req.1 req.2)
                     (mkWorld d r0 cs) _ _ Hcreate).
  rewrite (bind_Ok _ _ _ _ _ Hcall).
  reflexivity.
Qed.

Lemma create_attach_failure {R : Type}
  (range : gmap string string → list (string * string))
  (client : Client R) (d : ResourceData) (r0 r1 : R) (cs : list Call)
  (req : string * entity.BuildType) (created : entity.Reference)
  (vcs done todo : list VcsRootDecl) (raw : VcsRootDecl)
  (wk : World R) (e : string) (r' : R) :
  let id_ := entity.created_ID created in
  let w1 := mkWorld (created_d id_ d) r1
              (cs ++ [CallBuildTypesCreate req.1 req.2]) in
  buildTypeToCreate range R d (mkWorld d r0 cs) = (Ok req, mkWorld d r0 cs) →
  BuildTypes_Create client req.1 req.2 r0 = (Ok created, r1) →
  GetOk_vcs_root d "vcs_root" = Some vcs →
  vcs = (done ++ raw :: todo)%list →
  for_each done (attach_body R client id_) w1 = (Ok tt, wk) →
  BuildTypes_AttachVcsRootEntry client id_ (buildVcsRootEntry raw)
    (w_remote wk) = (Err e, r') →
  resourceBuildConfigurationCreate range R client (mkWorld d r0 cs)
  = (Err e,
     mkWorld (created_d id_ d) r'
       (w_calls w1 ++ map (attach_call id_) done ++ [attach_call id_ raw])).
Proof.
  intros id_ w1 Hreq Hcreate Hvcs -> Hdone Hfail.
  rewrite (create_after_created _ _ _ _ _ _ _ _ Hreq Hcreate).
  fold id_. fold w1.
  apply bind_Err. unfold attachVcsRoots. rewrite Hvcs.
  apply bind_Err.
  destruct (attach_loop_Ok _ _ _ _ _ Hdone) as [Hd Hc].
  eapply for_each_first_failure; [exact Hdone|].
  unfold attach_body. rewrite (call_run _ _ _ _ _ Hfail).
  rewrite Hd, Hc, <- app_assoc. reflexivity.
Qed.

Lemma create_step_failure {R : Type}
  (range : gmap string string → list (string * string))
  (client : Client R) (d : ResourceData) (r0 r1 : R) (cs : list Call)
  (req : string * entity.BuildType) (created : entity.Reference)
  (steps done todo : list (gmap string string)) (raw : gmap string string)
  (wv wk : World R) (st : api.Step) (e : string) (r' : R) :
  let id_ := entity.created_ID created in
  let w1 := mkWorld (created_d id_ d) r1
              (cs ++ [CallBuildTypesCreate req.1 req.2]) in
  buildTypeToCreate range R d (mkWorld d r0 cs) = (Ok req, mkWorld d r0 cs) →
  BuildTypes_Create client req.1 req.2 r0 = (Ok created, r1) →
  attachVcsRoots R client d id_ w1 = (Ok tt, wv) →
  GetOk_step d "step" = Some steps →
  steps = (done ++ raw :: todo)%list →
  for_each done (step_body R client id_) wv = (Ok tt, wk) →
  expandBuildStep raw = Ok st →
  BuildTypes_AddStep client id_ st (w_remote wk) = (Err e, r') →
  ∃ sts,
    map_each expandBuildStep done = Ok sts ∧
    resourceBuildConfigurationCreate range R client (mkWorld d r0 cs)
    = (Err e,
       mkWorld (w_d wv) r'
         (w_calls w1
          ++ map (attach_call id_) (default [] (GetOk_vcs_root d "vcs_root"))
          ++ map (CallAddStep id_) sts ++ [CallAddStep id_ st])) ∧
    rd_Id (w_d wv) = id_ ∧
    rd_fields (w_d wv) = rd_fields d.
Proof.
  intros id_ w1 Hreq Hcreate Hv Hsteps -> Hdone Hexp Hfail.
  destruct (attachVcsRoots_Ok _ _ _ _ _ Hv) as (Hid & Hfields & Hcv).
  destruct (step_loop_Ok _ _ _ _ _ Hdone) as (Hd & sts & Hsts & Hck).
  exists sts. split; [exact Hsts|]. split; [|split; assumption].
  rewrite (create_after_created _ _ _ _ _ _ _ _ Hreq Hcreate).
  fold id_. fold w1.
  rewrite (bind_Ok _ _ _ _ _ Hv).
  apply bind_Err. unfold addSteps. rewrite Hsteps.
  apply bind_Err.
  eapply for_each_first_failure; [exact Hdone|].
  unfold step_body, lift. unfold bind at 1. rewrite Hexp.
  rewrite (bind_Err _ _ _ _ _ (call_run _ _ _ _ _ Hfail)).
  rewrite Hd, Hck, Hcv, <- !app_assoc. reflexivity.
Qed.

Lemma addSteps_Ok {R : Type} (client : Client R) (d : ResourceData)
  (buildTypeID : string) (w ws : World R) :
  addSteps R client d buildTypeID w = (Ok tt, ws) →
  ∃ sts,
    map_each expandBuildStep (default [] (GetOk_step d "step")) = Ok sts ∧
    w_calls ws = (w_calls w ++ map (CallAddStep buildTypeID) sts)%list.
Proof.
  unfold addSteps.
  destruct (GetOk_step d "step") as [steps|]; simpl.
  - unfold bind, modify_d.
    destruct (for_each steps (step_body R client buildTypeID) w)
      as [[[]|e|] w'] eqn:E; try discriminate.
    intros [= <-]. apply step_loop_Ok in E as (_ & sts & Hsts & Hc).
    exists sts. auto.
  - intros [= <-]. exists []. now rewrite app_nil_r.
Qed.

(** What the two loops of Create range over: the enumeration of the set
    of the declared members. *)
Lemma GetOk_enumerates (d : ResourceData) :
  (∀ l, rd_fields d !! "vcs_root" = Some (VVcsRoots l) →
        enumerates vcsRootHash l (default [] (GetOk_vcs_root d "vcs_root"))) ∧
  (∀ l, rd_fields d !! "step" = Some (VSteps l) →
        enumerates step_code (step_record <$> l)
          (default [] (GetOk_step d "step"))).
Proof.
  split; intros l H.
  - rewrite (GetOk_vcs_root_set d l H). apply NewSet_enumerates.
  - rewrite (GetOk_step_set d l H). apply NewSet_enumerates.
Qed.

(** C3, as stated, fails: the sub-resources are not applied in the
    declarative order.  [scenario_d] declares the cmd_line step first and
    the powershell step second; the key of the powershell step is the
    smaller one, so Create adds the powershell step first.  When the
    second of the two additions fails, the step that stays attached, and
    the only one a Read shows, is the step declared second. *)
Lemma create_declared_order_counterexample :
  let cmd : gmap string string :=
    <["type" := "cmd_line"]> (<["file" := "build.sh"]> ∅) in
  let ps : gmap string string :=
    <["type" := "powershell"]> (<["code" := "Write-Host hi"]> ∅) in
  let failed :=
    resourceBuildConfigurationCreate map_to_list memory.Server
      memory.client (start scenario_d scenario_server) in
  let read :=
    resourceBuildConfigurationRead memory.Server memory.client
      (failed.2) in
  rd_fields scenario_d !! "step" = Some (VSteps [cmd; ps]) ∧
  expandBuildStep cmd = Ok scenario_step1 ∧
  expandBuildStep ps = Ok scenario_step2 ∧
  schema.hash step_code (step_record cmd) = "3719420733" ∧
  schema.hash step_code (step_record ps) = "2799178934" ∧
  failed.1 = Err "500 Internal Server Error" ∧
  w_calls failed.2
    = [CallBuildTypesCreate "Proj"
         (entity.mkBuildType "" "Proj" "Build" ""
            params.NewParametersEmpty []);
       CallAttachVcsRootEntry "Proj_Build"
         (entity.mkVcsRootEntry "" (entity.mkVcsRootReference "vcs1")
            "+:src\n-:doc");
       CallAddStep "Proj_Build" scenario_step2;
       CallAddStep "Proj_Build" scenario_step1] ∧
  memory.srv_steps (w_remote failed.2) !! "Proj_Build"
    = Some [scenario_step2] ∧
  read.1 = Ok tt ∧
  GetOk_step (w_d read.2) "step" = Some [step_record ps].
Proof. vm_compute. repeat split; reflexivity. Qed.

(** C3, amended: once the entity is created, Create attaches the VCS
    roots and then adds the steps one call at a time, each collection in
    the order in which its set enumerates it: by increasing key (the
    decimal text of [vcsRootHash], of [stepSetHash]), one member per key,
    which is in general not the declarative order.  The first call that
    fails ends Create with that very error: the calls made are exactly
    those up to and including the failing one (none for the members
    behind it, none to undo or delete anything), the remote system is
    left as the failing call left it, and the resource data keeps the ID
    of the created entity.  On the in-memory server, with one VCS root
    and two steps of which the second addition fails, the step of the
    first addition is still attached and a Read that follows shows
    exactly that one step. *)
Theorem create_aborts_at_first_failure :
  (∀ (R : Type) (range : gmap string string → list (string * string))
     (client : Client R) (d : ResourceData) (r0 r1 : R) (cs : list Call)
     (req : string * entity.BuildType) (created : entity.Reference),
     let id_ := entity.created_ID created in
     let w1 := mkWorld (created_d id_ d) r1
                 (cs ++ [CallBuildTypesCreate req.1 req.2]) in
     buildTypeToCreate range R d (mkWorld d r0 cs)
       = (Ok req, mkWorld d r0 cs) →
     BuildTypes_Create client req.1 req.2 r0 = (Ok created, r1) →
     (∀ vcs done todo raw wk e r',
        GetOk_vcs_root d "vcs_root" = Some vcs →
        vcs = (done ++ raw :: todo)%list →
        for_each done (attach_body R client id_) w1 = (Ok tt, wk) →
        BuildTypes_AttachVcsRootEntry client id_ (buildVcsRootEntry raw)
          (w_remote wk) = (Err e, r') →
        resourceBuildConfigurationCreate range R client (mkWorld d r0 cs)
        = (Err e,
           mkWorld (created_d id_ d) r'
             (w_calls w1 ++ map (attach_call id_) done
              ++ [attach_call id_ raw]))) ∧
     (∀ steps done todo raw wv wk st e r',
        attachVcsRoots R client d id_ w1 = (Ok tt, wv) →
        GetOk_step d "step" = Some steps →
        steps = (done ++ raw :: todo)%list →
        for_each done (step_body R client id_) wv = (Ok tt, wk) →
        expandBuildStep raw = Ok st →
        BuildTypes_AddStep client id_ st (w_remote wk) = (Err e, r') →
        ∃ sts,
          map_each expandBuildStep done = Ok sts ∧
          resourceBuildConfigurationCreate range R client (mkWorld d r0 cs)
          = (Err e,
             mkWorld (w_d wv) r'
               (w_calls w1
                ++ map (attach_call id_)
                     (default [] (GetOk_vcs_root d "vcs_root"))
                ++ map (CallAddStep id_) sts ++ [CallAddStep id_ st])) ∧
          rd_Id (w_d wv) = id_ ∧
          rd_fields (w_d wv) = rd_fields d) ∧
     (∀ wv ws,
        attachVcsRoots R client d id_ w1 = (Ok tt, wv) →
        addSteps R client d id_ wv = (Ok tt, ws) →
        ∃ sts,
          map_each expandBuildStep (default [] (GetOk_step d "step"))
            = Ok sts ∧
          w_calls ws
          = (w_calls w1
             ++ map (attach_call id_)
                  (default [] (GetOk_vcs_root d "vcs_root"))
             ++ map (CallAddStep id_) sts)%list)) ∧
  (∀ d : ResourceData,
     (∀ l, rd_fields d !! "vcs_root" = Some (VVcsRoots l) →
           enumerates vcsRootHash l
             (default [] (GetOk_vcs_root d "vcs_root"))) ∧
     (∀ l, rd_fields d !! "step" = Some (VSteps l) →
           enumerates step_code (step_record <$> l)
             (default [] (GetOk_step d "step")))) ∧
  (let failed :=
     resourceBuildConfigurationCreate map_to_list memory.Server
       memory.client (start scenario_d scenario_server) in
   let read :=
     resourceBuildConfigurationRead memory.Server memory.client
       (failed.2) in
   failed.1 = Err "500 Internal Server Error" ∧
   rd_Id (w_d failed.2) = "Proj_Build" ∧
   is_Some (memory.srv_buildTypes (w_remote failed.2) !! "Proj_Build") ∧
   memory.srv_steps (w_remote failed.2) !! "Proj_Build"
     = Some [scenario_step2] ∧
   w_calls failed.2
     = [CallBuildTypesCreate "Proj"
          (entity.mkBuildType "" "Proj" "Build" ""
             params.NewParametersEmpty []);
        CallAttachVcsRootEntry "Proj_Build"
          (entity.mkVcsRootEntry "" (entity.mkVcsRootReference "vcs1")
             "+:src\n-:doc");
        CallAddStep "Proj_Build" scenario_step2;
        CallAddStep "Proj_Build" scenario_step1] ∧
   read.1 = Ok tt ∧
   GetOk_step (w_d read.2) "step"
     = Some [step_record
               (<["type" := "powershell"]>
                  (<["code" := "Write-Host hi"]> ∅))]).
Proof.
  split; [|split].
  - intros R range client d r0 r1 cs req created id_ w1 Hreq Hcreate.
    split; [|split].
    + intros vcs done todo raw wk e r' Hvcs Hsplit Hdone Hfail.
      exact (create_attach_failure range client d r0 r1 cs req created
               vcs done todo raw wk e r' Hreq Hcreate Hvcs Hsplit Hdone
               Hfail).
    + intros steps done todo raw wv wk st e r' Hv Hs Hsplit Hdone Hexp Hfail.
      exact (create_step_failure range client d r0 r1 cs req created
               steps done todo raw wv wk st e r' Hreq Hcreate Hv Hs Hsplit
               Hdone Hexp Hfail).
    + intros wv ws Hv Hs.
      destruct (attachVcsRoots_Ok _ _ _ _ _ Hv) as (_ & _ & Hcv).
      destruct (addSteps_Ok _ _ _ _ _ Hs) as (sts & Hsts & Hcs).
      exists sts. split; [exact Hsts|].
      now rewrite Hcs, Hcv, <- app_assoc.
  - exact GetOk_enumerates.
  - vm_compute. repeat split; eauto.
Qed.

Lemma create_aborts_witness :
  (resourceBuildConfigurationCreate map_to_list memory.Server memory.client
     (start scenario_d scenario_server)).1
  = Err "500 Internal Server Error".
Proof.
  pose proof (proj1 create_aborts_at_first_failure memory.Server map_to_list
                memory.client scenario_d scenario_server) as H.
  edestruct H as (_ & Hstep & _).
  - vm_compute. reflexivity.
  - vm_compute. reflexivity.
  - edestruct (Hstep
       [step_record
          (<["type" := "powershell"]> (<["code" := "Write-Host hi"]> ∅));
        step_record
          (<["type" := "cmd_line"]> (<["file" := "build.sh"]> ∅))]
       [step_record
          (<["type" := "powershell"]> (<["code" := "Write-Host hi"]> ∅))]
       []
       (step_record
          (<["type" := "cmd_line"]> (<["file" := "build.sh"]> ∅))))
      as (sts & _ & Hrun & _).
    + vm_compute. reflexivity.
    + vm_compute. reflexivity.
    + reflexivity.
    + vm_compute. reflexivity.
    + vm_compute. reflexivity.
    + vm_compute. reflexivity.
    + unfold start. rewrite Hrun. reflexivity.
Defined.

(** ** Create and the closing Read *)

(** Create of a project writes no field of the resource data, whatever
    the client answers: it ends with Update, which only reads them. *)
Lemma resourceProjectCreate_fields {R : Type}
  (range : gmap string string → list (string * string))
  (client : Client R) (w : World R) :
  rd_fields (w_d (resourceProjectCreate range R client w).2)
    = rd_fields (w_d w).
Proof.
  unfold resourceProjectCreate, resourceProjectUpdate, bind, get_d, call,
    modify_d, ret, lift.
  cbn [w_d w_remote w_calls entity.NewProject].
  destruct (Projects_Create client _ (w_remote w)) as [[cr|e|] r1];
    cbn [w_d w_remote w_calls snd]; try reflexivity.
  destruct (Projects_GetByID client _ r1) as [[dt|e|] r2];
    cbn [w_d w_remote w_calls snd]; try reflexivity.
  destruct (expandParameterCollection range _) as [ps|e|];
    cbn [w_d w_remote w_calls snd]; try reflexivity.
  destruct (Projects_Update client _ r2) as [[p|e|] r3];
    cbn [w_d w_remote w_calls snd]; reflexivity.
Qed.

(** Create of a build configuration, when both loops succeed, is the Read
    of the entity just created. *)
Lemma resourceBuildConfigurationCreate_ends_with_Read {R : Type}
  (range : gmap string string → list (string * string))
  (client : Client R) (d : ResourceData) (r0 r1 : R) (cs : list Call)
  (req : string * entity.BuildType) (created : entity.Reference)
  (wv ws : World R) :
  let id_ := entity.created_ID created in
  buildTypeToCreate range R d (mkWorld d r0 cs) = (Ok req, mkWorld d r0 cs) →
  BuildTypes_Create client req.1 req.2 r0 = (Ok created, r1) →
  attachVcsRoots R client d id_
    (mkWorld (created_d id_ d) r1 (cs ++ [CallBuildTypesCreate req.1 req.2]))
    = (Ok tt, wv) →
  addSteps R client d id_ wv = (Ok tt, ws) →
  resourceBuildConfigurationCreate range R client (mkWorld d r0 cs)
  = resourceBuildConfigurationRead R client
      (mkWorld (Partial false (w_d ws)) (w_remote ws) (w_calls ws)).
Proof.
  intros id_ Hreq Hcreate Hv Hs.
  rewrite (create_after_created _ _ _ _ _ _ _ _ Hreq Hcreate).
  fold id_. rewrite (bind_Ok _ _ _ _ _ Hv), (bind_Ok _ _ _ _ _ Hs).
  reflexivity.
Qed.

(** C9 at its failing input.  Create of the project "P" on a server whose
    parent project defines PATH succeeds with the calls Create, GetByID
    and Update and no field of the resource data written; a Read of the
    same entity would have set [env_params].  Create of a build
    configuration, on the contrary, ends with GetByID and GetSteps and
    leaves the state a further Read reproduces. *)
Theorem project_create_does_not_read :
  let created :=
    resourceProjectCreate map_to_list memory.Server memory.client
      (start project_d project_server) in
  let read :=
    resourceProjectRead memory.Server memory.client created.2 in
  let built :=
    resourceBuildConfigurationCreate map_to_list memory.Server
      memory.client (start scenario_d (memory.empty_server [])) in
  let reread :=
    resourceBuildConfigurationRead memory.Server memory.client built.2 in
  created.1 = Ok tt ∧
  w_calls created.2
    = [CallProjectsCreate
         (entity.mkProject "" "P" "" "" params.NewParametersEmpty);
       CallProjectsGetByID "P";
       CallProjectsUpdate
         (entity.mkProject "P" "P" "" "" params.NewParametersEmpty)] ∧
  rd_fields (w_d created.2) = rd_fields project_d ∧
  rd_fields (w_d created.2) !! "env_params" = None ∧
  read.1 = Ok tt ∧
  rd_fields (w_d read.2) !! "env_params"
    = Some (VMap (<["PATH" := "/bin"]> ∅)) ∧
  built.1 = Ok tt ∧
  drop 4 (w_calls built.2)
    = [CallBuildTypesGetByID "Proj_Build"; CallGetSteps "Proj_Build"] ∧
  reread.1 = Ok tt ∧
  rd_fields (w_d reread.2) = rd_fields (w_d built.2).
Proof. vm_compute. repeat split; reflexivity. Qed.

(* ================================================================== *)
(** * Further properties *)

(** ** Step variant codec: expand, then flatten *)

Lemma flattenBuildStepPowershell_other (s : api.StepPowershell)
  (k : string) :
  k ∉ step_keys → flattenBuildStepPowershell s !! k = None.
Proof.
  intros Hk. unfold flattenBuildStepPowershell; cbv zeta.
  assert (k ≠ "type" ∧ k ≠ "name" ∧ k ≠ "file" ∧ k ≠ "args" ∧ k ≠ "code")
    as (? & ? & ? & ? & ?).
  { unfold step_keys in Hk. repeat split; intros ->; apply Hk;
      repeat constructor. }
  repeat case_decide; rewrite ?lookup_insert_ne by congruence;
    apply lookup_empty.
Qed.

Lemma flattenBuildStepCmdLine_other (s : api.StepCommandLine)
  (k : string) :
  k ∉ step_keys → flattenBuildStepCmdLine s !! k = None.
Proof.
  intros Hk. unfold flattenBuildStepCmdLine; cbv zeta.
  assert (k ≠ "type" ∧ k ≠ "name" ∧ k ≠ "file" ∧ k ≠ "args" ∧ k ≠ "code")
    as (? & ? & ? & ? & ?).
  { unfold step_keys in Hk. repeat split; intros ->; apply Hk;
      repeat constructor. }
  repeat case_decide; rewrite ?lookup_insert_ne by congruence;
    apply lookup_empty.
Qed.

Lemma flattenBuildStep_Powershell (p : api.StepPowershell) :
  flattenBuildStep (api.PowershellStep p)
    = Ok (flattenBuildStepPowershell p).
Proof. reflexivity. Qed.

Lemma flattenBuildStep_CommandLine (c : api.StepCommandLine) :
  flattenBuildStep (api.CommandLineStep c) = Ok (flattenBuildStepCmdLine c).
Proof. reflexivity. Qed.

(** The record that comes back when a declarative step of a supported
    type is expanded and the result flattened, key by key. *)
Lemma expand_then_flatten_spec (m : gmap string string) (t : string) :
  m !! "type" = Some t →
  t = "powershell" ∨ t = "cmd_line" →
  let file := default "" (m !! "file") in
  let args := default "" (m !! "args") in
  let name := default "" (m !! "name") in
  let code := default "" (m !! "code") in
  ∃ r,
    expand_then_flatten m = Ok r ∧
    r !! "type" = Some t ∧
    r !! "file" = (if decide (file ≠ "") then Some file else None) ∧
    r !! "args"
      = (if decide (file ≠ "" ∧ args ≠ "") then Some args else None) ∧
    r !! "code"
      = (if decide (file = "" ∧ code ≠ "") then Some code else None) ∧
    r !! "name" = (if decide (name ≠ "") then Some name else None) ∧
    ∀ k, k ∉ step_keys → r !! k = None.
Proof.
  intros Ht Hsup file args name code.
  unfold expand_then_flatten, expandBuildStep. rewrite Ht.
  destruct Hsup as [-> | ->].
  - rewrite decide_True by reflexivity.
    unfold expandStepPowershell. fold file args name code.
    destruct (decide (file ≠ "")) as [Hf|Hf];
      cbn [api.NewStepPowershellScriptFile api.NewStepPowershellCode
           result_map result_bind];
      rewrite flattenBuildStep_Powershell;
      (eexists; split; [reflexivity|]);
      match goal with
      | |- context [flattenBuildStepPowershell ?p] =>
          destruct (flattenBuildStepPowershell_lookup p)
            as (H1 & H2 & H3 & H4 & H5);
          pose proof (flattenBuildStepPowershell_other p) as H6
      end;
      cbn [api.ps_Name api.ScriptFile api.ScriptArgs api.Code] in *;
      rewrite H1, H2, H3, H4, H5;
      repeat split; try exact H6;
      repeat case_decide; try reflexivity; try tauto; try congruence.
  - rewrite decide_False by discriminate.
    rewrite decide_True by reflexivity.
    unfold expandStepCmdLine. fold file args name code.
    destruct (decide (file ≠ "")) as [Hf|Hf];
      cbn [api.NewStepCommandLineExecutable api.NewStepCommandLineScript
           result_map result_bind];
      rewrite flattenBuildStep_CommandLine;
      (eexists; split; [reflexivity|]);
      match goal with
      | |- context [flattenBuildStepCmdLine ?p] =>
          destruct (flattenBuildStepCmdLine_lookup p)
            as (H1 & H2 & H3 & H4 & H5);
          pose proof (flattenBuildStepCmdLine_other p) as H6
      end;
      cbn [api.cl_Name api.CommandExecutable api.CommandParameters
           api.CustomScript] in *;
      rewrite H1, H2, H3, H4, H5;
      repeat split; try exact H6;
      repeat case_decide; try reflexivity; try tauto; try congruence.
Qed.

Lemma step_key_cases (k : string) :
  k = "type" ∨ k = "name" ∨ k = "file" ∨ k = "args" ∨ k = "code" ∨
  k ∉ step_keys.
Proof.
  destruct (decide (k ∈ step_keys)) as [Hin|Hout]; [|tauto].
  unfold step_keys in Hin.
  repeat (apply elem_of_cons in Hin as [-> | Hin]; [tauto|]).
  now apply elem_of_nil in Hin.
Qed.

Lemma canonical_roundtrip (m : gmap string string) :
  canonical_step m → expand_then_flatten m = Ok m.
Proof.
  intros (Ht & Hdom & Hn & Hf & Ha & Hc & Hfc & Haf).
  assert (∃ t, m !! "type" = Some t ∧ (t = "powershell" ∨ t = "cmd_line"))
    as (t & Htype & Hsup) by (destruct Ht; eauto).
  destruct (expand_then_flatten_spec m t Htype Hsup)
    as (r & Hr & Rt & Rf & Ra & Rc & Rn & Rother).
  rewrite Hr. f_equal. apply map_eq. intros k.
  destruct (step_key_cases k) as [-> | [-> | [-> | [-> | [-> | Hk]]]]].
  - now rewrite Rt, Htype.
  - rewrite Rn. destruct (m !! "name") as [n|]; simpl;
      try goal_decide Hd;
      first [reflexivity | congruence | exfalso; apply Hd; congruence].
  - rewrite Rf. destruct (m !! "file") as [f|]; simpl;
      try goal_decide Hd;
      first [reflexivity | congruence | exfalso; apply Hd; congruence].
  - rewrite Ra.
    destruct (m !! "args") as [a|], (m !! "file") as [f|]; simpl;
      try (destruct (Haf ltac:(eauto)) as [? Hx]; discriminate Hx);
      try goal_decide Hd;
      first [ reflexivity
            | exfalso; apply Hd; split; congruence
            | destruct Hd; congruence ].
  - rewrite Rc.
    destruct (m !! "code") as [c|], (m !! "file") as [f|]; simpl;
      try (specialize (Hfc ltac:(eauto)); discriminate Hfc);
      try goal_decide Hd;
      first [ reflexivity
            | exfalso; apply Hd; split; congruence
            | destruct Hd; congruence ].
  - now rewrite Rother, Hdom.
Qed.

(** X1: on expand a non-empty file takes precedence: whatever the [code]
    key holds is not looked at, and the record that comes back from the
    flatten has the file and no code. *)
Theorem expand_file_takes_precedence (m : gmap string string)
  (f c : string) :
  m !! "file" = Some f → f ≠ "" →
  expandBuildStep (<["code" := c]> m) = expandBuildStep m ∧
  ∀ r, expand_then_flatten (<["code" := c]> m) = Ok r →
       r !! "file" = Some f ∧ r !! "code" = None.
Proof.
  intros Hfile Hne.
  assert (Hsame : expandBuildStep (<["code" := c]> m) = expandBuildStep m).
  { unfold expandBuildStep, expandStepPowershell, expandStepCmdLine.
    rewrite !lookup_insert_ne by discriminate. rewrite Hfile. simpl.
    rewrite !decide_True by assumption. reflexivity. }
  split; [exact Hsame|].
  intros r. unfold expand_then_flatten. rewrite Hsame.
  fold (expand_then_flatten m). intros Hr.
  destruct (m !! "type") as [t|] eqn:Ht.
  - destruct (decide (t = "powershell")) as [Hp|Hp];
      [|destruct (decide (t = "cmd_line")) as [Hc|Hc]].
    1, 2: destruct (expand_then_flatten_spec m t Ht ltac:(tauto))
            as (r' & Hr' & _ & Rf & _ & Rc & _);
          rewrite Hr in Hr'; injection Hr' as <-;
          rewrite Rf, Rc, Hfile; simpl;
          rewrite decide_True by assumption;
          rewrite decide_False by tauto; tauto.
    unfold expand_then_flatten, expandBuildStep in Hr.
    rewrite Ht in Hr.
    rewrite !decide_False in Hr by assumption. discriminate.
  - unfold expand_then_flatten, expandBuildStep in Hr.
    rewrite Ht in Hr. discriminate.
Qed.

Lemma expand_file_takes_precedence_witness :
  let m : gmap string string :=
    <["type" := "cmd_line"]> (<["file" := "run.sh"]> ∅) in
  expandBuildStep (<["code" := "echo hi"]> m) = expandBuildStep m.
Proof.
  intros m.
  apply (proj1 (expand_file_takes_precedence m "run.sh" "echo hi" eq_refl
                  ltac:(discriminate))).
Defined.

(** X2: on expand, arguments are looked at only together with a file:
    when the file is absent or empty, whatever the [args] key holds is
    dropped and the step is built from name and code alone. *)
Theorem expand_drops_args_without_file (m : gmap string string)
  (a : string) :
  default "" (m !! "file") = "" →
  expandBuildStep (<["args" := a]> m) = expandBuildStep m.
Proof.
  intros Hfile.
  unfold expandBuildStep, expandStepPowershell, expandStepCmdLine.
  rewrite (lookup_insert_ne m "args" "type") by discriminate.
  rewrite !(lookup_insert_ne m "args" "file") by discriminate.
  rewrite !(lookup_insert_ne m "args" "name") by discriminate.
  rewrite !(lookup_insert_ne m "args" "code") by discriminate.
  rewrite Hfile.
  rewrite !decide_False by (intros H; now apply H). reflexivity.
Qed.

Lemma expand_drops_args_without_file_witness :
  let m : gmap string string :=
    <["type" := "powershell"]> (<["code" := "Write-Host hi"]> ∅) in
  expandBuildStep (<["args" := "-Verbose"]> m) = expandBuildStep m.
Proof.
  intros m. apply (expand_drops_args_without_file m "-Verbose").
  reflexivity.
Defined.

Lemma keys_within_schema (m : gmap string string) :
  dom m ⊆ list_to_set step_keys →
  ∀ k, k ∉ step_keys → m !! k = None.
Proof.
  intros Hdom k Hk. apply not_elem_of_dom. intros Hin.
  apply Hk. apply Hdom in Hin. now apply elem_of_list_to_set in Hin.
Qed.

(** X3: a step record in canonical shape survives the round trip: expanding
    it and flattening the step that was built gives back the same
    record. *)
Theorem step_roundtrip_canonical (m : gmap string string) :
  canonical_step m → expand_then_flatten m = Ok m.
Proof. exact (canonical_roundtrip m). Qed.

Lemma step_roundtrip_canonical_witness :
  let m : gmap string string :=
    <["type" := "cmd_line"]>
      (<["file" := "run.sh"]> (<["args" := "--all"]> ∅)) in
  expand_then_flatten m = Ok m.
Proof.
  intros m. apply (step_roundtrip_canonical m).
  split; [right; reflexivity|].
  split.
  { apply keys_within_schema.
    refine (bool_decide_eq_true_1 _ _). vm_compute. reflexivity. }
  repeat split; try (vm_compute; discriminate).
  intros _. eexists. reflexivity.
Defined.

Lemma flatten_is_canonical (s : api.Step) (r : gmap string string) :
  single_mode s → flattenBuildStep s = Ok r → canonical_step r.
Proof.
  intros Hmode Hflat. destruct s as [p|c|kind name].
  - rewrite flattenBuildStep_Powershell in Hflat. injection Hflat as <-.
    destruct (flattenBuildStepPowershell_lookup p)
      as (Ht & Hf & Ha & Hc & Hn).
    cbv zeta in *. simpl in Hmode.
    unfold canonical_step. rewrite Ht, Hf, Ha, Hc, Hn.
    split; [now left|].
    split; [apply flattenBuildStepPowershell_other|].
    repeat split; repeat case_decide; try congruence; try tauto;
      intros [? ?]; try discriminate; try tauto;
      eexists; reflexivity.
  - rewrite flattenBuildStep_CommandLine in Hflat. injection Hflat as <-.
    destruct (flattenBuildStepCmdLine_lookup c)
      as (Ht & Hf & Ha & Hc & Hn).
    cbv zeta in *. simpl in Hmode.
    unfold canonical_step. rewrite Ht, Hf, Ha, Hc, Hn.
    split; [now right|].
    split; [apply flattenBuildStepCmdLine_other|].
    repeat split; repeat case_decide; try congruence; try tauto;
      intros [? ?]; try discriminate; try tauto;
      eexists; reflexivity.
  - unfold flattenBuildStep in Hflat. repeat case_decide; discriminate.
Qed.

(** X4: flattening is stable under re-expansion: for a remote step that
    is not in both content modes at once, expanding the flattened record
    and flattening again gives the same record. *)
Theorem flatten_expand_flatten (s : api.Step) (r : gmap string string) :
  single_mode s →
  flattenBuildStep s = Ok r →
  expand_then_flatten r = Ok r.
Proof.
  intros Hmode Hflat. apply canonical_roundtrip.
  exact (flatten_is_canonical s r Hmode Hflat).
Qed.

Lemma flatten_expand_flatten_witness :
  let s := api.CommandLineStep
             (api.mkStepCommandLine "Build" "run.sh" "--all" "") in
  expand_then_flatten
    (flattenBuildStepCmdLine
       (api.mkStepCommandLine "Build" "run.sh" "--all" ""))
  = Ok (flattenBuildStepCmdLine
          (api.mkStepCommandLine "Build" "run.sh" "--all" "")).
Proof.
  intros s. apply (flatten_expand_flatten s).
  - simpl. intros [_ H]. now apply H.
  - reflexivity.
Defined.

(** X5: the three places that enumerate the step types agree: a type
    passes the schema's validation exactly when the expand builds a step
    for it, exactly when it is a value of [stepTypeMap]; and every record
    the flatten produces carries a type that passes the validation. *)
Theorem step_types_agree :
  (∀ (m : gmap string string) (t : string),
     m !! "type" = Some t →
     (step_type_ValidateFunc t = true ↔ ∃ s, expandBuildStep m = Ok s)) ∧
  (∀ t : string,
     step_type_ValidateFunc t = true ↔ ∃ k, stepTypeMap !! k = Some t) ∧
  (∀ (s : api.Step) (r : gmap string string),
     flattenBuildStep s = Ok r →
     ∃ t, r !! "type" = Some t ∧ step_type_ValidateFunc t = true).
Proof.
  assert (Hvalid : ∀ t, step_type_ValidateFunc t = true
                        ↔ t = "powershell" ∨ t = "cmd_line").
  { intros t. unfold step_type_ValidateFunc, validation.StringInSlice.
    rewrite bool_decide_eq_true, !elem_of_cons, elem_of_nil. tauto. }
  split; [|split].
  - intros m t Ht. rewrite Hvalid. unfold expandBuildStep. rewrite Ht.
    unfold expandStepPowershell, expandStepCmdLine.
    split.
    + intros [-> | ->].
      * rewrite decide_True by reflexivity.
        case_decide; eexists; reflexivity.
      * rewrite decide_False by discriminate.
        rewrite decide_True by reflexivity.
        case_decide; eexists; reflexivity.
    + intros [s Hs].
      destruct (decide (t = "powershell")); [tauto|].
      destruct (decide (t = "cmd_line")); [tauto|]. discriminate.
  - intros t. rewrite Hvalid. unfold stepTypeMap. split.
    + intros [-> | ->].
      * exists api.StepTypePowershell. reflexivity.
      * exists api.StepTypeCommandLine. reflexivity.
    + intros [k Hk].
      apply lookup_insert_Some in Hk as [[_ <-] | [_ Hk]]; [tauto|].
      apply lookup_insert_Some in Hk as [[_ <-] | [_ Hk]]; [tauto|].
      now rewrite lookup_empty in Hk.
  - intros s r Hflat. destruct s as [p|c|kind name].
    + rewrite flattenBuildStep_Powershell in Hflat. injection Hflat as <-.
      exists "powershell". split; [|reflexivity].
      apply (flattenBuildStepPowershell_lookup p).
    + rewrite flattenBuildStep_CommandLine in Hflat. injection Hflat as <-.
      exists "cmd_line". split; [|reflexivity].
      apply (flattenBuildStepCmdLine_lookup c).
    + unfold flattenBuildStep in Hflat. repeat case_decide; discriminate.
Qed.

Lemma step_types_agree_witness :
  (step_type_ValidateFunc "cmd_line" = true ↔
   ∃ s, expandBuildStep (<["type" := "cmd_line"]> ∅) = Ok s) ∧
  ∃ t, flattenBuildStepCmdLine (api.mkStepCommandLine "" "a.sh" "" "")
         !! "type" = Some t ∧ step_type_ValidateFunc t = true.
Proof.
  split.
  - apply (proj1 step_types_agree (<["type" := "cmd_line"]> ∅) "cmd_line").
    reflexivity.
  - apply (proj2 (proj2 step_types_agree)
             (api.CommandLineStep (api.mkStepCommandLine "" "a.sh" "" ""))).
    reflexivity.
Defined.

(** ** Collection identity hasher, continued *)

(** X6: the fingerprint of a step reads the keys type, name, file and args
    only: setting any other key, [code] in particular, leaves the
    fingerprint as it was, so two steps that differ only in their inline
    code have the same fingerprint. *)
Theorem stepSetHash_ignores_other_keys (m : gmap string string)
  (k v : string) :
  k ≠ "type" → k ≠ "name" → k ≠ "file" → k ≠ "args" →
  stepSetHash (<[k := v]> m) = stepSetHash m.
Proof.
  intros Ht Hn Hf Ha. unfold stepSetHash, stepSetText.
  now rewrite !lookup_insert_ne by assumption.
Qed.

Lemma stepSetHash_ignores_other_keys_witness :
  stepSetHash (<["code" := "echo one"]>
                 (<["type" := "cmd_line"]> (<["name" := "s"]> ∅)))
  = stepSetHash (<["type" := "cmd_line"]> (<["name" := "s"]> ∅)).
Proof.
  apply (stepSetHash_ignores_other_keys
           (<["type" := "cmd_line"]> (<["name" := "s"]> ∅))
           "code" "echo one"); discriminate.
Defined.

(** ** Checkout rules: split on read, join on attach *)

Lemma prefix_sep_inv (s : string) :
  String.prefix "\n" s = true →
  ∃ rest, s = String "\" (String "n" rest).
Proof.
  destruct s as [|c [|c2 rest]]; cbn [String.prefix];
    try discriminate.
  - destruct (ascii_dec "\" c); discriminate.
  - destruct (ascii_dec "\" c) as [<-|]; [|discriminate].
    destruct (ascii_dec "n" c2) as [<-|]; [|discriminate].
    intros _. now exists rest.
Qed.

Lemma Join_cons (a : string) (l : list string) (sep : string) :
  l ≠ [] → strings.Join (a :: l) sep = a +:+ sep +:+ strings.Join l sep.
Proof. destruct l; [contradiction | reflexivity]. Qed.

Lemma split_from_nonempty (sep : string) (skip : nat) (cur s : string) :
  strings.split_from sep skip cur s ≠ [].
Proof.
  revert skip cur. induction s as [|c s IH]; intros skip cur.
  - discriminate.
  - cbn [strings.split_from]. destruct skip; [|apply IH].
    destruct (String.prefix sep (String c s)); [discriminate | apply IH].
Qed.

Lemma Join_split_from (n : nat) :
  ∀ s cur : string, (String.length s ≤ n)%nat →
    strings.Join (strings.split_from "\n" 0 cur s) "\n" = cur +:+ s.
Proof.
  induction n as [|n IH]; intros s cur Hlen.
  - destruct s; [|simpl in Hlen; lia]. cbn. now rewrite append_empty_r.
  - destruct s as [|c s]; [cbn; now rewrite append_empty_r|].
    cbn [strings.split_from].
    destruct (String.prefix "\n" (String c s)) eqn:Hp.
    + apply prefix_sep_inv in Hp as [rest Hrest].
      injection Hrest as -> ->.
      cbn [String.length Nat.sub strings.split_from].
      rewrite Join_cons by apply split_from_nonempty.
      rewrite IH by (simpl in Hlen; lia).
      reflexivity.
    + rewrite IH by (simpl in Hlen; lia).
      now rewrite append_assoc.
Qed.

Lemma Join_Split (s : string) :
  strings.Join (strings.Split s "\n") "\n" = s.
Proof.
  unfold strings.Split.
  now rewrite (Join_split_from (String.length s)) by lia.
Qed.

(** X7: what Read saves for a VCS-root entry is never an empty rule list,
    and its [id] is the ID of the entry, not that of the root the entry
    refers to.  Attaching what was saved therefore refers to the root
    whose ID is the ID of the old entry: the same root exactly when the
    server files an entry under the ID of its root.  The rules string
    sent is the one the server gave, the join undoing the split,
    whatever that string is. *)
Theorem reattach_refers_to_entry_id (el : entity.VcsRootEntry) :
  checkout_rules (flattenVcsRootEntry el) ≠ [] ∧
  root_id (flattenVcsRootEntry el) = entity.ID el ∧
  entity.ref_ID
    (entity.VcsRoot (buildVcsRootEntry (flattenVcsRootEntry el)))
    = entity.ID el ∧
  (entity.VcsRoot (buildVcsRootEntry (flattenVcsRootEntry el))
     = entity.VcsRoot el
   ↔ entity.ID el = entity.ref_ID (entity.VcsRoot el)) ∧
  entity.CheckoutRules (buildVcsRootEntry (flattenVcsRootEntry el))
    = entity.CheckoutRules el ∧
  strings.Join (strings.Split (entity.CheckoutRules el) "\n") "\n"
    = entity.CheckoutRules el.
Proof.
  assert (Hne : strings.Split (entity.CheckoutRules el) "\n" ≠ [])
    by apply split_from_nonempty.
  split; [exact Hne|]. split; [reflexivity|]. split; [reflexivity|].
  split; [|split].
  - unfold buildVcsRootEntry, flattenVcsRootEntry.
    cbn [checkout_rules root_id entity.NewVcsRootEntryWithRules
         entity.VcsRoot].
    destruct (entity.VcsRoot el) as [i]. cbn [entity.ref_ID].
    split; [intros [= ->] | intros ->]; reflexivity.
  - unfold buildVcsRootEntry, flattenVcsRootEntry.
    cbn [checkout_rules root_id entity.NewVcsRootEntryWithRules
         entity.CheckoutRules].
    rewrite decide_True.
    + apply Join_Split.
    + destruct (strings.Split (entity.CheckoutRules el) "\n");
        [contradiction | simpl; lia].
  - apply Join_Split.
Qed.

(** ** Parameter codec, continued *)

Lemma map_of_kind_flatten (t : string) (ps : params.Parameters_) :
  known_kind t →
  map_of_kind t (flattenParameters ps)
    = fold_left (kind_step t) (params.Items ps) ∅.
Proof.
  intros Hk. rewrite flattenParameters_kinds. unfold map_of_kind.
  destruct Hk as [-> | [-> | ->]]; reflexivity.
Qed.

Lemma kind_step_skip (t : string) (l1 l2 : list params.Parameter_)
  (p : params.Parameter_) (acc : gmap string string) :
  params.Type_ p ≠ t →
  fold_left (kind_step t) (l1 ++ p :: l2) acc
    = fold_left (kind_step t) (l1 ++ l2) acc.
Proof.
  intros Hne. rewrite !fold_left_app. cbn [fold_left].
  unfold kind_step at 2. now rewrite decide_False by assumption.
Qed.

(** X8: a parameter whose kind is none of the three is passed over by the
    flatten: the three maps are those of the collection without it. *)
Theorem flattenParameters_ignores_unknown_kind
  (l1 l2 : list params.Parameter_) (p : params.Parameter_) :
  ¬ known_kind (params.Type_ p) →
  flattenParameters (params.mkParameters (l1 ++ p :: l2))
    = flattenParameters (params.mkParameters (l1 ++ l2)).
Proof.
  intros Hunknown. rewrite !flattenParameters_kinds. cbn [params.Items].
  rewrite !kind_step_skip; [reflexivity|..];
    intros Heq; apply Hunknown; unfold known_kind; tauto.
Qed.

Lemma flattenParameters_ignores_unknown_kind_witness :
  flattenParameters
    (params.mkParameters
       [params.mkParameter "env" "A" "1";
        params.mkParameter "password" "B" "2";
        params.mkParameter "system" "C" "3"])
  = flattenParameters
      (params.mkParameters
         [params.mkParameter "env" "A" "1";
          params.mkParameter "system" "C" "3"]).
Proof.
  apply (flattenParameters_ignores_unknown_kind
           [params.mkParameter "env" "A" "1"]
           [params.mkParameter "system" "C" "3"]
           (params.mkParameter "password" "B" "2")).
  intros [H | [H | H]]; discriminate H.
Defined.

(** X9: among the members of a collection with the same kind and name the
    last one decides: the flattened map of its kind holds its value under
    its name, whatever stands before it. *)
Theorem flattenParameters_last_wins
  (l1 l2 : list params.Parameter_) (p : params.Parameter_) :
  known_kind (params.Type_ p) →
  (params.Type_ p, params.Name p) ∉ keys_of l2 →
  map_of_kind (params.Type_ p)
    (flattenParameters (params.mkParameters (l1 ++ p :: l2)))
    !! params.Name p
  = Some (params.Value p).
Proof.
  intros Hk Hlast. rewrite map_of_kind_flatten by assumption.
  cbn [params.Items]. rewrite fold_left_app. cbn [fold_left].
  unfold kind_step at 2. rewrite decide_True by reflexivity.
  rewrite kind_step_insert by assumption.
  apply lookup_insert_eq.
Qed.

Lemma flattenParameters_last_wins_witness :
  map_of_kind "env"
    (flattenParameters
       (params.mkParameters
          [params.mkParameter "env" "A" "old";
           params.mkParameter "env" "A" "new";
           params.mkParameter "system" "A" "other"]))
    !! "A"
  = Some "new".
Proof.
  apply (flattenParameters_last_wins
           [params.mkParameter "env" "A" "old"]
           [params.mkParameter "system" "A" "other"]
           (params.mkParameter "env" "A" "new")).
  - right. right. reflexivity.
  - cbn. intros H. apply list_elem_of_singleton in H. discriminate H.
Defined.

Lemma keys_of_elem (items : list params.Parameter_) (t n v : string) :
  params.mkParameter t n v ∈ items → (t, n) ∈ keys_of items.
Proof.
  intros H. unfold keys_of.
  apply (list_elem_of_fmap_2
           (fun p => (params.Type_ p, params.Name p)) _ _ H).
Qed.

(** Without duplicate (kind, name) pairs the flattened map of a kind holds
    exactly the members of that kind. *)
Lemma kind_step_lookup (items : list params.Parameter_) (t n v : string)
  (acc : gmap string string) :
  NoDup (keys_of items) →
  (fold_left (kind_step t) items acc !! n = Some v ↔
   (params.mkParameter t n v ∈ items ∨
    (((t, n) ∉ keys_of items) ∧ acc !! n = Some v))).
Proof.
  revert acc. induction items as [|p items IH]; intros acc Hnd.
  - cbn. split.
    + intros H. right. split; [apply not_elem_of_nil | exact H].
    + intros [H | [_ H]]; [now apply elem_of_nil in H | exact H].
  - cbn [keys_of map] in Hnd. apply NoDup_cons in Hnd as [Hp Hnd].
    cbn [fold_left]. rewrite (IH _ Hnd). cbn [keys_of map].
    rewrite elem_of_cons, not_elem_of_cons.
    destruct (decide ((t, n) = (params.Type_ p, params.Name p)))
      as [Heq|Hne].
    + injection Heq as -> ->. unfold kind_step.
      rewrite decide_True by reflexivity. rewrite lookup_insert_eq.
      split.
      * intros [Hin | [_ Hv]].
        -- left. now right.
        -- left. left. injection Hv as <-. now destruct p.
      * intros [[Hv | Hin] | [[Hk _] _]].
        -- right. split; [exact Hp|]. now rewrite <- Hv.
        -- now left.
        -- now contradiction Hk.
    + assert (Hacc : kind_step t acc p !! n = acc !! n).
      { unfold kind_step. case_decide as Ht; [|reflexivity].
        apply lookup_insert_ne. intros Hn. apply Hne. congruence. }
      rewrite Hacc. split.
      * intros [Hin | [Hk Hv]]; [left; now right | right; tauto].
      * intros [[Hv | Hin] | [[_ Hk] Hv]].
        -- exfalso. apply Hne. now rewrite <- Hv.
        -- now left.
        -- right. tauto.
Qed.

Lemma kind_step_members (items : list params.Parameter_) (t n v : string) :
  NoDup (keys_of items) →
  (params.mkParameter t n v ∈ items ↔
   fold_left (kind_step t) items ∅ !! n = Some v).
Proof.
  intros Hnd. rewrite (kind_step_lookup items t n v ∅ Hnd).
  rewrite lookup_empty. split; [now left|].
  intros [H | [_ H]]; [exact H | discriminate H].
Qed.

(** The collection the expand builds, seen kind by kind. *)
Lemma expandParameterCollection_kinds
  (range : gmap string string → list (string * string))
  (d : ResourceData) :
  (∀ m, range m ≡ₚ map_to_list m) →
  ∃ ps,
    expandParameterCollection range d = Ok ps ∧
    NoDup (keys_of (params.Items ps)) ∧
    ∀ t, fold_left (kind_step t) (params.Items ps) ∅ = declared_map d t.
Proof.
  intros Hrange. unfold expandParameterCollection.
  destruct (expand_one range (GetOk_map d "env_params")
              params.EnvironmentVariable) as (env & Henv & Kenv).
  destruct (expand_one range (GetOk_map d "sys_params")
              params.System) as (sys & Hsys & Ksys).
  destruct (expand_one range (GetOk_map d "config_params")
              params.Configuration) as (cfg & Hcfg & Kcfg).
  rewrite Henv. cbn [result_bind]. rewrite Hsys. cbn [result_bind].
  rewrite Hcfg. cbn [result_bind]. cbv zeta.
  eexists. split; [reflexivity|].
  destruct (Kcfg params.NewParametersEmpty (NoDup_nil_2 (A:=_)))
    as [N1 F1].
  destruct (Ksys _ N1) as [N2 F2].
  destruct (Kenv _ N2) as [N3 F3].
  cbv zeta in F1, F2, F3, N1, N2, N3.
  split; [exact N3|].
  intros t. rewrite F3, F2, F1.
  cbn [params.NewParametersEmpty params.Items fold_left].
  unfold declared_map.
  repeat case_decide; subst; try discriminate; try congruence;
    now rewrite ?fold_assign_range by assumption.
Qed.

(** X10: the expand emits exactly one parameter per entry of the three
    maps and nothing else: the collection has no two members with the
    same kind and name, and (kind, name, value) is a member exactly when
    the map of that kind holds the value under the name. *)
Theorem expand_members
  (range : gmap string string → list (string * string))
  (d : ResourceData) :
  (∀ m, range m ≡ₚ map_to_list m) →
  ∃ ps,
    expandParameterCollection range d = Ok ps ∧
    NoDup (keys_of (params.Items ps)) ∧
    ∀ t n v,
      params.mkParameter t n v ∈ params.Items ps ↔
      declared_map d t !! n = Some v.
Proof.
  intros Hrange.
  destruct (expandParameterCollection_kinds range d Hrange)
    as (ps & Hps & Hnd & Hk).
  exists ps. repeat split; try assumption.
  - intros Hin. rewrite <- Hk. now apply kind_step_members.
  - intros Hv. rewrite <- Hk in Hv. now apply kind_step_members.
Qed.

Lemma expand_members_witness :
  let d := fresh (<["env_params" := VMap (<["PATH" := "/bin"]> ∅)]>
                 (<["sys_params" := VMap (<["os" := "linux"]> ∅)]> ∅)) in
  ∃ ps,
    expandParameterCollection map_to_list d = Ok ps ∧
    NoDup (keys_of (params.Items ps)) ∧
    ∀ t n v,
      params.mkParameter t n v ∈ params.Items ps ↔
      declared_map d t !! n = Some v.
Proof.
  intros d. apply (expand_members map_to_list d).
  intros m. reflexivity.
Defined.

Lemma declared_map_after_flatten (d0 : ResourceData)
  (ps : params.Parameters_) (t : string) :
  rd_fields d0 !! "env_params" = None →
  rd_fields d0 !! "sys_params" = None →
  rd_fields d0 !! "config_params" = None →
  Forall (fun p => known_kind (params.Type_ p)) (params.Items ps) →
  declared_map (flattenParameterCollection d0 ps) t
    = fold_left (kind_step t) (params.Items ps) ∅.
Proof.
  intros He Hs Hc Hkinds.
  destruct (flattenParameterCollection_fields d0 ps _ _ _
              (flattenParameters_kinds ps)) as (Fe & Fs & Fc & _).
  assert (Hget : ∀ key (m : gmap string string),
            rd_fields (flattenParameterCollection d0 ps) !! key
              = (if decide (0 < size m) then Some (VMap m) else None) →
            default ∅ (GetOk_map (flattenParameterCollection d0 ps) key)
              = m).
  { intros key m Hf. unfold GetOk_map. rewrite Hf.
    destruct (decide (0 < size m)) as [Hpos|Hzero].
    - rewrite decide_False by lia. reflexivity.
    - simpl. symmetry. apply map_size_empty_iff. lia. }
  rewrite He in Fe. rewrite Hs in Fs. rewrite Hc in Fc.
  unfold declared_map.
  destruct (decide (t = params.EnvironmentVariable)) as [->|Hne];
    [now apply Hget|].
  destruct (decide (t = params.System)) as [->|Hns]; [now apply Hget|].
  destruct (decide (t = params.Configuration)) as [->|Hnc];
    [now apply Hget|].
  symmetry. apply kind_step_absent.
  eapply Forall_impl; [exact Hkinds|].
  intros p [H | [H | H]] Heq; congruence.
Qed.

(** X11: flattening a parameter collection into a state that holds none of
    the three maps and expanding that state gives a collection with
    exactly the same members, provided the collection has no two members
    with the same kind and name and only members of the three kinds. *)
Theorem expand_flatten_members
  (range : gmap string string → list (string * string))
  (ps : params.Parameters_) (fields : gmap string value) :
  (∀ m, range m ≡ₚ map_to_list m) →
  fields !! "env_params" = None →
  fields !! "sys_params" = None →
  fields !! "config_params" = None →
  NoDup (keys_of (params.Items ps)) →
  Forall (fun p => known_kind (params.Type_ p)) (params.Items ps) →
  ∃ ps',
    expandParameterCollection range
      (flattenParameterCollection (fresh fields) ps) = Ok ps' ∧
    NoDup (keys_of (params.Items ps')) ∧
    ∀ p, p ∈ params.Items ps' ↔ p ∈ params.Items ps.
Proof.
  intros Hrange He Hs Hc Hnd Hkinds.
  destruct (expandParameterCollection_kinds range
              (flattenParameterCollection (fresh fields) ps) Hrange)
    as (ps' & Hps' & Hnd' & Hk).
  exists ps'. split; [exact Hps'|]. split; [exact Hnd'|].
  intros [t n v].
  rewrite (kind_step_members _ t n v Hnd'), (kind_step_members _ t n v Hnd).
  rewrite Hk, declared_map_after_flatten by assumption.
  reflexivity.
Qed.

Lemma expand_flatten_members_witness :
  let ps := params.mkParameters
              [params.mkParameter "env" "PATH" "/bin";
               params.mkParameter "configuration" "a" "1"] in
  ∃ ps',
    expandParameterCollection map_to_list
      (flattenParameterCollection (fresh ∅) ps) = Ok ps' ∧
    NoDup (keys_of (params.Items ps')) ∧
    ∀ p, p ∈ params.Items ps' ↔ p ∈ params.Items ps.
Proof.
  intros ps. apply (expand_flatten_members map_to_list ps ∅).
  - intros m. reflexivity.
  - reflexivity.
  - reflexivity.
  - reflexivity.
  - refine (bool_decide_unpack _ _). vm_compute. exact I.
  - repeat constructor; unfold known_kind; simpl; tauto.
Defined.

(** ** Read of a build configuration, continued *)

Lemma read_GetByID_Err {R : Type} (client : Client R) (w : World R)
  (e : string) (r1 : R) :
  BuildTypes_GetByID client (rd_Id (w_d w)) (w_remote w) = (Err e, r1) →
  resourceBuildConfigurationRead R client w
  = (Err e,
     mkWorld (w_d w) r1
       (w_calls w ++ [CallBuildTypesGetByID (rd_Id (w_d w))])).
Proof.
  intros Hget. run_read. now rewrite Hget.
Qed.

Lemma read_after_GetByID {R : Type} (client : Client R) (w : World R)
  (dt : entity.BuildType) (r1 : R) :
  BuildTypes_GetByID client (rd_Id (w_d w)) (w_remote w) = (Ok dt, r1) →
  resourceBuildConfigurationRead R client w
  = bind (call (CallGetSteps (rd_Id (w_d w)))
            (BuildTypes_GetSteps client (rd_Id (w_d w))))
      (fun steps =>
         if decide (0 < length steps) then
           bind (lift (map_each flattenBuildStep steps))
             (fun stepsToSave =>
                modify_d (Set_ "step" (VSteps (step_set stepsToSave))))
         else ret tt)
      (mkWorld (refreshed_entity dt (w_d w)) r1
         (w_calls w ++ [CallBuildTypesGetByID (rd_Id (w_d w))])).
Proof.
  intros Hget. unfold resourceBuildConfigurationRead.
  unfold bind at 1, get_d. cbn [w_d].
  unfold getBuildConfiguration.
  rewrite (bind_Ok _ _ _ _ _ (call_run _ _ _ _ _ Hget)).
  unfold refreshed_entity. cbv zeta.
  unfold bind at 1 2 3 4 5, modify_d at 1 2 3 4. cbn [w_d w_remote w_calls].
  destruct (decide (0 < length (entity.bt_VcsRootEntries dt)));
    reflexivity.
Qed.

Lemma read_Ok {R : Type} (client : Client R) (w : World R)
  (dt : entity.BuildType) (r1 r2 : R) (steps : list api.Step)
  (recs : list (gmap string string)) :
  BuildTypes_GetByID client (rd_Id (w_d w)) (w_remote w) = (Ok dt, r1) →
  BuildTypes_GetSteps client (rd_Id (w_d w)) r1 = (Ok steps, r2) →
  map_each flattenBuildStep steps = Ok recs →
  resourceBuildConfigurationRead R client w
  = (Ok tt,
     mkWorld (refreshed_steps steps recs (refreshed_entity dt (w_d w))) r2
       (w_calls w ++ [CallBuildTypesGetByID (rd_Id (w_d w));
                      CallGetSteps (rd_Id (w_d w))])).
Proof.
  intros Hget Hsteps Hrecs. rewrite (read_after_GetByID _ _ _ _ Hget).
  assert (Hcall := call_run (CallGetSteps (rd_Id (w_d w)))
                     (BuildTypes_GetSteps client (rd_Id (w_d w)))
                     (mkWorld (refreshed_entity dt (w_d w)) r1
                        (w_calls w
                         ++ [CallBuildTypesGetByID (rd_Id (w_d w))]))
                     _ _ Hsteps).
  rewrite (bind_Ok _ _ _ _ _ Hcall). cbn [w_d w_remote w_calls].
  rewrite <- app_assoc. cbn [app]. unfold refreshed_steps.
  destruct (decide (0 < length steps)); [|reflexivity].
  unfold bind, lift. rewrite Hrecs. reflexivity.
Qed.

Lemma refreshed_entity_fields (dt : entity.BuildType) (d : ResourceData) :
  let d' := refreshed_entity dt d in
  let maps := flattenParameters (entity.bt_Parameters dt) in
  let kept (t key : string) :=
    if decide (0 < size (map_of_kind t maps))
    then Some (VMap (map_of_kind t maps)) else rd_fields d !! key in
  rd_Id d' = rd_Id d ∧
  rd_fields d' !! "name" = Some (VString (entity.bt_Name dt)) ∧
  rd_fields d' !! "description"
    = Some (VString (entity.bt_Description dt)) ∧
  rd_fields d' !! "project_id" = Some (VString (entity.bt_ProjectID dt)) ∧
  rd_fields d' !! "env_params" = kept params.EnvironmentVariable "env_params" ∧
  rd_fields d' !! "sys_params" = kept params.System "sys_params" ∧
  rd_fields d' !! "config_params" = kept params.Configuration "config_params" ∧
  rd_fields d' !! "vcs_root"
    = (if decide (0 < length (entity.bt_VcsRootEntries dt))
       then Some (VVcsRoots
                    (vcs_root_set
                       (map flattenVcsRootEntry
                          (entity.bt_VcsRootEntries dt))))
       else rd_fields d !! "vcs_root") ∧
  ∀ k, k ∉ read_keys ∨ k = "step" → rd_fields d' !! k = rd_fields d !! k.
Proof.
  intros d' maps kept. subst d' kept. unfold refreshed_entity. cbv zeta.
  destruct (flattenParameters (entity.bt_Parameters dt)) as [[c s] e] eqn:Hflat.
  subst maps.
  match goal with
  | |- context [flattenParameterCollection ?d0 ?ps] =>
      destruct (flattenParameterCollection_fields d0 ps c s e Hflat)
        as (He & Hs & Hc & Hother);
      assert (Hid : rd_Id (flattenParameterCollection d0 ps) = rd_Id d)
  end.
  { unfold flattenParameterCollection. rewrite Hflat.
    repeat case_decide; reflexivity. }
  change (map_of_kind params.EnvironmentVariable (c, s, e)) with e.
  change (map_of_kind params.System (c, s, e)) with s.
  change (map_of_kind params.Configuration (c, s, e)) with c.
  cbn [Set_ rd_fields] in He, Hs, Hc, Hother.
  rewrite !lookup_insert_ne in He, Hs, Hc by discriminate.
  assert (Hkeys : ∀ k, k ∉ read_keys ∨ k = "step" →
            k ≠ "name" ∧ k ≠ "description" ∧ k ≠ "project_id" ∧
            k ≠ "env_params" ∧ k ≠ "sys_params" ∧ k ≠ "config_params" ∧
            k ≠ "vcs_root").
  { intros k [Hk | ->]; [|repeat split; discriminate].
    unfold read_keys in Hk.
    repeat split; intros ->; apply Hk; repeat constructor. }
  destruct (decide (0 < length (entity.bt_VcsRootEntries dt)));
    cbn [Set_ rd_fields rd_Id];
    (repeat split;
     [..| intros k Hk; destruct (Hkeys k Hk) as (? & ? & ? & ? & ? & ? & ?)]);
    rewrite ?lookup_insert_ne by (discriminate || congruence);
    rewrite ?lookup_insert_eq;
    rewrite ?He, ?Hs, ?Hc, ?Hid;
    rewrite ?Hother by (discriminate || congruence);
    cbn [Set_ rd_fields rd_Id];
    rewrite ?lookup_insert_ne by (discriminate || congruence);
    rewrite ?lookup_insert_eq;
    reflexivity.
Qed.

Lemma read_key_cases (k : string) :
  k = "name" ∨ k = "description" ∨ k = "project_id" ∨ k = "env_params" ∨
  k = "sys_params" ∨ k = "config_params" ∨ k = "vcs_root" ∨ k = "step" ∨
  k ∉ read_keys.
Proof.
  destruct (decide (k ∈ read_keys)) as [Hin|Hout]; [|tauto].
  unfold read_keys in Hin.
  repeat (apply elem_of_cons in Hin as [-> | Hin]; [tauto|]).
  now apply elem_of_nil in Hin.
Qed.

Lemma refreshed_lookup (dt : entity.BuildType) (steps : list api.Step)
  (recs : list (gmap string string)) (d : ResourceData) (k : string) :
  rd_fields (refreshed_steps steps recs (refreshed_entity dt d)) !! k
    = read_value dt steps recs k (rd_fields d !! k).
Proof.
  destruct (refreshed_entity_fields dt d)
    as (_ & Hn & Hd & Hp & He & Hs & Hc & Hv & Hother).
  cbv zeta in *.
  assert (Hstep : ∀ k', k' ≠ "step" →
            rd_fields (refreshed_steps steps recs (refreshed_entity dt d))
              !! k' = rd_fields (refreshed_entity dt d) !! k').
  { intros k' Hk'. unfold refreshed_steps.
    destruct (decide (0 < length steps)); [|reflexivity].
    cbn [Set_ rd_fields]. now rewrite lookup_insert_ne by congruence. }
  unfold read_value.
  destruct (read_key_cases k)
    as [-> | [-> | [-> | [-> | [-> | [-> | [-> | [-> | Hk]]]]]]]].
  1-7: rewrite Hstep by discriminate.
  - now rewrite Hn.
  - now rewrite Hd.
  - now rewrite Hp.
  - now rewrite He.
  - now rewrite Hs.
  - now rewrite Hc.
  - now rewrite Hv.
  - rewrite !decide_False by discriminate. rewrite decide_True by reflexivity.
    unfold refreshed_steps.
    destruct (decide (0 < length steps)); cbn [Set_ rd_fields].
    + apply lookup_insert_eq.
    + apply Hother. now right.
  - assert (k ≠ "name" ∧ k ≠ "description" ∧ k ≠ "project_id" ∧
            k ≠ "env_params" ∧ k ≠ "sys_params" ∧ k ≠ "config_params" ∧
            k ≠ "vcs_root" ∧ k ≠ "step") as (? & ? & ? & ? & ? & ? & ? & ?).
    { unfold read_keys in Hk.
      repeat split; intros ->; apply Hk; repeat constructor. }
    rewrite !decide_False by assumption.
    rewrite Hstep by assumption. apply Hother. now left.
Qed.

Lemma read_value_idempotent (dt : entity.BuildType)
  (steps : list api.Step) (recs : list (gmap string string))
  (k : string) (old : option value) :
  read_value dt steps recs k (read_value dt steps recs k old)
    = read_value dt steps recs k old.
Proof.
  unfold read_value. cbv zeta.
  repeat (destruct (decide _); try reflexivity).
Qed.

Lemma ResourceData_eq (a b : ResourceData) :
  rd_Id a = rd_Id b → rd_isNew a = rd_isNew b →
  rd_partial a = rd_partial b → rd_partialKeys a = rd_partialKeys b →
  rd_fields a = rd_fields b → a = b.
Proof. destruct a, b. simpl. intros -> -> -> -> ->. reflexivity. Qed.

Lemma flattenParameterCollection_meta (d : ResourceData)
  (ps : params.Parameters_) :
  rd_Id (flattenParameterCollection d ps) = rd_Id d ∧
  rd_isNew (flattenParameterCollection d ps) = rd_isNew d ∧
  rd_partial (flattenParameterCollection d ps) = rd_partial d ∧
  rd_partialKeys (flattenParameterCollection d ps) = rd_partialKeys d.
Proof.
  unfold flattenParameterCollection.
  destruct (flattenParameters ps) as [[c s] e].
  repeat case_decide; repeat split; reflexivity.
Qed.

Lemma refreshed_meta (dt : entity.BuildType) (steps : list api.Step)
  (recs : list (gmap string string)) (d : ResourceData) :
  let d' := refreshed_steps steps recs (refreshed_entity dt d) in
  rd_Id d' = rd_Id d ∧ rd_isNew d' = rd_isNew d ∧
  rd_partial d' = rd_partial d ∧ rd_partialKeys d' = rd_partialKeys d.
Proof.
  unfold refreshed_steps, refreshed_entity. cbv zeta.
  match goal with
  | |- context [flattenParameterCollection ?d0 ?ps] =>
      destruct (flattenParameterCollection_meta d0 ps) as (H1 & H2 & H3 & H4)
  end.
  repeat case_decide; cbn [Set_ rd_Id rd_isNew rd_partial rd_partialKeys];
    rewrite ?H1, ?H2, ?H3, ?H4; repeat split; reflexivity.
Qed.

Lemma refreshed_idempotent (dt : entity.BuildType) (steps : list api.Step)
  (recs : list (gmap string string)) (d : ResourceData) :
  let refresh d := refreshed_steps steps recs (refreshed_entity dt d) in
  refresh (refresh d) = refresh d.
Proof.
  intros refresh. subst refresh. cbv beta.
  destruct (refreshed_meta dt steps recs d) as (H1 & H2 & H3 & H4).
  destruct (refreshed_meta dt steps recs
              (refreshed_steps steps recs (refreshed_entity dt d)))
    as (G1 & G2 & G3 & G4).
  cbv zeta in *.
  apply ResourceData_eq; try congruence.
  apply map_eq. intros k.
  now rewrite !refreshed_lookup, read_value_idempotent.
Qed.

(** X12: what a successful Read leaves in the resource data.  The ID is
    kept; name, description and project_id are the server's; a kind of
    parameter with at least one member has its field replaced by exactly
    the flattened map of that kind; vcs_root and step, when the server
    has members for them, hold the sets of the flattened entries and
    steps, not the server's lists: enumerated by increasing key, with,
    of the members that share a fingerprint, the first in the server's
    order only; a reader of the field gets exactly that enumeration;
    every other key is untouched.  The calls are GetByID and GetSteps,
    in this order, and nothing else. *)
Theorem read_refreshes_fields {R : Type} (client : Client R) (w : World R)
  (dt : entity.BuildType) (r1 r2 : R) (steps : list api.Step)
  (recs : list (gmap string string)) :
  BuildTypes_GetByID client (rd_Id (w_d w)) (w_remote w) = (Ok dt, r1) →
  BuildTypes_GetSteps client (rd_Id (w_d w)) r1 = (Ok steps, r2) →
  map_each flattenBuildStep steps = Ok recs →
  let res := resourceBuildConfigurationRead R client w in
  let maps := flattenParameters (entity.bt_Parameters dt) in
  let entries := map flattenVcsRootEntry (entity.bt_VcsRootEntries dt) in
  res.1 = Ok tt ∧
  w_remote res.2 = r2 ∧
  w_calls res.2
    = (w_calls w ++ [CallBuildTypesGetByID (rd_Id (w_d w));
                     CallGetSteps (rd_Id (w_d w))])%list ∧
  rd_Id (w_d res.2) = rd_Id (w_d w) ∧
  rd_fields (w_d res.2) !! "name" = Some (VString (entity.bt_Name dt)) ∧
  rd_fields (w_d res.2) !! "description"
    = Some (VString (entity.bt_Description dt)) ∧
  rd_fields (w_d res.2) !! "project_id"
    = Some (VString (entity.bt_ProjectID dt)) ∧
  (∀ t key,
     (t, key) ∈ [(params.EnvironmentVariable, "env_params");
                 (params.System, "sys_params");
                 (params.Configuration, "config_params")] →
     0 < size (map_of_kind t maps) →
     rd_fields (w_d res.2) !! key = Some (VMap (map_of_kind t maps))) ∧
  (entity.bt_VcsRootEntries dt ≠ [] →
   ∃ stored,
     rd_fields (w_d res.2) !! "vcs_root" = Some (VVcsRoots stored) ∧
     enumerates vcsRootHash entries stored ∧
     GetOk_vcs_root (w_d res.2) "vcs_root" = Some stored) ∧
  (steps ≠ [] →
   ∃ stored,
     rd_fields (w_d res.2) !! "step" = Some (VSteps stored) ∧
     enumerates step_code (step_record <$> recs) stored ∧
     GetOk_step (w_d res.2) "step" = Some stored) ∧
  (∀ k, k ∉ read_keys →
        rd_fields (w_d res.2) !! k = rd_fields (w_d w) !! k).
Proof.
  intros Hget Hsteps Hrecs res maps entries. subst res.
  rewrite (read_Ok client w dt r1 r2 steps recs Hget Hsteps Hrecs).
  cbn [fst snd w_d w_remote w_calls].
  destruct (refreshed_meta dt steps recs (w_d w)) as (Hid & _).
  cbv zeta in Hid.
  assert (Hlen : ∀ A (l : list A), l ≠ [] → 0 < length l).
  { intros A [|x l] H; [contradiction | simpl; lia]. }
  repeat split; try exact Hid; rewrite ?refreshed_lookup; try reflexivity.
  - intros t key Hin Hpos. rewrite refreshed_lookup. unfold read_value.
    fold maps.
    repeat (apply elem_of_cons in Hin as [[= -> ->] | Hin];
            [key_decide; now rewrite decide_True by assumption|]).
    now apply elem_of_nil in Hin.
  - intros Hv. exists (vcs_root_set entries).
    assert (Hst : rd_fields
                    (refreshed_steps steps recs
                       (refreshed_entity dt (w_d w))) !! "vcs_root"
                  = Some (VVcsRoots (vcs_root_set entries))).
    { rewrite refreshed_lookup. unfold read_value. key_decide.
      now rewrite decide_True by (apply Hlen; assumption). }
    rewrite <- (refreshed_lookup dt steps recs (w_d w) "vcs_root").
    split; [exact Hst|]. split; [apply NewSet_enumerates|].
    unfold GetOk_vcs_root. rewrite Hst. cbv zeta.
    rewrite vcs_root_set_idempotent.
    case_decide as Hz; [|reflexivity].
    exfalso. apply (NewSet_nonempty vcsRootHash entries).
    + subst entries. destruct (entity.bt_VcsRootEntries dt);
        [contradiction | discriminate].
    + fold (vcs_root_set entries). now destruct (vcs_root_set entries).
  - intros Hs. exists (step_set recs).
    assert (Hst : rd_fields
                    (refreshed_steps steps recs
                       (refreshed_entity dt (w_d w))) !! "step"
                  = Some (VSteps (step_set recs))).
    { rewrite refreshed_lookup. unfold read_value. key_decide.
      now rewrite decide_True by (apply Hlen; assumption). }
    rewrite <- (refreshed_lookup dt steps recs (w_d w) "step").
    split; [exact Hst|]. split; [apply NewSet_enumerates|].
    unfold GetOk_step. rewrite Hst. cbv zeta.
    rewrite step_set_idempotent.
    case_decide as Hz; [|reflexivity].
    exfalso. apply (step_set_nonempty recs).
    + destruct steps as [|st steps']; [contradiction|].
      cbn [map_each] in Hrecs.
      destruct (flattenBuildStep st); try discriminate.
      cbn [result_bind] in Hrecs.
      destruct (map_each flattenBuildStep steps'); try discriminate.
      cbn [result_bind] in Hrecs. injection Hrecs as <-. discriminate.
    + now destruct (step_set recs).
  - intros k Hk. rewrite refreshed_lookup. unfold read_value.
    assert (k ≠ "name" ∧ k ≠ "description" ∧ k ≠ "project_id" ∧
            k ≠ "env_params" ∧ k ≠ "sys_params" ∧ k ≠ "config_params" ∧
            k ≠ "vcs_root" ∧ k ≠ "step") as (? & ? & ? & ? & ? & ? & ? & ?).
    { unfold read_keys in Hk.
      repeat split; intros ->; apply Hk; repeat constructor. }
    key_decide.
Qed.

(** Two inline steps on the server that differ only in their code have
    one fingerprint: Read keeps the first and drops the second. *)
Lemma read_refreshes_fields_witness :
  let twin : api.Step :=
    api.PowershellStep (api.mkStepPowershell "" "" "" "Write-Host ho") in
  let server :=
    memory.with_steps
      (<["Proj_Build" := [scenario_step1; scenario_step2; twin]]>
         (memory.srv_steps (w_remote built_world)))
      (w_remote built_world) in
  let res :=
    resourceBuildConfigurationRead memory.Server memory.client
      (mkWorld (SetId "Proj_Build" (fresh ∅)) server []) in
  res.1 = Ok tt ∧
  rd_fields (w_d res.2) !! "name" = Some (VString "Build") ∧
  GetOk_step (w_d res.2) "step"
    = Some [step_record
              (<["type" := "powershell"]>
                 (<["code" := "Write-Host hi"]> ∅));
            step_record
              (<["type" := "cmd_line"]> (<["file" := "build.sh"]> ∅))].
Proof.
  intros twin server res.
  edestruct (read_refreshes_fields memory.client
               (mkWorld (SetId "Proj_Build" (fresh ∅)) server []))
    as (H1 & _ & _ & _ & Hname & _ & _ & _ & _ & Hstep & _).
  - vm_compute. reflexivity.
  - vm_compute. reflexivity.
  - vm_compute. reflexivity.
  - split; [exact H1|]. split; [exact Hname|].
    destruct Hstep as (stored & _ & _ & Hget); [discriminate|].
    etransitivity; [exact Hget|].
    transitivity (GetOk_step (w_d res.2) "step");
      [symmetry; exact Hget | vm_compute; reflexivity].
Defined.

(** X13: when the entity cannot be fetched, Read returns the error of the
    client as it is, leaves the resource data exactly as it was and makes
    no further call: the steps are not asked for. *)
Theorem read_propagates_fetch_error {R : Type} (client : Client R)
  (w : World R) (e : string) (r1 : R) :
  BuildTypes_GetByID client (rd_Id (w_d w)) (w_remote w) = (Err e, r1) →
  let res := resourceBuildConfigurationRead R client w in
  res.1 = Err e ∧
  w_d res.2 = w_d w ∧
  w_remote res.2 = r1 ∧
  w_calls res.2
    = (w_calls w ++ [CallBuildTypesGetByID (rd_Id (w_d w))])%list.
Proof.
  intros Hget res. subst res. rewrite (read_GetByID_Err client w e r1 Hget).
  repeat split.
Qed.

Lemma read_propagates_fetch_error_witness :
  let w := start recorded_d (memory.empty_server []) in
  let res := resourceBuildConfigurationRead memory.Server memory.client w in
  res.1 = Err "404 Not Found" ∧ w_d res.2 = recorded_d.
Proof.
  intros w res.
  destruct (read_propagates_fetch_error memory.client w "404 Not Found"
              (memory.empty_server []) eq_refl) as (H1 & H2 & _).
  split; [exact H1 | exact H2].
Defined.

Lemma map_each_first_Err {A B : Type} (f : A → result B)
  (pre post : list A) (x : A) (ys : list B) (e : string) :
  map_each f pre = Ok ys → f x = Err e →
  map_each f (pre ++ x :: post) = Err e.
Proof.
  revert ys. induction pre as [|a pre IH]; intros ys Hpre Hx.
  - cbn. now rewrite Hx.
  - cbn [app map_each] in *. destruct (f a) as [b|e'|]; try discriminate.
    cbn [result_bind] in *.
    destruct (map_each f pre) as [bs|e'|]; try discriminate.
    now rewrite (IH bs eq_refl Hx).
Qed.

(** X14: one step on the server whose kind this provider does not know
    makes the whole Read fail with the error that names the kind: the
    steps before it, though they flatten, are not saved, and [step] keeps
    the value it had, while name, description and project_id have already
    been written. *)
Theorem read_aborts_on_unknown_step {R : Type} (client : Client R)
  (w : World R) (dt : entity.BuildType) (r1 r2 : R)
  (pre post : list api.Step) (s : api.Step)
  (recs : list (gmap string string)) :
  BuildTypes_GetByID client (rd_Id (w_d w)) (w_remote w) = (Ok dt, r1) →
  BuildTypes_GetSteps client (rd_Id (w_d w)) r1
    = (Ok (pre ++ s :: post)%list, r2) →
  map_each flattenBuildStep pre = Ok recs →
  stepTypeMap !! api.Type_ s = None →
  let res := resourceBuildConfigurationRead R client w in
  res.1 = Err ("Build step type '" +:+ api.Type_ s +:+ "' not supported") ∧
  rd_fields (w_d res.2) !! "step" = rd_fields (w_d w) !! "step" ∧
  rd_fields (w_d res.2) !! "name" = Some (VString (entity.bt_Name dt)) ∧
  rd_fields (w_d res.2) !! "description"
    = Some (VString (entity.bt_Description dt)) ∧
  rd_fields (w_d res.2) !! "project_id"
    = Some (VString (entity.bt_ProjectID dt)).
Proof.
  intros Hget Hsteps Hpre Hunknown res. subst res.
  assert (Hs : flattenBuildStep s
               = Err ("Build step type '" +:+ api.Type_ s
                      +:+ "' not supported")).
  { unfold flattenBuildStep. rewrite Hunknown. simpl.
    repeat case_decide; try discriminate. reflexivity. }
  rewrite (read_after_GetByID _ _ _ _ Hget).
  match goal with
  | |- context [bind (call ?c ?op) ?f ?w0] =>
      rewrite (bind_Ok (call c op) f w0 _ _ (call_run c op w0 _ _ Hsteps))
  end.
  rewrite decide_True by (rewrite length_app; simpl; lia).
  unfold bind, lift. rewrite (map_each_first_Err _ _ _ _ _ _ Hpre Hs).
  cbn [fst snd w_d].
  destruct (refreshed_entity_fields dt (w_d w))
    as (_ & Hn & Hd & Hp & _ & _ & _ & _ & Hother).
  cbv zeta in *. repeat split; try assumption.
  apply Hother. now right.
Qed.

Lemma read_aborts_on_unknown_step_witness :
  let res :=
    resourceBuildConfigurationRead memory.Server memory.client
      foreign_world in
  res.1 = Err "Build step type 'gradle-runner' not supported" ∧
  rd_fields (w_d res.2) !! "step" = rd_fields (w_d built_world) !! "step".
Proof.
  intros res.
  pose proof (fun dt r1 r2 =>
                read_aborts_on_unknown_step memory.client foreign_world
                  dt r1 r2 [scenario_step1] [scenario_step2] foreign_step)
    as H.
  edestruct H as (H1 & H2 & _).
  - vm_compute. reflexivity.
  - vm_compute. reflexivity.
  - reflexivity.
  - vm_compute. reflexivity.
  - split; [exact H1 | exact H2].
Defined.

(** X15: Read is not atomic.  When the entity is fetched but the steps
    cannot be, Read returns the error of the client after name,
    description, project_id, the parameter maps and vcs_root have been
    written from the entity; [step] keeps the value it had. *)
Theorem read_fails_after_entity_fields {R : Type} (client : Client R)
  (w : World R) (dt : entity.BuildType) (r1 r2 : R) (e : string) :
  BuildTypes_GetByID client (rd_Id (w_d w)) (w_remote w) = (Ok dt, r1) →
  BuildTypes_GetSteps client (rd_Id (w_d w)) r1 = (Err e, r2) →
  let res := resourceBuildConfigurationRead R client w in
  res.1 = Err e ∧
  w_d res.2 = refreshed_entity dt (w_d w) ∧
  rd_fields (w_d res.2) !! "name" = Some (VString (entity.bt_Name dt)) ∧
  rd_fields (w_d res.2) !! "step" = rd_fields (w_d w) !! "step" ∧
  w_calls res.2
    = (w_calls w ++ [CallBuildTypesGetByID (rd_Id (w_d w));
                     CallGetSteps (rd_Id (w_d w))])%list.
Proof.
  intros Hget Hsteps res. subst res.
  rewrite (read_after_GetByID _ _ _ _ Hget).
  match goal with
  | |- context [bind (call ?c ?op) ?f ?w0] =>
      rewrite (bind_Err (call c op) f w0 _ _ (call_run c op w0 _ _ Hsteps))
  end.
  cbn [fst snd w_d w_calls].
  destruct (refreshed_entity_fields dt (w_d w))
    as (_ & Hn & _ & _ & _ & _ & _ & _ & Hother).
  cbv zeta in *. repeat split; try assumption.
  - apply Hother. now right.
  - now rewrite <- app_assoc.
Qed.

Lemma read_fails_after_entity_fields_witness :
  let w := mkWorld (SetId "Proj_Build" (fresh ∅))
             (memory.with_faults [None; Some "timeout"]
                (w_remote built_world)) [] in
  let res := resourceBuildConfigurationRead memory.Server memory.client w in
  res.1 = Err "timeout" ∧
  rd_fields (w_d res.2) !! "name" = Some (VString "Build") ∧
  rd_fields (w_d res.2) !! "step" = None.
Proof.
  intros w res.
  edestruct (read_fails_after_entity_fields memory.client w)
    as (H1 & _ & H2 & H3 & _).
  - vm_compute. reflexivity.
  - vm_compute. reflexivity.
  - split; [exact H1|]. split; [exact H2 | exact H3].
Defined.

(** X16: Read converges.  On a server that answers the two queries the
    same way and is not changed by them, a second Read succeeds and
    leaves exactly the resource data of the first. *)
Theorem read_is_idempotent {R : Type} (client : Client R) (w : World R)
  (dt : entity.BuildType) (steps : list api.Step)
  (recs : list (gmap string string)) :
  BuildTypes_GetByID client (rd_Id (w_d w)) (w_remote w)
    = (Ok dt, w_remote w) →
  BuildTypes_GetSteps client (rd_Id (w_d w)) (w_remote w)
    = (Ok steps, w_remote w) →
  map_each flattenBuildStep steps = Ok recs →
  let first := resourceBuildConfigurationRead R client w in
  let second := resourceBuildConfigurationRead R client first.2 in
  first.1 = Ok tt ∧ second.1 = Ok tt ∧
  w_d second.2 = w_d first.2 ∧
  w_remote second.2 = w_remote w.
Proof.
  intros Hget Hsteps Hrecs first second. subst second first.
  rewrite (read_Ok client w dt _ _ steps recs Hget Hsteps Hrecs).
  cbn [fst snd].
  destruct (refreshed_meta dt steps recs (w_d w)) as (Hid & _).
  cbv zeta in Hid.
  rewrite (read_Ok client _ dt (w_remote w) (w_remote w) steps recs).
  - cbn [fst snd w_d w_remote]. repeat split.
    apply (refreshed_idempotent dt steps recs (w_d w)).
  - cbn [w_d w_remote]. now rewrite Hid.
  - cbn [w_d w_remote]. now rewrite Hid.
  - exact Hrecs.
Qed.

Lemma read_is_idempotent_witness :
  let w := mkWorld (SetId "Proj_Build" (fresh ∅)) (w_remote built_world) [] in
  let first := resourceBuildConfigurationRead memory.Server memory.client w in
  let second :=
    resourceBuildConfigurationRead memory.Server memory.client first.2 in
  second.1 = Ok tt ∧ w_d second.2 = w_d first.2.
Proof.
  intros w first second.
  edestruct (read_is_idempotent memory.client w) as (_ & H2 & H3 & _).
  - vm_compute. reflexivity.
  - vm_compute. reflexivity.
  - vm_compute. reflexivity.
  - split; [exact H2 | exact H3].
Defined.

(** ** Create of a build configuration, continued *)

Lemma buildTypeToCreate_request {R : Type}
  (range : gmap string string → list (string * string))
  (d : ResourceData) (w w' : World R) (req : string * entity.BuildType) :
  buildTypeToCreate range R d w = (Ok req, w') →
  w' = w ∧
  req.1 = default "" (GetOk_string d "project_id") ∧
  entity.bt_ProjectID req.2 = default "" (GetOk_string d "project_id") ∧
  entity.bt_Name req.2 = default "" (GetOk_string d "name") ∧
  entity.bt_Description req.2 = default "" (GetOk_string d "description") ∧
  expandParameterCollection range d = Ok (entity.bt_Parameters req.2) ∧
  entity.bt_VcsRootEntries req.2 = [].
Proof.
  unfold buildTypeToCreate, bind, lift, ret. cbn [entity.NewBuildType].
  destruct (expandParameterCollection range d) as [ps|e|];
    try discriminate.
  intros [= <- <-]. cbn [fst snd].
  destruct (GetOk_string d "description"); repeat split.
Qed.

(** X17: the entity sent with the create call carries the project ID, the
    name, the description and the expanded parameters of the resource
    data and no VCS root; and when that call fails, Create returns its
    error with the resource data untouched (no ID is set) and no other
    call made. *)
Theorem create_call_failure {R : Type}
  (range : gmap string string → list (string * string))
  (client : Client R) (d : ResourceData) (r0 r1 : R) (cs : list Call)
  (req : string * entity.BuildType) (e : string) :
  buildTypeToCreate range R d (mkWorld d r0 cs) = (Ok req, mkWorld d r0 cs) →
  BuildTypes_Create client req.1 req.2 r0 = (Err e, r1) →
  resourceBuildConfigurationCreate range R client (mkWorld d r0 cs)
    = (Err e, mkWorld d r1 (cs ++ [CallBuildTypesCreate req.1 req.2])) ∧
  req.1 = default "" (GetOk_string d "project_id") ∧
  entity.bt_ProjectID req.2 = default "" (GetOk_string d "project_id") ∧
  entity.bt_Name req.2 = default "" (GetOk_string d "name") ∧
  entity.bt_Description req.2 = default "" (GetOk_string d "description") ∧
  expandParameterCollection range d = Ok (entity.bt_Parameters req.2) ∧
  entity.bt_VcsRootEntries req.2 = [].
Proof.
  intros Hreq Hcreate.
  destruct (buildTypeToCreate_request range d _ _ req Hreq)
    as (_ & H1 & H2 & H3 & H4 & H5 & H6).
  repeat split; try assumption.
  unfold resourceBuildConfigurationCreate.
  unfold bind at 1, get_d. cbn [w_d].
  rewrite (bind_Ok _ _ _ _ _ Hreq). cbv beta zeta.
  assert (Hcall := call_run (CallBuildTypesCreate req.1 req.2)
                     (BuildTypes_Create client req.1 req.2)
                     (mkWorld d r0 cs) _ _ Hcreate).
  now rewrite (bind_Err _ _ _ _ _ Hcall).
Qed.

Lemma create_call_failure_witness :
  resourceBuildConfigurationCreate map_to_list memory.Server memory.client
    (start scenario_d (memory.empty_server [Some "403 Forbidden"]))
  = (Err "403 Forbidden",
     mkWorld scenario_d (memory.empty_server [])
       [CallBuildTypesCreate "Proj"
          (entity.mkBuildType "" "Proj" "Build" ""
             params.NewParametersEmpty [])]).
Proof.
  refine (proj1 (create_call_failure map_to_list memory.client scenario_d
                   (memory.empty_server [Some "403 Forbidden"])
                   (memory.empty_server []) []
                   ("Proj", entity.mkBuildType "" "Proj" "Build" ""
                              params.NewParametersEmpty [])
                   "403 Forbidden" _ _)).
  - vm_compute. reflexivity.
  - vm_compute. reflexivity.
Defined.

(** X18: a declarative step whose type the expand does not support aborts
    Create with the error that quotes the type, after the entity was
    created, the VCS roots attached and the steps added that come before
    it in the enumeration of the step set (by key, not as declared): the
    state is the one those calls left, and neither this step nor any
    later one of the enumeration reaches the server. *)
Theorem create_aborts_on_unsupported_step {R : Type}
  (range : gmap string string → list (string * string))
  (client : Client R) (d : ResourceData) (r0 r1 : R) (cs : list Call)
  (req : string * entity.BuildType) (created : entity.Reference)
  (steps done todo : list (gmap string string)) (raw : gmap string string)
  (wv wk : World R) (t : string) :
  let id_ := entity.created_ID created in
  let w1 := mkWorld (created_d id_ d) r1
              (cs ++ [CallBuildTypesCreate req.1 req.2]) in
  buildTypeToCreate range R d (mkWorld d r0 cs) = (Ok req, mkWorld d r0 cs) →
  BuildTypes_Create client req.1 req.2 r0 = (Ok created, r1) →
  attachVcsRoots R client d id_ w1 = (Ok tt, wv) →
  GetOk_step d "step" = Some steps →
  steps = (done ++ raw :: todo)%list →
  for_each done (step_body R client id_) wv = (Ok tt, wk) →
  raw !! "type" = Some t → t ≠ "powershell" → t ≠ "cmd_line" →
  resourceBuildConfigurationCreate range R client (mkWorld d r0 cs)
    = (Err ("Unsupported step type '" +:+ t +:+ "'"), wk) ∧
  ∃ sts,
    map_each expandBuildStep done = Ok sts ∧
    w_calls wk
    = (w_calls w1
       ++ map (attach_call id_) (default [] (GetOk_vcs_root d "vcs_root"))
       ++ map (CallAddStep id_) sts)%list.
Proof.
  intros id_ w1 Hreq Hcreate Hv Hsteps -> Hdone Ht Hp Hc.
  assert (Hexp : expandBuildStep raw
                 = Err ("Unsupported step type '" +:+ t +:+ "'")).
  { unfold expandBuildStep. rewrite Ht.
    now rewrite !decide_False by assumption. }
  destruct (attachVcsRoots_Ok _ _ _ _ _ Hv) as (_ & _ & Hcv).
  destruct (step_loop_Ok _ _ _ _ _ Hdone) as (_ & sts & Hsts & Hck).
  split.
  - rewrite (create_after_created _ _ _ _ _ _ _ _ Hreq Hcreate).
    fold id_. fold w1. rewrite (bind_Ok _ _ _ _ _ Hv).
    apply bind_Err. unfold addSteps. rewrite Hsteps. apply bind_Err.
    eapply for_each_first_failure; [exact Hdone|].
    unfold step_body, lift. unfold bind at 1. now rewrite Hexp.
  - exists sts. split; [exact Hsts|].
    now rewrite Hck, Hcv, <- app_assoc.
Qed.

(** [unsupported_d] declares the gradle step between the two others; its
    key is the smallest of the three, so it is the first to be expanded
    and Create fails before any step is added. *)
Lemma create_aborts_on_unsupported_step_witness :
  let res :=
    resourceBuildConfigurationCreate map_to_list memory.Server
      memory.client (start unsupported_d (memory.empty_server [])) in
  res.1 = Err "Unsupported step type 'gradle'" ∧
  memory.srv_steps (w_remote res.2) !! "Proj_Build" = None ∧
  w_calls res.2
    = [CallBuildTypesCreate "Proj"
         (entity.mkBuildType "" "Proj" "Build" ""
            params.NewParametersEmpty [])].
Proof.
  intros res.
  pose proof (fun r1 req created wv wk =>
    create_aborts_on_unsupported_step map_to_list memory.client
      unsupported_d (memory.empty_server []) r1 [] req created
      [step_record (<["type" := "gradle"]> (<["file" := "build.gradle"]> ∅));
       step_record
         (<["type" := "powershell"]> (<["code" := "Write-Host hi"]> ∅));
       step_record (<["type" := "cmd_line"]> (<["file" := "build.sh"]> ∅))]
      []
      [step_record
         (<["type" := "powershell"]> (<["code" := "Write-Host hi"]> ∅));
       step_record (<["type" := "cmd_line"]> (<["file" := "build.sh"]> ∅))]
      (step_record (<["type" := "gradle"]> (<["file" := "build.gradle"]> ∅)))
      wv wk "gradle") as H.
  edestruct H as (Hrun & _).
  - vm_compute. reflexivity.
  - vm_compute. reflexivity.
  - vm_compute. reflexivity.
  - vm_compute. reflexivity.
  - reflexivity.
  - vm_compute. reflexivity.
  - vm_compute. reflexivity.
  - discriminate.
  - discriminate.
  - subst res. unfold start. rewrite Hrun. repeat split; reflexivity.
Defined.

Lemma attachVcsRoots_meta {R : Type} (client : Client R) (d : ResourceData)
  (buildTypeID : string) (w wv : World R) :
  attachVcsRoots R client d buildTypeID w = (Ok tt, wv) →
  rd_isNew (w_d wv) = rd_isNew (w_d w).
Proof.
  unfold attachVcsRoots.
  destruct (GetOk_vcs_root d "vcs_root") as [vcs|].
  - unfold bind, modify_d.
    destruct (for_each vcs (attach_body R client buildTypeID) w)
      as [[[]|e|] w'] eqn:E; try discriminate.
    intros [= <-]. apply attach_loop_Ok in E as [Hd _].
    cbn [w_d]. now rewrite Hd.
  - now intros [= <-].
Qed.

Lemma addSteps_meta {R : Type} (client : Client R) (d : ResourceData)
  (buildTypeID : string) (w ws : World R) :
  addSteps R client d buildTypeID w = (Ok tt, ws) →
  rd_Id (w_d ws) = rd_Id (w_d w) ∧
  rd_isNew (w_d ws) = rd_isNew (w_d w) ∧
  rd_fields (w_d ws) = rd_fields (w_d w).
Proof.
  unfold addSteps.
  destruct (GetOk_step d "step") as [steps|].
  - unfold bind, modify_d.
    destruct (for_each steps (step_body R client buildTypeID) w)
      as [[[]|e|] w'] eqn:E; try discriminate.
    intros [= <-]. apply step_loop_Ok in E as (Hd & _).
    cbn [w_d]. rewrite Hd. repeat split.
  - intros [= <-]. repeat split.
Qed.

(** X19: when every call succeeds, Create returns success with the ID of
    the created entity in the resource data, the resource marked as new,
    partial mode switched off with no key left marked, and the fields as
    the closing Read refreshed them; the calls are the create call, the
    attachments and the step additions in the order in which the two
    sets enumerate their members, then GetByID and GetSteps. *)
Theorem create_success {R : Type}
  (range : gmap string string → list (string * string))
  (client : Client R) (d : ResourceData) (r0 r1 r2 r3 : R) (cs : list Call)
  (req : string * entity.BuildType) (created : entity.Reference)
  (wv ws : World R) (dt : entity.BuildType) (steps : list api.Step)
  (recs : list (gmap string string)) :
  let id_ := entity.created_ID created in
  let w1 := mkWorld (created_d id_ d) r1
              (cs ++ [CallBuildTypesCreate req.1 req.2]) in
  buildTypeToCreate range R d (mkWorld d r0 cs) = (Ok req, mkWorld d r0 cs) →
  BuildTypes_Create client req.1 req.2 r0 = (Ok created, r1) →
  attachVcsRoots R client d id_ w1 = (Ok tt, wv) →
  addSteps R client d id_ wv = (Ok tt, ws) →
  BuildTypes_GetByID client id_ (w_remote ws) = (Ok dt, r2) →
  BuildTypes_GetSteps client id_ r2 = (Ok steps, r3) →
  map_each flattenBuildStep steps = Ok recs →
  let res := resourceBuildConfigurationCreate range R client
               (mkWorld d r0 cs) in
  res.1 = Ok tt ∧
  rd_Id (w_d res.2) = id_ ∧
  rd_isNew (w_d res.2) = true ∧
  rd_partial (w_d res.2) = false ∧
  rd_partialKeys (w_d res.2) = [] ∧
  (∀ k, rd_fields (w_d res.2) !! k
        = read_value dt steps recs k (rd_fields d !! k)) ∧
  w_remote res.2 = r3 ∧
  ∃ sts,
    map_each expandBuildStep (default [] (GetOk_step d "step")) = Ok sts ∧
    w_calls res.2
    = (cs ++ [CallBuildTypesCreate req.1 req.2]
       ++ map (attach_call id_) (default [] (GetOk_vcs_root d "vcs_root"))
       ++ map (CallAddStep id_) sts
       ++ [CallBuildTypesGetByID id_; CallGetSteps id_])%list.
Proof.
  intros id_ w1 Hreq Hcreate Hv Hs Hget Hsteps Hrecs res. subst res.
  rewrite (resourceBuildConfigurationCreate_ends_with_Read range client d
             r0 r1 cs req created wv ws Hreq Hcreate Hv Hs).
  destruct (attachVcsRoots_Ok _ _ _ _ _ Hv) as (Hid & Hfields & Hcv).
  pose proof (attachVcsRoots_meta _ _ _ _ _ Hv) as Hnew.
  destruct (addSteps_meta _ _ _ _ _ Hs) as (Hid' & Hnew' & Hfields').
  destruct (addSteps_Ok _ _ _ _ _ Hs) as (sts & Hsts & Hcs).
  assert (Hws : rd_Id (w_d ws) = id_) by (now rewrite Hid', Hid).
  rewrite (read_Ok client _ dt r2 r3 steps recs);
    cbn [w_d w_remote w_calls Partial rd_Id]; rewrite ?Hws; try assumption.
  cbn [fst snd w_d w_remote w_calls].
  match goal with
  | |- context [refreshed_steps steps recs (refreshed_entity dt ?d0)] =>
      destruct (refreshed_meta dt steps recs d0) as (M1 & M2 & M3 & M4);
      pose proof (refreshed_lookup dt steps recs d0) as Hlook
  end.
  cbv zeta in M1, M2, M3, M4.
  cbn [Partial rd_Id rd_isNew rd_partial rd_partialKeys rd_fields]
    in M1, M2, M3, M4, Hlook.
  repeat split.
  - now rewrite M1.
  - rewrite M2, Hnew', Hnew. reflexivity.
  - exact M3.
  - exact M4.
  - intros k. rewrite Hlook, Hfields', Hfields. reflexivity.
  - exists sts. split; [exact Hsts|].
    rewrite Hcs, Hcv. subst w1. cbn [w_calls].
    now rewrite <- !app_assoc.
Qed.

Lemma create_success_witness :
  let res :=
    resourceBuildConfigurationCreate map_to_list memory.Server
      memory.client (start scenario_d (memory.empty_server [])) in
  res.1 = Ok tt ∧
  rd_Id (w_d res.2) = "Proj_Build" ∧
  rd_isNew (w_d res.2) = true ∧
  rd_partial (w_d res.2) = false.
Proof.
  intros res.
  pose proof (fun r1 r2 r3 req created wv ws dt steps recs =>
    create_success map_to_list memory.client scenario_d
      (memory.empty_server []) r1 r2 r3 [] req created wv ws dt steps recs)
    as H.
  edestruct H as (H1 & H2 & H3 & H4 & _).
  - vm_compute. reflexivity.
  - vm_compute. reflexivity.
  - vm_compute. reflexivity.
  - vm_compute. reflexivity.
  - vm_compute. reflexivity.
  - vm_compute. reflexivity.
  - vm_compute. reflexivity.
  - subst res. unfold start.
    split; [exact H1|]. split; [exact H2|]. split; [exact H3 | exact H4].
Defined.

(** ** The project resource *)

Lemma resourceProjectUpdate_run {R : Type}
  (range : gmap string string → list (string * string))
  (client : Client R) (w : World R) (dt : entity.Project) (r1 r2 : R)
  (ps : params.Parameters_) (answer : result entity.Project) :
  Projects_GetByID client (rd_Id (w_d w)) (w_remote w) = (Ok dt, r1) →
  expandParameterCollection range (w_d w) = Ok ps →
  Projects_Update client (projectToUpdate (w_d w) dt ps) r1
    = (answer, r2) →
  resourceProjectUpdate range R client w
  = (result_map (fun _ => tt) answer,
     mkWorld (w_d w) r2
       (w_calls w ++ [CallProjectsGetByID (rd_Id (w_d w));
                      CallProjectsUpdate (projectToUpdate (w_d w) dt ps)])).
Proof.
  intros Hget Hps Hupd. unfold resourceProjectUpdate.
  unfold bind at 1, get_d. cbn [w_d].
  rewrite (bind_Ok _ _ _ _ _ (call_run _ _ _ _ _ Hget)). cbv beta zeta.
  unfold bind at 1, lift. rewrite Hps.
  fold (projectToUpdate (w_d w) dt ps).
  unfold bind, call, ret. cbn [w_d w_remote w_calls]. rewrite Hupd.
  rewrite <- app_assoc. destruct answer; reflexivity.
Qed.

(** X20: Update of a project fetches the project, overlays it and sends it
    back, and never writes the resource data.  The description is
    overlaid only when the resource data holds a non-empty one, so a
    description that was removed or emptied is not cleared on the server;
    the parameters sent are exactly the expanded ones, whatever the
    server had; the ID and the name are the server's.  The result is the
    answer of the update call. *)
Theorem project_update_overlays {R : Type}
  (range : gmap string string → list (string * string))
  (client : Client R) (w : World R) (dt : entity.Project) (r1 r2 : R)
  (ps : params.Parameters_) (answer : result entity.Project) :
  Projects_GetByID client (rd_Id (w_d w)) (w_remote w) = (Ok dt, r1) →
  expandParameterCollection range (w_d w) = Ok ps →
  Projects_Update client (projectToUpdate (w_d w) dt ps) r1
    = (answer, r2) →
  let res := resourceProjectUpdate range R client w in
  let sent := projectToUpdate (w_d w) dt ps in
  res.1 = result_map (fun _ => tt) answer ∧
  w_d res.2 = w_d w ∧
  w_remote res.2 = r2 ∧
  w_calls res.2
    = (w_calls w ++ [CallProjectsGetByID (rd_Id (w_d w));
                     CallProjectsUpdate sent])%list ∧
  entity.p_ID sent = entity.p_ID dt ∧
  entity.p_Name sent = entity.p_Name dt ∧
  entity.p_Parameters sent = ps ∧
  (GetOk_string (w_d w) "description" = None →
   entity.p_Description sent = entity.p_Description dt) ∧
  (∀ v, GetOk_string (w_d w) "description" = Some v →
        entity.p_Description sent = v ∧ v ≠ "").
Proof.
  intros Hget Hps Hupd res sent. subst res sent.
  rewrite (resourceProjectUpdate_run range client w dt r1 r2 ps answer
             Hget Hps Hupd).
  cbn [fst snd w_d w_remote w_calls]. unfold projectToUpdate.
  repeat split.
  - destruct (GetOk_string (w_d w) "description"); reflexivity.
  - destruct (GetOk_string (w_d w) "description"); reflexivity.
  - intros ->. reflexivity.
  - rewrite H. reflexivity.
  - unfold GetOk_string in H.
    destruct (rd_fields (w_d w) !! "description") as [[s| | |]|];
      try discriminate.
    case_decide; [discriminate|]. now injection H as <-.
Qed.

Lemma project_update_overlays_witness :
  let res :=
    resourceProjectUpdate map_to_list memory.Server memory.client
      (start undescribed_d described_server) in
  res.1 = Ok tt ∧
  w_d res.2 = undescribed_d ∧
  memory.srv_projects (w_remote res.2) !! "P"
    = Some (entity.mkProject "P" "P" "about P" "" params.NewParametersEmpty).
Proof.
  intros res.
  pose proof (fun dt r1 r2 ps answer =>
    project_update_overlays map_to_list memory.client
      (start undescribed_d described_server) dt r1 r2 ps answer) as H.
  edestruct H as (H1 & H2 & H3 & _).
  - vm_compute. reflexivity.
  - vm_compute. reflexivity.
  - vm_compute. reflexivity.
  - subst res. split; [exact H1|]. split; [exact H2|].
    rewrite H3. reflexivity.
Defined.

Lemma resourceProjectRead_run {R : Type} (client : Client R) (w : World R)
  (dt : entity.Project) (r1 : R) :
  Projects_GetByID client (rd_Id (w_d w)) (w_remote w) = (Ok dt, r1) →
  resourceProjectRead R client w
  = (Ok tt,
     mkWorld
       (flattenParameterCollection
          (Set_ "description" (VString (entity.p_Description dt))
             (Set_ "name" (VString (entity.p_Name dt)) (w_d w)))
          (entity.p_Parameters dt))
       r1 (w_calls w ++ [CallProjectsGetByID (rd_Id (w_d w))])).
Proof.
  intros Hget. unfold resourceProjectRead.
  unfold bind at 1, get_d. cbn [w_d]. unfold getProject.
  rewrite (bind_Ok _ _ _ _ _ (call_run _ _ _ _ _ Hget)).
  reflexivity.
Qed.

(** X21: Read of a project, once the project is fetched, cannot fail.  It
    makes that one call, keeps the ID, writes name and description from
    the server, replaces the parameter map of each kind that has a
    member by the flattened map, keeps the map of a kind without members,
    and touches no other key.  Import returns exactly the resource data
    so refreshed, as its only element. *)
Theorem project_read_refreshes {R : Type} (client : Client R)
  (w : World R) (dt : entity.Project) (r1 : R) :
  Projects_GetByID client (rd_Id (w_d w)) (w_remote w) = (Ok dt, r1) →
  let res := resourceProjectRead R client w in
  let maps := flattenParameters (entity.p_Parameters dt) in
  let kept (t key : string) :=
    if decide (0 < size (map_of_kind t maps))
    then Some (VMap (map_of_kind t maps))
    else rd_fields (w_d w) !! key in
  res.1 = Ok tt ∧
  w_remote res.2 = r1 ∧
  w_calls res.2
    = (w_calls w ++ [CallProjectsGetByID (rd_Id (w_d w))])%list ∧
  rd_Id (w_d res.2) = rd_Id (w_d w) ∧
  rd_fields (w_d res.2) !! "name" = Some (VString (entity.p_Name dt)) ∧
  rd_fields (w_d res.2) !! "description"
    = Some (VString (entity.p_Description dt)) ∧
  rd_fields (w_d res.2) !! "env_params"
    = kept params.EnvironmentVariable "env_params" ∧
  rd_fields (w_d res.2) !! "sys_params" = kept params.System "sys_params" ∧
  rd_fields (w_d res.2) !! "config_params"
    = kept params.Configuration "config_params" ∧
  (∀ k, k ∉ project_read_keys →
        rd_fields (w_d res.2) !! k = rd_fields (w_d w) !! k) ∧
  resourceProjectImport R client w = (Ok [w_d res.2], res.2).
Proof.
  intros Hget res maps kept. subst res kept.
  assert (Himport : resourceProjectImport R client w
            = (Ok [w_d (resourceProjectRead R client w).2],
               (resourceProjectRead R client w).2)).
  { unfold resourceProjectImport.
    rewrite (bind_Ok _ _ _ _ _ (resourceProjectRead_run client w dt r1 Hget)).
    rewrite (resourceProjectRead_run client w dt r1 Hget). reflexivity. }
  rewrite Himport.
  rewrite (resourceProjectRead_run client w dt r1 Hget).
  cbn [fst snd w_d w_remote w_calls].
  destruct (flattenParameters (entity.p_Parameters dt)) as [[c s] e] eqn:Hflat.
  subst maps.
  change (map_of_kind params.EnvironmentVariable (c, s, e)) with e.
  change (map_of_kind params.System (c, s, e)) with s.
  change (map_of_kind params.Configuration (c, s, e)) with c.
  match goal with
  | |- context [flattenParameterCollection ?d0 ?ps] =>
      destruct (flattenParameterCollection_fields d0 ps c s e Hflat)
        as (He & Hs & Hc & Hother);
      destruct (flattenParameterCollection_meta d0 ps) as (Hid & _)
  end.
  cbn [Set_ rd_fields rd_Id] in He, Hs, Hc, Hother, Hid.
  rewrite !lookup_insert_ne in He, Hs, Hc by discriminate.
  repeat split; try assumption.
  - rewrite Hother by discriminate.
    rewrite lookup_insert_ne by discriminate. apply lookup_insert_eq.
  - rewrite Hother by discriminate. apply lookup_insert_eq.
  - intros k Hk.
    assert (k ≠ "name" ∧ k ≠ "description" ∧ k ≠ "env_params" ∧
            k ≠ "sys_params" ∧ k ≠ "config_params") as (? & ? & ? & ? & ?).
    { unfold project_read_keys in Hk.
      repeat split; intros ->; apply Hk; repeat constructor. }
    rewrite Hother by assumption.
    now rewrite !lookup_insert_ne by congruence.
Qed.

Lemma project_read_refreshes_witness :
  let res :=
    resourceProjectRead memory.Server memory.client
      (start undescribed_d described_server) in
  res.1 = Ok tt ∧
  rd_fields (w_d res.2) !! "description" = Some (VString "about P") ∧
  rd_fields (w_d res.2) !! "config_params"
    = Some (VMap (<["branch" := "main"]> ∅)) ∧
  rd_fields (w_d res.2) !! "env_params" = None.
Proof.
  intros res.
  pose proof (fun dt r1 =>
    project_read_refreshes memory.client
      (start undescribed_d described_server) dt r1) as H.
  edestruct H as (H1 & _ & _ & _ & _ & Hd & He & _ & Hc & _).
  - vm_compute. reflexivity.
  - subst res. split; [exact H1|]. split; [exact Hd|].
    split; [rewrite Hc | rewrite He]; vm_compute; reflexivity.
Defined.

(** X22: when the project cannot be fetched, Read and Import of a project
    return the error of the client, the resource data is exactly as it
    was, and Import yields no resource data. *)
Theorem project_read_propagates_fetch_error {R : Type} (client : Client R)
  (w : World R) (e : string) (r1 : R) :
  Projects_GetByID client (rd_Id (w_d w)) (w_remote w) = (Err e, r1) →
  let after := mkWorld (w_d w) r1
                 (w_calls w ++ [CallProjectsGetByID (rd_Id (w_d w))]) in
  resourceProjectRead R client w = (Err e, after) ∧
  resourceProjectImport R client w = (Err e, after).
Proof.
  intros Hget after.
  assert (Hread : resourceProjectRead R client w = (Err e, after)).
  { unfold resourceProjectRead.
    unfold bind at 1, get_d. cbn [w_d]. unfold getProject.
    now rewrite (bind_Err _ _ _ _ _ (call_run _ _ _ _ _ Hget)). }
  split; [exact Hread|].
  unfold resourceProjectImport. now rewrite (bind_Err _ _ _ _ _ Hread).
Qed.

Lemma project_read_propagates_fetch_error_witness :
  resourceProjectImport memory.Server memory.client
    (start undescribed_d (memory.empty_server []))
  = (Err "404 Not Found",
     mkWorld undescribed_d (memory.empty_server [])
       [CallProjectsGetByID "P"]).
Proof.
  apply (project_read_propagates_fetch_error memory.client
           (start undescribed_d (memory.empty_server []))
           "404 Not Found" (memory.empty_server [])).
  reflexivity.
Defined.

(** X23: Create of a project sends the name alone (no description, no
    parent, no parameter), records the ID the server assigned, marks the
    resource as new and then is the Update of that resource data, whose
    result it returns; when the create call fails, its error is returned
    with the resource data untouched and no other call made. *)
Theorem project_create_then_update {R : Type}
  (range : gmap string string → list (string * string))
  (client : Client R) (d : ResourceData) (r0 : R) (cs : list Call) :
  (∀ created r1,
     Projects_Create client (projectToCreate d) r0 = (Ok created, r1) →
     resourceProjectCreate range R client (mkWorld d r0 cs)
     = resourceProjectUpdate range R client
         (mkWorld (MarkNewResource (SetId (entity.created_ID created) d))
            r1 (cs ++ [CallProjectsCreate (projectToCreate d)]))) ∧
  (∀ e r1,
     Projects_Create client (projectToCreate d) r0 = (Err e, r1) →
     resourceProjectCreate range R client (mkWorld d r0 cs)
     = (Err e, mkWorld d r1 (cs ++ [CallProjectsCreate (projectToCreate d)]))).
Proof.
  split.
  - intros created r1 Hcreate. unfold resourceProjectCreate.
    unfold bind at 1, get_d. cbn [w_d].
    unfold bind at 1, lift. cbn [entity.NewProject].
    fold (projectToCreate d).
    assert (Hcall := call_run (CallProjectsCreate (projectToCreate d))
                       (Projects_Create client (projectToCreate d))
                       (mkWorld d r0 cs) _ _ Hcreate).
    rewrite (bind_Ok _ _ _ _ _ Hcall). reflexivity.
  - intros e r1 Hcreate. unfold resourceProjectCreate.
    unfold bind at 1, get_d. cbn [w_d].
    unfold bind at 1, lift. cbn [entity.NewProject].
    fold (projectToCreate d).
    assert (Hcall := call_run (CallProjectsCreate (projectToCreate d))
                       (Projects_Create client (projectToCreate d))
                       (mkWorld d r0 cs) _ _ Hcreate).
    now rewrite (bind_Err _ _ _ _ _ Hcall).
Qed.

Lemma project_create_then_update_witness :
  resourceProjectCreate map_to_list memory.Server memory.client
    (start project_d (memory.empty_server [Some "403 Forbidden"]))
  = (Err "403 Forbidden",
     mkWorld project_d (memory.empty_server [])
       [CallProjectsCreate (projectToCreate project_d)]).
Proof.
  apply (proj2 (project_create_then_update map_to_list memory.client
                  project_d (memory.empty_server [Some "403 Forbidden"])
                  [])
           "403 Forbidden" (memory.empty_server [])).
  reflexivity.
Defined.

(** ** Partial state of Create *)

Lemma attachVcsRoots_d {R : Type} (client : Client R) (d : ResourceData)
  (buildTypeID : string) (w wv : World R) :
  attachVcsRoots R client d buildTypeID w = (Ok tt, wv) →
  w_d wv = match GetOk_vcs_root d "vcs_root" with
           | Some _ => SetPartial "vcs_root" (w_d w)
           | None => w_d w
           end.
Proof.
  unfold attachVcsRoots.
  destruct (GetOk_vcs_root d "vcs_root") as [vcs|].
  - unfold bind, modify_d.
    destruct (for_each vcs (attach_body R client buildTypeID) w)
      as [[[]|e|] w'] eqn:E; try discriminate.
    intros [= <-]. apply attach_loop_Ok in E as [Hd _].
    cbn [w_d]. now rewrite Hd.
  - now intros [= <-].
Qed.

(** X24: the bookkeeping of partial state.  A Create that fails in a step
    addition leaves partial mode on with [vcs_root], and nothing else,
    newly marked as done when the configuration has VCS roots, and no key
    newly marked when it has none; [step] is never marked by a Create
    that fails. *)
Theorem create_partial_bookkeeping {R : Type}
  (range : gmap string string → list (string * string))
  (client : Client R) (d : ResourceData) (r0 r1 : R) (cs : list Call)
  (req : string * entity.BuildType) (created : entity.Reference)
  (steps done todo : list (gmap string string)) (raw : gmap string string)
  (wv wk : World R) (st : api.Step) (e : string) (r' : R) :
  let id_ := entity.created_ID created in
  let w1 := mkWorld (created_d id_ d) r1
              (cs ++ [CallBuildTypesCreate req.1 req.2]) in
  buildTypeToCreate range R d (mkWorld d r0 cs) = (Ok req, mkWorld d r0 cs) →
  BuildTypes_Create client req.1 req.2 r0 = (Ok created, r1) →
  attachVcsRoots R client d id_ w1 = (Ok tt, wv) →
  GetOk_step d "step" = Some steps →
  steps = (done ++ raw :: todo)%list →
  for_each done (step_body R client id_) wv = (Ok tt, wk) →
  expandBuildStep raw = Ok st →
  BuildTypes_AddStep client id_ st (w_remote wk) = (Err e, r') →
  let res := resourceBuildConfigurationCreate range R client
               (mkWorld d r0 cs) in
  res.1 = Err e ∧
  rd_partial (w_d res.2) = true ∧
  rd_partialKeys (w_d res.2)
    = (match GetOk_vcs_root d "vcs_root" with
       | Some _ => ["vcs_root"]
       | None => []
       end ++ rd_partialKeys d)%list.
Proof.
  intros id_ w1 Hreq Hcreate Hv Hsteps Hsplit Hdone Hexp Hfail res.
  subst res.
  destruct (create_step_failure range client d r0 r1 cs req created
              steps done todo raw wv wk st e r' Hreq Hcreate Hv Hsteps
              Hsplit Hdone Hexp Hfail) as (sts & _ & Hrun & _).
  rewrite Hrun. cbn [fst snd w_d].
  rewrite (attachVcsRoots_d _ _ _ _ _ Hv). subst w1. cbn [w_d].
  destruct (GetOk_vcs_root d "vcs_root"); repeat split.
Qed.

Lemma create_partial_bookkeeping_witness :
  let res :=
    resourceBuildConfigurationCreate map_to_list memory.Server
      memory.client (start scenario_d scenario_server) in
  rd_partial (w_d res.2) = true ∧
  rd_partialKeys (w_d res.2) = ["vcs_root"].
Proof.
  intros res.
  pose proof (fun r1 req created wv wk st e r' =>
    create_partial_bookkeeping map_to_list memory.client scenario_d
      scenario_server r1 [] req created
      [step_record
         (<["type" := "powershell"]> (<["code" := "Write-Host hi"]> ∅));
       step_record (<["type" := "cmd_line"]> (<["file" := "build.sh"]> ∅))]
      [step_record
         (<["type" := "powershell"]> (<["code" := "Write-Host hi"]> ∅))]
      []
      (step_record (<["type" := "cmd_line"]> (<["file" := "build.sh"]> ∅)))
      wv wk st e r') as H.
  edestruct H as (_ & H2 & H3).
  - vm_compute. reflexivity.
  - vm_compute. reflexivity.
  - vm_compute. reflexivity.
  - vm_compute. reflexivity.
  - reflexivity.
  - vm_compute. reflexivity.
  - vm_compute. reflexivity.
  - vm_compute. reflexivity.
  - subst res. unfold start. split; [exact H2 | exact H3].
Defined.
